(** * SimpleHub scheduling orchestrator: a shallow embedding of
      [server/src/scheduler.js] and of the routes that call it.

    The module keeps three registries of cron jobs (one job per site, one per
    category, one global job) and re-derives them whenever configuration
    changes.  The embedding threads an explicit [World] (the prisma store, the
    node-cron runtime, the module-level registries, the clock, the state of
    the external collaborators, and the observable trace and log) through a
    small state-and-exception monad that stands for [async] functions whose
    awaits are run one after the other.  The one call that its caller starts
    and does not await, [scheduleSite] from [onSiteUpdated], is split at its
    [await]: the caller goes on after the first part and the second runs in
    a later turn. *)

From Stdlib Require Import ZArith Bool String Ascii DecimalString.
From stdpp Require Import gmap strings list fin_maps.

Local Open Scope string_scope.
Local Open Scope Z_scope.
Local Open Scope list_scope.

(** ** JavaScript strings that the code inspects

    [scheduleCron] is tested with [!s] and [!s.trim()], so it is kept as the
    sequence of its UTF-16 code units. Names, ids, messages and time zones are
    only stored, compared or tested for emptiness: they are plain [string]s. *)

Definition JsString := list N.

Definition lit (s : string) : JsString :=
  map N_of_ascii (list_ascii_of_string s).

(** ECMAScript [WhiteSpace] and [LineTerminator] code units, the ones
    [String.prototype.trim] strips. *)
Definition isWhiteSpace (c : N) : bool :=
  existsb (N.eqb c)
    [9; 10; 11; 12; 13; 32; 160; 5760; 8232; 8233; 8239; 8287; 12288; 65279]%N
  || ((8192 <=? c) && (c <=? 8202))%N.

Fixpoint trimStart (s : JsString) : JsString :=
  match s with
  | [] => []
  | c :: s' => if isWhiteSpace c then trimStart s' else s
  end.

Definition trimEnd (s : JsString) : JsString := rev (trimStart (rev s)).

Definition trim (s : JsString) : JsString := trimEnd (trimStart s).

(** Truthiness of a string value: only the empty string is falsy. *)
Definition truthy (s : JsString) : bool :=
  match s with [] => false | _ => true end.

(** [!cron || !cron.trim()] on a nullable column. *)
Definition noSchedule (cron : option JsString) : bool :=
  match cron with
  | None => true
  | Some s => negb (truthy s) || negb (truthy (trim s))
  end.

(** [a || b] on a nullable text value. *)
Definition orDefault (a : option string) (b : string) : string :=
  match a with
  | Some (String c s) => String c s
  | _ => b
  end.

(** Template-literal rendering of an integer-valued number. *)
Definition numToString (z : Z) : string :=
  NilZero.string_of_int (Z.to_int z).

(** ** Records of the store *)

Module Site.
Record t := mk {
    id : string;
    name : string;
    scheduleCron : option JsString;
    timezone : option string;
    pinned : bool;
    excludeFromBatch : bool;
    categoryId : option string
  }.

Definition withExcludeFromBatch (flag : bool) (s : t) : t :=
  mk (id s) (name s) (scheduleCron s) (timezone s) (pinned s) flag (categoryId s).

Definition withPinned (flag : bool) (s : t) : t :=
  mk (id s) (name s) (scheduleCron s) (timezone s) flag (excludeFromBatch s)
     (categoryId s).
End Site.

Module Category.
Record t := mk {
    id : string;
    name : string;
    scheduleCron : option JsString;
    timezone : option string
  }.
End Category.

Module ScheduleConfig.
  (** [timezone = None] stands for a property that is [undefined], the only
      case in which the destructuring default applies. *)
Record t := mk {
    id : string;
    enabled : bool;
    hour : Z;
    minute : Z;
    timezone : option string;
    interval : Z;
    overrideIndividual : bool;
    lastRun : option Z
  }.

Definition withLastRun (now : Z) (c : t) : t :=
    mk (id c) (enabled c) (hour c) (minute c) (timezone c) (interval c)
       (overrideIndividual c) (Some now).
End ScheduleConfig.

(** ** Values exchanged with the collaborators *)

(** A thrown value: [e.message] and [String(e)]. *)
Record JsError := mkError { message : string; asString : string }.

Record CheckInResult := mkCheckIn {
  checkInSuccess : bool;
  checkInMessage : string
}.

(** What [checkSite] resolves to. *)
Record CheckResult := mkResult {
  hasChanges : bool;
  diff : option string;
  checkInResult : option CheckInResult;
  siteName : string;
  checkInChanged : bool
}.

Inductive CheckReply :=
| Resolved (r : CheckResult)
| Rejected (e : JsError).

Record CheckOptions := mkOptions { skipNotification : bool; isManual : bool }.

(** Elements pushed on [sitesWithChanges] and [failedSites]. *)
Record ChangedSite := mkChanged {
  changed_siteName : string;
  changed_diff : option string;
  changed_checkInResult : option CheckInResult
}.

Record FailedSite := mkFailed {
  failed_siteName : string;
  failed_error : string
}.

(** ** The node-cron runtime and the observable effects *)

(** The closure handed to [cron.schedule], with the variables it captures. *)
Inductive Callback :=
| SiteCallback (site : Site.t)
| CategoryCallback (category : Category.t)
| GlobalCallback (config : ScheduleConfig.t).

(** A task of the runtime; its handle is its index in [tasks]. *)
Record Task := mkTask {
  task_expression : JsString;
  task_timezone : string;
  task_callback : Callback;
  task_running : bool
}.

Definition stopTask (t : Task) : Task :=
  mkTask (task_expression t) (task_timezone t) (task_callback t) false.

Definition startTask (t : Task) : Task :=
  mkTask (task_expression t) (task_timezone t) (task_callback t) true.

Inductive Event :=
| CheckBegin (site : Site.t) (options : CheckOptions)
| CheckEnd (site : Site.t) (reply : CheckReply)
| Sleep (ms : Z)
| Notify (changed : list ChangedSite) (failed : list FailedSite)
| UnhandledRejection (e : JsError).

Inductive Level := Info | Warn | Error.

Record LogLine := mkLog { level : Level; text : string }.

(** The collaborators of the scheduler, none of which lives in this module:
    [checkSite] of [./run], [sendAggregatedNotification] of [./notifier],
    what [cron.schedule] of node-cron throws for an expression or a
    [timezone] option it rejects ([cronError expression timezone], [None]
    when it accepts both), the failures of the store ([dbFault n] is what the
    n-th prisma call rejects with, if it does) and the ids it generates
    ([newId n] for a row created by the n-th call). *)
Record Collaborators (Ext : Type) := mkCollaborators {
  checkSite : Site.t -> CheckOptions -> Ext -> CheckReply * Ext;
  sendAggregatedNotification :
    list ChangedSite -> list FailedSite -> Ext -> option JsError * Ext;
  cronError : JsString -> string -> option JsError;
  dbFault : nat -> option JsError;
  newId : nat -> string
}.

Arguments checkSite {Ext}.
Arguments sendAggregatedNotification {Ext}.
Arguments cronError {Ext}.
Arguments dbFault {Ext}.
Arguments newId {Ext}.

(** ** The world *)

Record World (Ext : Type) := mkWorld {
  sites : list Site.t;                  (* prisma.site *)
  categories : list Category.t;         (* prisma.category *)
  configs : list ScheduleConfig.t;      (* prisma.scheduleConfig *)
  dbCalls : nat;                        (* prisma calls made so far *)
  tasks : list Task;                    (* every task cron.schedule created *)
  jobs : gmap string nat;               (* const jobs = new Map() *)
  categoryJobs : gmap string nat;       (* const categoryJobs = new Map() *)
  globalScheduleJob : option nat;       (* let globalScheduleJob = null *)
  clock : Z;                            (* milliseconds *)
  ext : Ext;                            (* state behind the collaborators *)
  trace : list Event;
  log : list LogLine
}.

Arguments mkWorld {Ext}.
Arguments sites {Ext}.
Arguments categories {Ext}.
Arguments configs {Ext}.
Arguments dbCalls {Ext}.
Arguments tasks {Ext}.
Arguments jobs {Ext}.
Arguments categoryJobs {Ext}.
Arguments globalScheduleJob {Ext}.
Arguments clock {Ext}.
Arguments ext {Ext}.
Arguments trace {Ext}.
Arguments log {Ext}.

Section Setters.
Context {Ext : Type}.
Implicit Type w : World Ext.

Definition setConfigs (v : list ScheduleConfig.t) w :=
    mkWorld (sites w) (categories w) v (dbCalls w) (tasks w) (jobs w)
      (categoryJobs w) (globalScheduleJob w) (clock w) (ext w) (trace w) (log w).
Definition setDbCalls (v : nat) w :=
    mkWorld (sites w) (categories w) (configs w) v (tasks w) (jobs w)
      (categoryJobs w) (globalScheduleJob w) (clock w) (ext w) (trace w) (log w).
Definition setTasks (v : list Task) w :=
    mkWorld (sites w) (categories w) (configs w) (dbCalls w) v (jobs w)
      (categoryJobs w) (globalScheduleJob w) (clock w) (ext w) (trace w) (log w).
Definition setJobs (v : gmap string nat) w :=
    mkWorld (sites w) (categories w) (configs w) (dbCalls w) (tasks w) v
      (categoryJobs w) (globalScheduleJob w) (clock w) (ext w) (trace w) (log w).
Definition setCategoryJobs (v : gmap string nat) w :=
    mkWorld (sites w) (categories w) (configs w) (dbCalls w) (tasks w) (jobs w)
      v (globalScheduleJob w) (clock w) (ext w) (trace w) (log w).
Definition setGlobalScheduleJob (v : option nat) w :=
    mkWorld (sites w) (categories w) (configs w) (dbCalls w) (tasks w) (jobs w)
      (categoryJobs w) v (clock w) (ext w) (trace w) (log w).
Definition setClock (v : Z) w :=
    mkWorld (sites w) (categories w) (configs w) (dbCalls w) (tasks w) (jobs w)
      (categoryJobs w) (globalScheduleJob w) v (ext w) (trace w) (log w).
Definition setExt (v : Ext) w :=
    mkWorld (sites w) (categories w) (configs w) (dbCalls w) (tasks w) (jobs w)
      (categoryJobs w) (globalScheduleJob w) (clock w) v (trace w) (log w).
Definition setTrace (v : list Event) w :=
    mkWorld (sites w) (categories w) (configs w) (dbCalls w) (tasks w) (jobs w)
      (categoryJobs w) (globalScheduleJob w) (clock w) (ext w) v (log w).
Definition setLog (v : list LogLine) w :=
    mkWorld (sites w) (categories w) (configs w) (dbCalls w) (tasks w) (jobs w)
      (categoryJobs w) (globalScheduleJob w) (clock w) (ext w) (trace w) v.
End Setters.

(** ** Async functions: state and exceptions *)

Inductive Completion (A : Type) :=
| Normal (a : A)
| Thrown (e : JsError).

Arguments Normal {A}.
Arguments Thrown {A}.

Definition Async (Ext A : Type) : Type := World Ext -> Completion A * World Ext.

Definition ret {Ext A} (a : A) : Async Ext A := fun w => (Normal a, w).

Definition bind {Ext A B} (m : Async Ext A) (k : A -> Async Ext B) : Async Ext B :=
  fun w =>
    match m w with
    | (Normal a, w1) => k a w1
    | (Thrown e, w1) => (Thrown e, w1)
    end.

(** [try { body } catch (e) { handler }] *)
Definition tryCatch {Ext A} (body : Async Ext A) (handler : JsError -> Async Ext A)
  : Async Ext A :=
  fun w =>
    match body w with
    | (Normal a, w1) => (Normal a, w1)
    | (Thrown e, w1) => handler e w1
    end.

Definition gets {Ext A} (f : World Ext -> A) : Async Ext A := fun w => (Normal (f w), w).

Definition modify {Ext} (f : World Ext -> World Ext) : Async Ext unit :=
  fun w => (Normal tt, f w).

Declare Scope async_scope.
Delimit Scope async_scope with async.
Notation "'let*' x ':=' m 'in' k" := (bind m (fun x => k))
  (at level 10, x name, m at level 100, k at level 200) : async_scope.
Notation "'do' m 'then' k" := (bind m (fun _ => k))
  (at level 10, m at level 100, k at level 200) : async_scope.

(** ** Primitives: logging, the store, timers, node-cron, collaborators *)

Section Scheduler.
Context {Ext : Type} (env : Collaborators Ext).
Local Open Scope async_scope.

(** [fastify?.log?.info(payload, message)] and its siblings: the level and the
    message are kept, the structured payload is not. Console output is not
    tracked. *)
Definition logLine (l : Level) (msg : string) : Async Ext unit :=
  modify (fun w => setLog (log w ++ [mkLog l msg]) w).

(** An effect on a collaborator or a timer, appended to the trace. *)
Definition emit (e : Event) : Async Ext unit :=
  modify (fun w => setTrace (trace w ++ [e]) w).

(** Every prisma call may be rejected by the store; otherwise the query runs
    on the tables. *)
Definition prisma {A} (query : World Ext -> Completion A * World Ext)
  : Async Ext A :=
  fun w =>
    let w1 := setDbCalls (S (dbCalls w)) w in
    match dbFault env (dbCalls w) with
    | Some e => (Thrown e, w1)
    | None => query w1
    end.

(** The [where: { id }] filters, and the relation from a site to its
    category. *)
Definition configHasId (i : string) (c : ScheduleConfig.t) : bool :=
  String.eqb (ScheduleConfig.id c) i.

Definition siteHasId (i : string) (s : Site.t) : bool :=
  String.eqb (Site.id s) i.

Definition categoryHasId (i : string) (c : Category.t) : bool :=
  String.eqb (Category.id c) i.

Definition inCategory (i : string) (s : Site.t) : bool :=
  match Site.categoryId s with
  | Some j => String.eqb j i
  | None => false
  end.

(** What [update] rejects with when no row has the id. *)
Definition recordNotFound : JsError :=
  mkError "Record to update not found." "PrismaClientKnownRequestError".

(** [prisma.scheduleConfig.findFirst()] *)
Definition scheduleConfig_findFirst : Async Ext (option ScheduleConfig.t) :=
  prisma (fun w => (Normal (head (configs w)), w)).

(** [prisma.scheduleConfig.findUnique({ where: { id } })] *)
Definition scheduleConfig_findUnique (i : string)
  : Async Ext (option ScheduleConfig.t) :=
  prisma (fun w => (Normal (List.find (configHasId i) (configs w)), w)).

(** [prisma.scheduleConfig.update({ where: { id }, data })] *)
Definition scheduleConfig_update (i : string)
    (data : ScheduleConfig.t -> ScheduleConfig.t) : Async Ext ScheduleConfig.t :=
  prisma (fun w =>
    match List.find (configHasId i) (configs w) with
    | None => (Thrown recordNotFound, w)
    | Some c =>
        (Normal (data c),
         setConfigs
           (map (fun c' => if configHasId i c' then data c' else c') (configs w))
           w)
    end).

(** [prisma.site.findMany()] *)
Definition site_findMany : Async Ext (list Site.t) :=
  prisma (fun w => (Normal (sites w), w)).

(** [prisma.site.findUnique({ where: { id } })] *)
Definition site_findUnique (i : string) : Async Ext (option Site.t) :=
  prisma (fun w => (Normal (List.find (siteHasId i) (sites w)), w)).

(** [prisma.category.findUnique({ where: { id }, include: { sites: true } })]:
    the category and the sites that reference it. *)
Definition category_findUnique (i : string)
  : Async Ext (option (Category.t * list Site.t)) :=
  prisma (fun w =>
    (Normal
       (match List.find (categoryHasId i) (categories w) with
        | Some c => Some (c, List.filter (inCategory i) (sites w))
        | None => None
        end), w)).

(** [prisma.category.findMany({ include: { sites: true } })] *)
Definition category_findMany : Async Ext (list Category.t) :=
  prisma (fun w => (Normal (categories w), w)).

(** The delay a timer really waits for a requested number of milliseconds. *)
Definition timerDelay (ms : Z) : Z :=
  if (ms <? 1) || (2147483647 <? ms) then 1 else ms.

(** [await new Promise(resolve => setTimeout(resolve, ms))] *)
Definition sleep (ms : Z) : Async Ext unit :=
  do emit (Sleep ms) then
  modify (fun w => setClock (clock w + timerDelay ms) w).

(** [await checkSite(site, fastify, options)]: the call begins, the
    collaborator runs on its own state, and the call ends by resolving or
    rejecting. *)
Definition callCheckSite (site : Site.t) (options : CheckOptions)
  : Async Ext CheckResult :=
  fun w =>
    let w1 := setTrace (trace w ++ [CheckBegin site options]) w in
    let '(reply, x) := checkSite env site options (ext w1) in
    let w2 := setTrace (trace w1 ++ [CheckEnd site reply]) (setExt x w1) in
    match reply with
    | Resolved r => (Normal r, w2)
    | Rejected e => (Thrown e, w2)
    end.

(** [await sendAggregatedNotification(sitesWithChanges, fastify, failedSites)] *)
Definition callNotifier (changed : list ChangedSite) (failed : list FailedSite)
  : Async Ext unit :=
  fun w =>
    let w1 := setTrace (trace w ++ [Notify changed failed]) w in
    let '(r, x) := sendAggregatedNotification env changed failed (ext w1) in
    match r with
    | None => (Normal tt, setExt x w1)
    | Some e => (Thrown e, setExt x w1)
    end.

(** [cron.schedule(expression, callback, { timezone, scheduled: true })]:
    throws on an expression or a time zone it rejects, and then creates no
    task; otherwise creates a started task and returns its handle. *)
Definition cron_schedule (expression : JsString) (callback : Callback)
    (timezone : string) : Async Ext nat :=
  fun w =>
    match cronError env expression timezone with
    | None =>
        (Normal (length (tasks w)),
         setTasks (tasks w ++ [mkTask expression timezone callback true]) w)
    | Some e => (Thrown e, w)
    end.

(** [job.stop()] and [job.start()] *)
Definition job_stop (job : nat) : Async Ext unit :=
  modify (fun w => setTasks (alter stopTask job (tasks w)) w).

Definition job_start (job : nat) : Async Ext unit :=
  modify (fun w => setTasks (alter startTask job (tasks w)) w).

(** [for (const x of xs) { await body(x) }] *)
Fixpoint forOf {A} (xs : list A) (body : A -> Async Ext unit) : Async Ext unit :=
  match xs with
  | [] => ret tt
  | x :: xs' => do body x then forOf xs' body
  end.

(** ** scheduler.js *)

Definition DEFAULT_CRON : JsString := lit "0 9 * * *".

(** [globalConfig?.enabled && globalConfig.overrideIndividual] *)

Definition overrides (globalConfig : option ScheduleConfig.t) : bool :=
  match globalConfig with
  | Some c => ScheduleConfig.enabled c && ScheduleConfig.overrideIndividual c
  | None => false
  end.

(** [scheduleSite] up to its first [await]: the existing job of the site is
    stopped and unregistered. A call runs this part at once, in the turn of
    its caller. *)
Definition scheduleSite_untilAwait (site : Site.t) : Async Ext unit :=
  let key := Site.id site in
  let* existing := gets (fun w => jobs w !! key) in
  match existing with
  | Some job =>
      do job_stop job then
      modify (fun w => setJobs (delete key (jobs w)) w)
  | None => ret tt
  end.

(** [scheduleSite] from its first [await] on: the call resumes here once the
    store has answered the read of the configuration, which is the only
    [await] of the function. *)
Definition scheduleSite_afterAwait (site : Site.t) : Async Ext unit :=
  let key := Site.id site in
  let* globalConfig := scheduleConfig_findFirst in
  if overrides globalConfig then
    logLine Info "Global override enabled, site will be handled by global task"
  else if noSchedule (Site.scheduleCron site) then
    logLine Info "Site has no custom schedule, will be handled by global task"
  else
    let cronExp := default [] (Site.scheduleCron site) in
    let* job := cron_schedule cronExp (SiteCallback site)
                  (orDefault (Site.timezone site) "UTC") in
    do job_start job then
    do modify (fun w => setJobs (<[key := job]> (jobs w)) w) then
    logLine Info "Individual schedule task created and started".

(** [await scheduleSite(site, fastify)]: a caller that awaits the call sees
    both parts run before it goes on. *)
Definition scheduleSite (site : Site.t) : Async Ext unit :=
  do scheduleSite_untilAwait site then
  scheduleSite_afterAwait site.

(** The callback of a site job. *)
Definition siteTick (site : Site.t) : Async Ext unit :=
  tryCatch
    (let* latestSite := site_findUnique (Site.id site) in
     match latestSite with
     | None => logLine Warn "Site not found, skipping scheduled check"
     | Some latestSite =>
         let* _result := callCheckSite latestSite (mkOptions false false) in
         logLine Info "Individual scheduled check done"
     end)
    (fun e => logLine Warn "Individual scheduled check failed").

(** The entries are visited in the order of the map's listing, not in
    insertion order; every entry is visited either way. *)
Definition stopAllIndividualJobs : Async Ext nat :=
  let* count := gets (fun w => size (jobs w)) in
  let* entries := gets (fun w => map_to_list (jobs w)) in
  do forOf entries (fun entry =>
       do job_stop (snd entry) then
       modify (fun w => setJobs (delete (fst entry) (jobs w)) w)) then
  do logLine Info "Stopped all individual site jobs" then
  ret count.

(** [onSiteUpdated] calls the async [scheduleSite] and drops its promise: the
    call runs up to its first [await] and [onSiteUpdated] returns, normally
    in every case. *)
Definition onSiteUpdated (site : Site.t) : Async Ext unit :=
  fun w => (Normal tt, snd (scheduleSite_untilAwait site w)).

(** The call that [onSiteUpdated] left behind resumes in a later turn, once
    the store has answered; nothing awaits its promise, so a rejection has no
    handler. *)
Definition settleSiteUpdate (site : Site.t) (w : World Ext) : World Ext :=
  match scheduleSite_afterAwait site w with
  | (Normal _, w1) => w1
  | (Thrown e, w1) => setTrace (trace w1 ++ [UnhandledRejection e]) w1
  end.

Definition checkFailedText (e : JsError) : string :=
  match message e with
  | "" => asString e
  | m => m
  end.

(** The [try]/[catch] statement inside the loop of the category callback. *)
Definition categoryCheck (site : Site.t) : Async Ext unit :=
  tryCatch
    (let* _result := callCheckSite site (mkOptions false false) in
     logLine Info "Site checked in category task")
    (fun e => logLine Error "Site check failed in category task").

(** The loop of the category callback; [rest] is what remains from index [i]
    on, so [sitesToCheck[i]] is its head. *)
Fixpoint categoryLoop (sitesToCheck : list Site.t) (i : nat) (rest : list Site.t)
  : Async Ext unit :=
  match rest with
  | [] => ret tt
  | site :: rest' =>
      do categoryCheck site then
      do (if Z.of_nat i <? Z.of_nat (length sitesToCheck) - 1
          then sleep 5000 else ret tt) then
      categoryLoop sitesToCheck (S i) rest'
  end.

(** The callback of a category job. *)
Definition categoryTick (category : Category.t) : Async Ext unit :=
  tryCatch
    (let* latestCategory := category_findUnique (Category.id category) in
     match latestCategory with
     | None => logLine Warn "Category not found, skipping scheduled check"
     | Some (_, members) =>
         let sitesToCheck := List.filter (fun site => negb (Site.pinned site)) members in
         if (length sitesToCheck =? 0)%nat then
           logLine Info "No sites to check in category"
         else
           do logLine Info "Category scheduled check started" then
           do categoryLoop sitesToCheck 0 sitesToCheck then
           logLine Info "Category scheduled check completed"
     end)
    (fun e => logLine Error "Category scheduled check failed").

Definition scheduleCategory (category : Category.t) : Async Ext unit :=
  let key := String.append "cat_" (Category.id category) in
  do (let* existing := gets (fun w => categoryJobs w !! key) in
      match existing with
      | Some job =>
          do job_stop job then
          modify (fun w => setCategoryJobs (delete key (categoryJobs w)) w)
      | None => ret tt
      end) then
  if noSchedule (Category.scheduleCron category) then
    logLine Info "Category has no custom schedule"
  else
    let cronExp := default [] (Category.scheduleCron category) in
    let* job := cron_schedule cronExp (CategoryCallback category)
                  (orDefault (Category.timezone category) "UTC") in
    do job_start job then
    do modify (fun w => setCategoryJobs (<[key := job]> (categoryJobs w)) w) then
    logLine Info "Category schedule task created and started".

Definition scheduleAllCategories : Async Ext unit :=
  let* categories := category_findMany in
  forOf categories scheduleCategory.

Definition scheduleAll : Async Ext unit :=
  let* sites := site_findMany in
  do forOf sites scheduleSite then
  scheduleAllCategories.

(** [reasons.join(' + ')] *)
Definition joinReasons (reasons : list string) : string :=
  match reasons with
  | [] => ""
  | r :: rs => fold_left (fun acc x => String.append acc (String.append " + " x)) rs r
  end.

Definition isTruthy {A} (o : option A) : bool :=
  match o with Some _ => true | None => false end.

(** The [try]/[catch] statement inside the loop of the global callback, for
    the site at index [i]. The two arrays are passed along. *)
Definition globalCheck (sites : list Site.t) (i : nat) (site : Site.t)
    (sitesWithChanges : list ChangedSite) (failedSites : list FailedSite)
  : Async Ext (list ChangedSite * list FailedSite) :=
  tryCatch
    (do logLine Info
          (String.append "Checking site "
             (String.append (numToString (Z.of_nat i + 1))
                (String.append "/" (numToString (Z.of_nat (length sites)))))) then
     let* result := callCheckSite site (mkOptions true false) in
     let* pushed :=
       if hasChanges result || isTruthy (checkInResult result) then
         let reasons :=
           (if hasChanges result then ["模型变更"] else [])
           ++ (if isTruthy (checkInResult result) then ["签到结果"] else []) in
         do logLine Info
              (String.append "✅ 站点已添加到通知列表: " (joinReasons reasons)) then
         ret (sitesWithChanges ++
                [mkChanged (siteName result)
                   (if hasChanges result then diff result else None)
                   (checkInResult result)])
       else
         do logLine Info "⭕ 站点无变更且无签到，跳过通知" then
         ret sitesWithChanges in
     do logLine Info "Site check completed" then
     ret (pushed, failedSites))
    (fun e =>
       do logLine Error "Site check failed" then
       ret (sitesWithChanges,
            failedSites ++ [mkFailed (Site.name site) (checkFailedText e)])).

(** The per-site loop of the global callback. [config] is the argument of
    [scheduleGlobalTask] that the callback closes over; [rest] is what remains
    of [sites] from index [i] on, so [sites[i]] is its head. *)
Fixpoint globalLoop (config : ScheduleConfig.t) (sites : list Site.t) (i : nat)
    (rest : list Site.t) (sitesWithChanges : list ChangedSite)
    (failedSites : list FailedSite)
  : Async Ext (list ChangedSite * list FailedSite) :=
  match rest with
  | [] => ret (sitesWithChanges, failedSites)
  | site :: rest' =>
      let* arrays := globalCheck sites i site sitesWithChanges failedSites in
      do (if Z.of_nat i <? Z.of_nat (length sites) - 1
          then sleep (ScheduleConfig.interval config * 1000) else ret tt) then
      globalLoop config sites (S i) rest' (fst arrays) (snd arrays)
  end.

(** The sites a global firing checks. *)
Definition globalCandidates (latestConfig : ScheduleConfig.t) (allSites : list Site.t)
  : list Site.t :=
  if ScheduleConfig.overrideIndividual latestConfig
  then allSites
  else List.filter (fun s => noSchedule (Site.scheduleCron s)) allSites.

(** Where the global callback leaves: the early return of a disabled or
    missing configuration, the end of a run (with or without sites to check),
    or the outer [catch]. *)
Inductive Firing := Skipped | Completed | Aborted.

Definition touchLastRun (latestConfig : ScheduleConfig.t) : Async Ext unit :=
  let* now := gets clock in
  let* _updated := scheduleConfig_update (ScheduleConfig.id latestConfig)
                     (ScheduleConfig.withLastRun now) in
  ret tt.

(** The notification block that follows the loop of the global callback. *)
Definition aggregateNotification (sitesWithChanges : list ChangedSite)
    (failedSites : list FailedSite) : Async Ext unit :=
  if (0 <? length sitesWithChanges)%nat || (0 <? length failedSites)%nat then
    tryCatch
      (do logLine Info "Sending aggregated notification" then
       callNotifier sitesWithChanges failedSites)
      (fun emailError => logLine Error "Aggregated notification failed")
  else
    logLine Info "No changes or failures detected, skipping notification".

(** The [try] block of the global callback. *)
Definition globalTickBody (config : ScheduleConfig.t) : Async Ext Firing :=
  let configId := ScheduleConfig.id config in
  do logLine Info "Global schedule task triggered" then
  let* latestConfig := scheduleConfig_findUnique configId in
  match latestConfig with
  | None =>
      do logLine Info "Global schedule task is disabled, skipping" then
      ret Skipped
  | Some latestConfig =>
      if negb (ScheduleConfig.enabled latestConfig) then
        do logLine Info "Global schedule task is disabled, skipping" then
        ret Skipped
      else
        let* allSites := site_findMany in
        let sites := globalCandidates latestConfig allSites in
        do logLine Info "Global task: filtering sites" then
        if (length sites =? 0)%nat then
          do logLine Info "No sites to check (all have custom schedules)" then
          do touchLastRun latestConfig then
          ret Completed
        else
          let* arrays := globalLoop config sites 0 sites [] [] in
          let sitesWithChanges := fst arrays in
          let failedSites := snd arrays in
          do aggregateNotification sitesWithChanges failedSites then
          do touchLastRun latestConfig then
          do logLine Info "Global schedule task completed" then
          ret Completed
  end.

(** The callback of the global job: nothing escapes its [try]/[catch]. *)
Definition globalTick (config : ScheduleConfig.t) (w : World Ext)
  : Firing * World Ext :=
  match globalTickBody config w with
  | (Normal firing, w1) => (firing, w1)
  | (Thrown e, w1) =>
      (Aborted, snd (logLine Error "Global schedule task error" w1))
  end.

(** [`${minute} ${hour} * * *`] *)
Definition dailyCron (minute hour : Z) : JsString :=
  lit (String.append (numToString minute)
         (String.append " " (String.append (numToString hour) " * * *"))).

Definition rescheduleAllSites : Async Ext unit :=
  let* allSites := site_findMany in
  forOf allSites scheduleSite.

(** The first statement of [scheduleGlobalTask]: stop the existing global
    job, if there is one, and forget it. *)
Definition stopGlobalJob : Async Ext unit :=
  let* existing := gets globalScheduleJob in
  match existing with
  | Some job =>
      do job_stop job then
      modify (setGlobalScheduleJob None)
  | None => ret tt
  end.

(** The last part of [scheduleGlobalTask]: build the daily expression and
    install the global job. *)
Definition startGlobalJob (config : ScheduleConfig.t) : Async Ext unit :=
  let timezone := default "Asia/Shanghai" (ScheduleConfig.timezone config) in
  let cronExp :=
    dailyCron (ScheduleConfig.minute config) (ScheduleConfig.hour config) in
  do logLine Info "Starting global schedule task" then
  let* job := cron_schedule cronExp (GlobalCallback config) timezone in
  do modify (setGlobalScheduleJob (Some job)) then
  do job_start job then
  logLine Info "Global schedule task created and started".

Definition scheduleGlobalTask (config : option ScheduleConfig.t) : Async Ext unit :=
  do stopGlobalJob then
  match config with
  | None =>
      do logLine Info "Global schedule task disabled, rescheduling individual site jobs" then
      rescheduleAllSites
  | Some config =>
      if negb (ScheduleConfig.enabled config) then
        do logLine Info "Global schedule task disabled, rescheduling individual site jobs" then
        rescheduleAllSites
      else
        do (if ScheduleConfig.overrideIndividual config then
              do logLine Info "Override mode enabled, stopping all individual site jobs" then
              let* _count := stopAllIndividualJobs in
              ret tt
            else
              do logLine Info "Non-override mode, rescheduling individual site jobs" then
              rescheduleAllSites) then
        startGlobalJob config
  end.

(** ** The schedule-configuration route of routes.js *)

Record ScheduleConfigBody := mkBody {
  body_enabled : bool;
  body_hour : Z;
  body_minute : Z;
  body_interval : Z;
  body_overrideIndividual : option bool
}.

Inductive Reply :=
| ReplyOk (config : ScheduleConfig.t)
| ReplyError (status : Z) (error : string).

(** [updateData] written over a row; [updatedAt] is not modelled. *)
Definition applyBody (body : ScheduleConfigBody) (c : ScheduleConfig.t)
  : ScheduleConfig.t :=
  ScheduleConfig.mk (ScheduleConfig.id c) (body_enabled body) (body_hour body)
    (body_minute body) (ScheduleConfig.timezone c) (body_interval body)
    (match body_overrideIndividual body with Some true => true | _ => false end)
    (ScheduleConfig.lastRun c).

(** [prisma.scheduleConfig.create({ data })] *)
Definition scheduleConfig_create (body : ScheduleConfigBody)
  : Async Ext ScheduleConfig.t :=
  fun w =>
    prisma (fun w1 =>
      let row :=
        applyBody body
          (ScheduleConfig.mk (newId env (dbCalls w)) false 0 0
             (Some "Asia/Shanghai") 0 false None) in
      (Normal row, setConfigs (configs w1 ++ [row]) w1)) w.

Definition updateScheduleConfigHandler (body : ScheduleConfigBody) (w : World Ext)
  : Reply * World Ext :=
  let attempt : Async Ext Reply :=
    if (body_hour body <? 0) || (23 <? body_hour body)
       || (body_minute body <? 0) || (59 <? body_minute body)
       || (body_interval body <? 5) || (300 <? body_interval body)
    then
      ret (ReplyError 400 "参数无效：hour(0-23), minute(0-59), interval(5-300秒)")
    else
      let* existing := scheduleConfig_findFirst in
      let* config :=
        match existing with
        | Some c => scheduleConfig_update (ScheduleConfig.id c) (applyBody body)
        | None => scheduleConfig_create body
        end in
      do scheduleGlobalTask (Some config) then
      ret (ReplyOk config) in
  match attempt w with
  | (Normal reply, w1) => (reply, w1)
  | (Thrown error, w1) =>
      (ReplyError 500 "更新定时配置失败", snd (logLine Error (message error) w1))
  end.

(** What node-cron runs when a task is due: the callback of a started task. *)
Definition runCallback (callback : Callback) (w : World Ext) : World Ext :=
  match callback with
  | SiteCallback site => snd (siteTick site w)
  | CategoryCallback category => snd (categoryTick category w)
  | GlobalCallback config => snd (globalTick config w)
  end.

Definition fire (job : nat) (w : World Ext) : World Ext :=
  match tasks w !! job with
  | Some t => if task_running t then runCallback (task_callback t) w else w
  | None => w
  end.

End Scheduler.

(** * Properties of the scheduler *)

Section Properties.
Context {Ext : Type} (env : Collaborators Ext).

(** ** Vocabulary of the statements

    Nothing in this part belongs to the program: these definitions describe
    what a paced batch is expected to do, read traces, and say which jobs are
    live. The theorems compare the program with them. *)

(** *** The expected shape of a paced batch *)

(** The collaborator's answers when it is asked about each item in turn. *)
Fixpoint checkReplies (options : CheckOptions) (items : list Site.t) (x : Ext)
  : list (Site.t * CheckReply) :=
  match items with
  | [] => []
  | item :: rest =>
      let '(reply, x') := checkSite env item options x in
      (item, reply) :: checkReplies options rest x'
  end.

(** The collaborator's state after those calls. *)
Fixpoint extAfterChecks (options : CheckOptions) (items : list Site.t) (x : Ext)
  : Ext :=
  match items with
  | [] => x
  | item :: rest => extAfterChecks options rest (snd (checkSite env item options x))
  end.

(** One call at a time, each ended before the next begins, in input order,
    with a pause of [delay] after every item but the last. *)
Fixpoint pacedTrace (delay : Z) (options : CheckOptions) (items : list Site.t)
    (x : Ext) : list Event :=
  match items with
  | [] => []
  | item :: rest =>
      let '(reply, x') := checkSite env item options x in
      CheckBegin item options :: CheckEnd item reply ::
        match rest with
        | [] => []
        | _ :: _ => Sleep delay :: pacedTrace delay options rest x'
        end
  end.

(** *** Reading a trace *)

(** The sites on which a call of the checker began, in order. *)
Definition begunSites (evs : list Event) : list Site.t :=
  omap (fun ev => match ev with CheckBegin s _ => Some s | _ => None end) evs.

(** The calls of the checker that ended, with their replies. *)
Definition checkEnds (evs : list Event) : list (Site.t * CheckReply) :=
  omap (fun ev => match ev with CheckEnd s r => Some (s, r) | _ => None end) evs.

(** The pauses, with the milliseconds asked for. *)
Definition sleeps (evs : list Event) : list Z :=
  omap (fun ev => match ev with Sleep ms => Some ms | _ => None end) evs.

(** The calls of the aggregated notifier, with their two arguments. *)
Definition notifications (evs : list Event)
  : list (list ChangedSite * list FailedSite) :=
  omap (fun ev => match ev with Notify c f => Some (c, f) | _ => None end) evs.

(** A resolved check is worth notifying when it reports a model diff or a
    check-in result. *)
Definition notifiable (r : CheckResult) : bool :=
  hasChanges r || isTruthy (checkInResult r).

(** The changed-sites payload expected for a list of replies: one entry per
    notifiable resolved check. *)
Definition changedOf (replies : list (Site.t * CheckReply)) : list ChangedSite :=
  omap (fun sr =>
          match snd sr with
          | Resolved r =>
              if notifiable r
              then Some (mkChanged (siteName r)
                           (if hasChanges r then diff r else None)
                           (checkInResult r))
              else None
          | Rejected _ => None
          end) replies.

(** The failed-sites payload expected for a list of replies: one entry per
    rejected check, with the name of the site and the text of the error. *)
Definition failedOf (replies : list (Site.t * CheckReply)) : list FailedSite :=
  omap (fun sr =>
          match snd sr with
          | Resolved _ => None
          | Rejected e => Some (mkFailed (Site.name (fst sr)) (checkFailedText e))
          end) replies.

(** Two worlds that differ at most in the clock, the collaborators' state,
    the trace and the log. *)
Definition sameTablesAndJobs (w w' : World Ext) : Prop :=
  sites w' = sites w /\ categories w' = categories w /\ configs w' = configs w
  /\ dbCalls w' = dbCalls w /\ tasks w' = tasks w /\ jobs w' = jobs w
  /\ categoryJobs w' = categoryJobs w
  /\ globalScheduleJob w' = globalScheduleJob w.

(** The options of the global batch, and those of site and category jobs. *)
Definition globalOptions : CheckOptions := mkOptions true false.

Definition individualOptions : CheckOptions := mkOptions false false.

(** The log lines a category batch writes for its checks. *)
Definition categoryLogOf (replies : list (Site.t * CheckReply)) : list LogLine :=
  map (fun sr =>
         match snd sr with
         | Resolved _ => mkLog Info "Site checked in category task"
         | Rejected _ => mkLog Error "Site check failed in category task"
         end) replies.

(** No call begins, and no pause starts, while a call is in flight; [busy]
    tells whether one is. *)
Fixpoint serial (busy : bool) (evs : list Event) : bool :=
  match evs with
  | [] => negb busy
  | CheckBegin _ _ :: evs' => negb busy && serial true evs'
  | CheckEnd _ _ :: evs' => busy && serial false evs'
  | Sleep _ :: evs' => negb busy && serial busy evs'
  | _ :: evs' => serial busy evs'
  end.

(** The notifier is called once when there is something to report. *)
Definition notifyEvents (replies : list (Site.t * CheckReply)) : list Event :=
  match changedOf replies, failedOf replies with
  | [], [] => []
  | changed, failed => [Notify changed failed]
  end.

(** The configuration table once [lastRun] of row [i] is set to [now]. *)
Definition stampLastRun (i : string) (now : Z) (rows : list ScheduleConfig.t)
  : list ScheduleConfig.t :=
  map (fun c => if configHasId i c then ScheduleConfig.withLastRun now c else c) rows.

(** What a firing that gets through its loop adds to the trace. *)
Definition runEvents (config latest : ScheduleConfig.t) (w : World Ext) : list Event :=
  pacedTrace (ScheduleConfig.interval config * 1000) globalOptions
    (globalCandidates latest (sites w)) (ext w)
  ++ notifyEvents (checkReplies globalOptions (globalCandidates latest (sites w)) (ext w)).

(** The results of the checks that resolved. *)
Definition resolvedOf (replies : list (Site.t * CheckReply)) : list CheckResult :=
  omap (fun sr => match snd sr with Resolved r => Some r | Rejected _ => None end)
    replies.

(** The entry pushed on [sitesWithChanges] for a result. *)
Definition changedEntry (r : CheckResult) : ChangedSite :=
  mkChanged (siteName r) (if hasChanges r then diff r else None) (checkInResult r).

(** The members a category firing checks, given the tables. *)
Definition categoryCandidates (category : Category.t) (w : World Ext) : list Site.t :=
  List.filter (fun site => negb (Site.pinned site))
    (List.filter (inCategory (Category.id category)) (sites w)).

(** What a category firing adds to the trace. *)
Definition categoryDelta (category : Category.t) (w : World Ext) : list Event :=
  match dbFault env (dbCalls w) with
  | Some _ => []
  | None =>
      match List.find (categoryHasId (Category.id category)) (categories w) with
      | None => []
      | Some _ =>
          pacedTrace 5000 individualOptions (categoryCandidates category w) (ext w)
      end
  end.

(** *** Live jobs and exact registries *)

Definition isSiteCallbackOf (k : string) (cb : Callback) : Prop :=
  exists s, cb = SiteCallback s /\ Site.id s = k.

Definition isGlobalCallback (cb : Callback) : Prop :=
  exists c, cb = GlobalCallback c.

(** Task [h] of the runtime is started and its callback satisfies [P]. *)
Definition live (P : Callback -> Prop) (ts : list Task) (h : nat) : Prop :=
  exists t, ts !! h = Some t /\ task_running t = true /\ P (task_callback t).

(** [h] is a live job of the site with id [k]. *)
Definition liveSiteJob (w : World Ext) (k : string) (h : nat) : Prop :=
  live (isSiteCallbackOf k) (tasks w) h.

(** [h] is a live global job. *)
Definition liveGlobalJob (w : World Ext) (h : nat) : Prop :=
  live isGlobalCallback (tasks w) h.

(** The registries hold exactly the live jobs: [jobs] maps a site id to a
    handle exactly when that handle is a live job of that site, and
    [globalScheduleJob] is a handle exactly when it is a live global job. *)
Definition siteInv (ts : list Task) (js : gmap string nat) : Prop :=
  forall k h, js !! k = Some h <-> live (isSiteCallbackOf k) ts h.

Definition globalInv (ts : list Task) (g : option nat) : Prop :=
  forall h, g = Some h <-> live isGlobalCallback ts h.

Definition registryInv (w : World Ext) : Prop :=
  siteInv (tasks w) (jobs w) /\ globalInv (tasks w) (globalScheduleJob w).

(** The tasks and the registry once the existing job of [key] is stopped and
    deleted. *)
Definition afterStop (key : string) (w : World Ext) : list Task * gmap string nat :=
  match jobs w !! key with
  | Some h => (alter stopTask h (tasks w), delete key (jobs w))
  | None => (tasks w, jobs w)
  end.

(** The task [scheduleSite] creates for a site. *)
Definition siteTask (site : Site.t) : Task :=
  mkTask (default [] (Site.scheduleCron site))
    (orDefault (Site.timezone site) "UTC") (SiteCallback site) true.

(** The two tests of [scheduleSite]: the global tier does not override, and
    the site has an own schedule. *)
Definition wantsJob (site : Site.t) (w : World Ext) : bool :=
  negb (overrides (head (configs w))) && negb (noSchedule (Site.scheduleCron site)).

(** The task [scheduleGlobalTask] creates for a configuration. *)
Definition globalTask (config : ScheduleConfig.t) : Task :=
  mkTask (dailyCron (ScheduleConfig.minute config) (ScheduleConfig.hour config))
    (default "Asia/Shanghai" (ScheduleConfig.timezone config))
    (GlobalCallback config) true.

(** ** The loops *)

Lemma sameTablesAndJobs_refl w : sameTablesAndJobs w w.
Proof. repeat split. Qed.

Lemma sameTablesAndJobs_trans w1 w2 w3 :
  sameTablesAndJobs w1 w2 -> sameTablesAndJobs w2 w3 -> sameTablesAndJobs w1 w3.
Proof.
  unfold sameTablesAndJobs. intros H1 H2.
  destruct H1 as (?&?&?&?&?&?&?&?), H2 as (?&?&?&?&?&?&?&?).
  repeat split; congruence.
Qed.

Lemma pacing_test (i : nat) (site : Site.t) (rest sites : list Site.t) :
  (i + length (site :: rest) = length sites)%nat ->
  (Z.of_nat i <? Z.of_nat (length sites) - 1) =
  match rest with [] => false | _ :: _ => true end.
Proof.
  intros H. destruct rest as [|s' rest']; simpl in H.
  - apply Z.ltb_ge. lia.
  - apply Z.ltb_lt. lia.
Qed.

Lemma changedOf_cons (sr : Site.t * CheckReply) (l : list (Site.t * CheckReply)) :
  changedOf (sr :: l) = changedOf [sr] ++ changedOf l.
Proof. unfold changedOf. simpl. destruct (snd sr) as [r|e]; [destruct (notifiable r)|]; reflexivity. Qed.

Lemma failedOf_cons (sr : Site.t * CheckReply) (l : list (Site.t * CheckReply)) :
  failedOf (sr :: l) = failedOf [sr] ++ failedOf l.
Proof. unfold failedOf. simpl. destruct (snd sr); reflexivity. Qed.

Lemma globalCheck_run (sites : list Site.t) (i : nat) (site : Site.t)
    (changed : list ChangedSite) (failed : list FailedSite) (w : World Ext) :
  exists w',
    globalCheck env sites i site changed failed w
    = (Normal (changed ++ changedOf [(site, fst (checkSite env site globalOptions (ext w)))],
               failed ++ failedOf [(site, fst (checkSite env site globalOptions (ext w)))]),
       w')
    /\ trace w' = trace w ++
         [CheckBegin site globalOptions;
          CheckEnd site (fst (checkSite env site globalOptions (ext w)))]
    /\ ext w' = snd (checkSite env site globalOptions (ext w))
    /\ clock w' = clock w
    /\ sameTablesAndJobs w w'.
Proof.
  unfold globalCheck, bind, tryCatch, callCheckSite, logLine, modify, ret.
  unfold changedOf, failedOf, notifiable, globalOptions. simpl.
  destruct (checkSite env site _ (ext w)) as [[r|e] x]; simpl.
  - destruct (hasChanges r || isTruthy (checkInResult r)); simpl;
      rewrite ?app_nil_r; eexists; (split; [reflexivity|]); simpl;
      rewrite <- ?app_assoc; repeat split.
  - rewrite ?app_nil_r; eexists; (split; [reflexivity|]); simpl;
      rewrite <- ?app_assoc; repeat split.
Qed.

Lemma globalLoop_run (config : ScheduleConfig.t) (sites : list Site.t) :
  forall (rest : list Site.t) (i : nat) (changed : list ChangedSite)
         (failed : list FailedSite) (w : World Ext),
    (i + length rest = length sites)%nat ->
    exists w',
      globalLoop env config sites i rest changed failed w
      = (Normal (changed ++ changedOf (checkReplies globalOptions rest (ext w)),
                 failed ++ failedOf (checkReplies globalOptions rest (ext w))), w')
      /\ trace w' = trace w ++
           pacedTrace (ScheduleConfig.interval config * 1000) globalOptions rest (ext w)
      /\ ext w' = extAfterChecks globalOptions rest (ext w)
      /\ sameTablesAndJobs w w'.
Proof.
  induction rest as [|site rest IH]; intros i changed failed w Hlen.
  - exists w. simpl. rewrite !app_nil_r. split; [reflexivity|].
    split; [reflexivity|]. split; [reflexivity|]. apply sameTablesAndJobs_refl.
  - cbn [globalLoop]. rewrite (pacing_test i site rest sites Hlen).
    assert (Hnext : (S i + length rest = length sites)%nat) by (simpl in Hlen; lia).
    destruct (globalCheck_run sites i site changed failed w)
      as (w1 & Hbody & Htr1 & Hext1 & Hclk1 & Hsame1).
    unfold bind at 1. rewrite Hbody.
    cbn [checkReplies pacedTrace extAfterChecks].
    destruct (checkSite env site globalOptions (ext w)) as [reply x] eqn:Hcheck.
    cbn [fst snd] in *.
    rewrite (changedOf_cons (site, reply) (checkReplies globalOptions rest x)),
      (failedOf_cons (site, reply) (checkReplies globalOptions rest x)), !app_assoc.
    destruct rest as [|site' rest'].
    + exists w1. simpl. rewrite !app_nil_r. subst x.
      repeat split; try apply Hsame1. exact Htr1.
    + set (w2 := snd (sleep (Ext:=Ext) (ScheduleConfig.interval config * 1000) w1)).
      destruct (IH (S i) (changed ++ changedOf [(site, reply)])
                  (failed ++ failedOf [(site, reply)]) w2 Hnext)
        as (w' & Hloop & Htr & Hext & Hsame).
      exists w'. unfold bind at 1.
      change (sleep (ScheduleConfig.interval config * 1000) w1) with (Normal tt, w2).
      cbv beta iota. rewrite Hloop.
      assert (Hext2 : ext w2 = x) by (subst w2; simpl; exact Hext1).
      assert (Htr2 : trace w2 = trace w1 ++ [Sleep (ScheduleConfig.interval config * 1000)])
        by reflexivity.
      rewrite Hext2 in *. split; [reflexivity|].
      split; [rewrite Htr, Htr2, Htr1, <- !app_assoc; reflexivity|].
      split; [exact Hext|].
      apply (sameTablesAndJobs_trans _ w1); [exact Hsame1|].
      apply (sameTablesAndJobs_trans _ w2); [repeat split | exact Hsame].
Qed.

Lemma categoryCheck_run (site : Site.t) (w : World Ext) :
  exists w',
    categoryCheck env site w = (Normal tt, w')
    /\ trace w' = trace w ++
         [CheckBegin site individualOptions;
          CheckEnd site (fst (checkSite env site individualOptions (ext w)))]
    /\ ext w' = snd (checkSite env site individualOptions (ext w))
    /\ log w' = log w ++
         [match fst (checkSite env site individualOptions (ext w)) with
          | Resolved _ => mkLog Info "Site checked in category task"
          | Rejected _ => mkLog Error "Site check failed in category task"
          end]
    /\ sameTablesAndJobs w w'.
Proof.
  unfold categoryCheck, bind, tryCatch, callCheckSite, logLine, modify, ret.
  unfold individualOptions. simpl.
  destruct (checkSite env site _ (ext w)) as [[r|e] x]; simpl;
    eexists; (split; [reflexivity|]); simpl;
    rewrite <- ?app_assoc; repeat split.
Qed.

Lemma categoryLoop_run (sitesToCheck : list Site.t) :
  forall (rest : list Site.t) (i : nat) (w : World Ext),
    (i + length rest = length sitesToCheck)%nat ->
    exists w',
      categoryLoop env sitesToCheck i rest w = (Normal tt, w')
      /\ trace w' = trace w ++ pacedTrace 5000 individualOptions rest (ext w)
      /\ ext w' = extAfterChecks individualOptions rest (ext w)
      /\ log w' = log w ++ categoryLogOf (checkReplies individualOptions rest (ext w))
      /\ sameTablesAndJobs w w'.
Proof.
  induction rest as [|site rest IH]; intros i w Hlen.
  - exists w. simpl. rewrite !app_nil_r. repeat split.
  - cbn [categoryLoop]. rewrite (pacing_test i site rest sitesToCheck Hlen).
    assert (Hnext : (S i + length rest = length sitesToCheck)%nat)
      by (simpl in Hlen; lia).
    destruct (categoryCheck_run site w) as (w1 & Hbody & Htr1 & Hext1 & Hlog1 & Hsame1).
    unfold bind at 1. rewrite Hbody.
    cbn [checkReplies pacedTrace extAfterChecks].
    destruct (checkSite env site individualOptions (ext w)) as [reply x] eqn:Hcheck.
    cbn [fst snd categoryLogOf map] in *.
    destruct rest as [|site' rest'].
    + exists w1. simpl. subst x. repeat split; try apply Hsame1; assumption.
    + set (w2 := snd (sleep (Ext:=Ext) 5000 w1)).
      destruct (IH (S i) w2 Hnext) as (w' & Hloop & Htr & Hext & Hlog & Hsame).
      exists w'. unfold bind at 1.
      change (sleep 5000 w1) with (Normal tt, w2).
      cbv beta iota. rewrite Hloop.
      assert (Hext2 : ext w2 = x) by (subst w2; simpl; exact Hext1).
      assert (Htr2 : trace w2 = trace w1 ++ [Sleep 5000]) by reflexivity.
      assert (Hlog2 : log w2 = log w1) by reflexivity.
      rewrite Hext2 in *. split; [reflexivity|].
      split; [rewrite Htr, Htr2, Htr1, <- !app_assoc; reflexivity|].
      split; [exact Hext|].
      split; [rewrite Hlog, Hlog2, Hlog1, <- !app_assoc; reflexivity|].
      apply (sameTablesAndJobs_trans _ w1); [exact Hsame1|].
      apply (sameTablesAndJobs_trans _ w2); [repeat split | exact Hsame].
Qed.

(** *** Facts about the reference trace *)

Lemma begunSites_pacedTrace delay options :
  forall items x, begunSites (pacedTrace delay options items x) = items.
Proof.
  induction items as [|item rest IH]; intros x; [reflexivity|].
  cbn [pacedTrace]. destruct (checkSite env item options x) as [reply x'].
  destruct rest as [|item' rest']; [reflexivity|].
  change (item :: begunSites (pacedTrace delay options (item' :: rest') x')
          = item :: item' :: rest').
  now rewrite IH.
Qed.

Lemma checkEnds_pacedTrace delay options :
  forall items x,
    checkEnds (pacedTrace delay options items x) = checkReplies options items x.
Proof.
  induction items as [|item rest IH]; intros x; [reflexivity|].
  cbn [pacedTrace checkReplies]. destruct (checkSite env item options x) as [reply x'].
  destruct rest as [|item' rest']; [reflexivity|].
  change ((item, reply) :: checkEnds (pacedTrace delay options (item' :: rest') x')
          = (item, reply) :: checkReplies options (item' :: rest') x').
  now rewrite IH.
Qed.

Lemma sleeps_pacedTrace delay options :
  forall items x,
    sleeps (pacedTrace delay options items x) = replicate (length items - 1) delay.
Proof.
  induction items as [|item rest IH]; intros x; [reflexivity|].
  cbn [pacedTrace]. destruct (checkSite env item options x) as [reply x'].
  destruct rest as [|item' rest']; [reflexivity|].
  change (delay :: sleeps (pacedTrace delay options (item' :: rest') x')
          = replicate (length (item :: item' :: rest') - 1) delay).
  rewrite IH. simpl. now rewrite Nat.sub_0_r.
Qed.

Lemma notifications_pacedTrace delay options :
  forall items x, notifications (pacedTrace delay options items x) = [].
Proof.
  induction items as [|item rest IH]; intros x; [reflexivity|].
  cbn [pacedTrace]. destruct (checkSite env item options x) as [reply x'].
  destruct rest as [|item' rest']; [reflexivity|].
  change (notifications (pacedTrace delay options (item' :: rest') x') = []).
  apply IH.
Qed.

Lemma serial_pacedTrace delay options :
  forall items x, serial false (pacedTrace delay options items x) = true.
Proof.
  induction items as [|item rest IH]; intros x; [reflexivity|].
  cbn [pacedTrace]. destruct (checkSite env item options x) as [reply x'].
  destruct rest as [|item' rest']; [reflexivity|].
  cbn [serial negb andb]. apply IH.
Qed.

(** The trace of a non-empty batch ends with the end of a call, not with a
    pause. *)
Lemma last_pacedTrace delay options :
  forall items x,
    items <> [] ->
    exists s r, last (pacedTrace delay options items x) = Some (CheckEnd s r).
Proof.
  induction items as [|item rest IH]; intros x Hne; [congruence|].
  cbn [pacedTrace]. destruct (checkSite env item options x) as [reply x'].
  destruct rest as [|item' rest']; [eauto|].
  destruct (IH x') as (s & r & Hlast); [discriminate|].
  exists s, r. rewrite <- Hlast.
  remember (pacedTrace delay options (item' :: rest') x') as t.
  destruct t as [|e t]; [simpl in Hlast; discriminate|].
  reflexivity.
Qed.

(** ** The global callback, path by path *)

Lemma find_configHasId i rows c :
  List.find (configHasId i) rows = Some c -> ScheduleConfig.id c = i.
Proof.
  intros H. apply find_some in H. destruct H as [_ H].
  unfold configHasId in H. now apply String.eqb_eq in H.
Qed.

Lemma touchLastRun_run (latest : ScheduleConfig.t) (w : World Ext) :
  List.find (configHasId (ScheduleConfig.id latest)) (configs w) <> None ->
  touchLastRun env latest w
  = match dbFault env (dbCalls w) with
    | Some e => (Thrown e, setDbCalls (S (dbCalls w)) w)
    | None =>
        (Normal tt,
         setConfigs (stampLastRun (ScheduleConfig.id latest) (clock w) (configs w))
           (setDbCalls (S (dbCalls w)) w))
    end.
Proof.
  intros Hfind.
  unfold touchLastRun, bind, gets, scheduleConfig_update, prisma, ret. simpl.
  destruct (dbFault env (dbCalls w)); [reflexivity|].
  destruct (List.find _ (configs w)); [reflexivity|congruence].
Qed.

Lemma aggregateNotification_run (changed : list ChangedSite)
    (failed : list FailedSite) (w : World Ext) :
  exists w',
    aggregateNotification env changed failed w = (Normal tt, w')
    /\ trace w' = trace w ++
         match changed, failed with
         | [], [] => []
         | _, _ => [Notify changed failed]
         end
    /\ clock w' = clock w
    /\ sameTablesAndJobs w w'.
Proof.
  unfold aggregateNotification, tryCatch, bind, callNotifier, logLine, modify.
  destruct changed as [|c changed], failed as [|f failed]; simpl;
    try (eexists; split; [reflexivity|]; simpl; rewrite ?app_nil_r; now repeat split).
  all: destruct (sendAggregatedNotification env _ _ (ext w)) as [[e|] x]; simpl;
    eexists; (split; [reflexivity|]); simpl; now repeat split.
Qed.

#[local] Arguments globalCandidates : simpl never.
#[local] Arguments pacedTrace : simpl never.
#[local] Arguments checkReplies : simpl never.

Lemma globalTick_inv (config : ScheduleConfig.t) (w w' : World Ext) (firing : Firing) :
  globalTick env config w = (firing, w') ->
  sites w' = sites w /\ categories w' = categories w /\ tasks w' = tasks w
  /\ jobs w' = jobs w /\ categoryJobs w' = categoryJobs w
  /\ globalScheduleJob w' = globalScheduleJob w
  /\ match firing with
     | Skipped =>
         dbFault env (dbCalls w) = None
         /\ match List.find (configHasId (ScheduleConfig.id config)) (configs w) with
            | None => True
            | Some latest => ScheduleConfig.enabled latest = false
            end
         /\ configs w' = configs w /\ trace w' = trace w /\ ext w' = ext w
         /\ clock w' = clock w
     | Completed =>
         exists latest,
           List.find (configHasId (ScheduleConfig.id config)) (configs w) = Some latest
           /\ ScheduleConfig.enabled latest = true
           /\ dbFault env (dbCalls w) = None
           /\ dbFault env (S (dbCalls w)) = None
           /\ dbFault env (S (S (dbCalls w))) = None
           /\ trace w' = trace w ++ runEvents config latest w
           /\ configs w' = stampLastRun (ScheduleConfig.id config) (clock w') (configs w)
     | Aborted =>
         configs w' = configs w
         /\ last (log w') = Some (mkLog Error "Global schedule task error")
         /\ ((trace w' = trace w
              /\ (dbFault env (dbCalls w) <> None
                  \/ dbFault env (S (dbCalls w)) <> None))
             \/ (exists latest,
                   List.find (configHasId (ScheduleConfig.id config)) (configs w)
                   = Some latest
                   /\ ScheduleConfig.enabled latest = true
                   /\ dbFault env (dbCalls w) = None
                   /\ dbFault env (S (dbCalls w)) = None
                   /\ dbFault env (S (S (dbCalls w))) <> None
                   /\ trace w' = trace w ++ runEvents config latest w))
     end.
Proof.
  unfold globalTick, globalTickBody.
  unfold bind at 1. unfold logLine at 1, modify at 1. cbv beta iota.
  set (w1 := setLog _ w).
  unfold bind at 1. unfold scheduleConfig_findUnique, prisma.
  change (dbCalls w1) with (dbCalls w).
  destruct (dbFault env (dbCalls w)) as [e|] eqn:Hf0.
  { intros H; inversion H; subst; clear H. simpl. rewrite last_snoc. repeat split.
    left. split; [reflexivity|]. left. congruence. }
  cbv beta iota. set (w2 := setDbCalls _ w1).
  change (configs w2) with (configs w).
  destruct (List.find (configHasId (ScheduleConfig.id config)) (configs w))
    as [latest|] eqn:Hfind.
  2:{ cbn. intros H; inversion H; subst; clear H. simpl. repeat split. }
  destruct (ScheduleConfig.enabled latest) eqn:Hen; cbn [negb].
  2:{ cbn. intros H; inversion H; subst; clear H. simpl. repeat split. }
  unfold bind at 1. unfold site_findMany, prisma.
  change (dbCalls w2) with (S (dbCalls w)).
  destruct (dbFault env (S (dbCalls w))) as [e|] eqn:Hf1.
  { intros H; inversion H; subst; clear H. simpl. rewrite last_snoc. repeat split.
    left. split; [reflexivity|]. right. congruence. }
  cbv beta iota. set (w3 := setDbCalls _ w2).
  change (sites w3) with (sites w).
  unfold bind at 1. unfold logLine at 1, modify at 1. cbv beta iota.
  set (w4 := setLog _ w3).
  unfold runEvents.
  set (cands := globalCandidates latest (sites w)).
  assert (Hid : ScheduleConfig.id latest = ScheduleConfig.id config)
    by (eapply find_configHasId; eassumption).
  destruct (length cands =? 0)%nat eqn:Hlen.
  - apply Nat.eqb_eq in Hlen. apply length_zero_iff_nil in Hlen.
    unfold bind at 1. unfold logLine at 1, modify at 1. cbv beta iota.
    set (w5 := setLog _ w4).
    unfold bind at 1. rewrite touchLastRun_run
      by (rewrite Hid; change (configs w5) with (configs w); congruence).
    change (dbCalls w5) with (S (S (dbCalls w))).
    destruct (dbFault env (S (S (dbCalls w)))) as [e|] eqn:Hf2.
    { intros H; inversion H; subst; clear H. simpl. rewrite last_snoc. repeat split.
      right. exists latest. fold cands. rewrite Hlen.
      repeat split; try assumption; try congruence.
      simpl. now rewrite app_nil_r. }
    cbn. intros H; inversion H; subst; clear H. simpl.
    repeat split. exists latest. fold cands. rewrite Hlen, Hid.
    rewrite app_nil_r. repeat split; assumption.
  - destruct (globalLoop_run config cands cands 0 [] [] w4 eq_refl)
      as (w5 & Hloop & Htr5 & Hext5 & Hsame5).
    unfold bind at 1. rewrite Hloop. cbn [fst snd app].
    change (ext w4) with (ext w) in *. change (trace w4) with (trace w) in *.
    set (rs := checkReplies globalOptions cands (ext w)) in *.
    destruct (aggregateNotification_run (changedOf rs) (failedOf rs) w5)
      as (w6 & Hnote & Htr6 & Hclk6 & Hsame6).
    assert (Htrace : trace w6 = trace w ++
              pacedTrace (ScheduleConfig.interval config * 1000) globalOptions
                cands (ext w) ++ notifyEvents rs).
    { rewrite Htr6, Htr5, <- app_assoc. unfold notifyEvents.
      destruct (changedOf rs), (failedOf rs); reflexivity. }
    unfold bind at 1. rewrite Hnote.
    pose proof (sameTablesAndJobs_trans _ _ _ Hsame5 Hsame6) as Hsame.
    destruct Hsame as (Hs & Hc & Hcf & Hdb & Ht & Hj & Hcj & Hg).
    unfold bind at 1. rewrite touchLastRun_run
      by (rewrite Hid, Hcf; change (configs w4) with (configs w); congruence).
    rewrite Hdb. change (dbCalls w4) with (S (S (dbCalls w))).
    destruct (dbFault env (S (S (dbCalls w)))) as [e|] eqn:Hf2.
    { intros H; inversion H; subst; clear H. simpl. rewrite last_snoc.
      rewrite Hs, Hc, Hcf, Ht, Hj, Hcj, Hg. repeat split.
      right. exists latest. fold cands. fold rs.
      repeat split; try assumption; congruence. }
    cbn. intros H; inversion H; subst; clear H. simpl.
    rewrite Hs, Hc, Hcf, Ht, Hj, Hcj, Hg.
    repeat split. exists latest. fold cands. fold rs. rewrite Hid.
    repeat split; assumption.
Qed.

Lemma find_stampLastRun (i : string) (now : Z) (rows : list ScheduleConfig.t) :
  List.find (configHasId i) (stampLastRun i now rows)
  = option_map (ScheduleConfig.withLastRun now) (List.find (configHasId i) rows).
Proof.
  induction rows as [|c rows IH]; [reflexivity|].
  simpl. destruct (configHasId i c) eqn:Hc.
  - unfold configHasId in *. simpl. now rewrite Hc.
  - rewrite Hc. exact IH.
Qed.

Lemma changedOf_filter (replies : list (Site.t * CheckReply)) :
  changedOf replies = map changedEntry (List.filter notifiable (resolvedOf replies)).
Proof.
  induction replies as [|[s [r|e]] replies IH]; [reflexivity| |exact IH].
  rewrite changedOf_cons, IH. unfold changedOf, resolvedOf. simpl.
  destruct (notifiable r); reflexivity.
Qed.

Lemma notifications_notifyEvents (replies : list (Site.t * CheckReply)) :
  notifications (notifyEvents replies)
  = match changedOf replies, failedOf replies with
    | [], [] => []
    | changed, failed => [(changed, failed)]
    end.
Proof. unfold notifyEvents. destruct (changedOf replies), (failedOf replies); reflexivity. Qed.

Lemma checkEnds_notifyEvents (replies : list (Site.t * CheckReply)) :
  checkEnds (notifyEvents replies) = [].
Proof. unfold notifyEvents. destruct (changedOf replies), (failedOf replies); reflexivity. Qed.

Lemma begunSites_notifyEvents (replies : list (Site.t * CheckReply)) :
  begunSites (notifyEvents replies) = [].
Proof. unfold notifyEvents. destruct (changedOf replies), (failedOf replies); reflexivity. Qed.

Lemma sleeps_notifyEvents (replies : list (Site.t * CheckReply)) :
  sleeps (notifyEvents replies) = [].
Proof. unfold notifyEvents. destruct (changedOf replies), (failedOf replies); reflexivity. Qed.

Lemma globalCandidates_In (latest : ScheduleConfig.t) (allSites : list Site.t)
    (s : Site.t) :
  In s (globalCandidates latest allSites)
  <-> In s allSites
      /\ (ScheduleConfig.overrideIndividual latest = true
          \/ noSchedule (Site.scheduleCron s) = true).
Proof.
  unfold globalCandidates.
  destruct (ScheduleConfig.overrideIndividual latest).
  - intuition.
  - rewrite filter_In. intuition congruence.
Qed.

Lemma globalCandidates_reflag (latest : ScheduleConfig.t) (flag : Site.t -> bool)
    (allSites : list Site.t) :
  globalCandidates latest
    (map (fun s => Site.withExcludeFromBatch (flag s) s) allSites)
  = map (fun s => Site.withExcludeFromBatch (flag s) s)
      (globalCandidates latest allSites).
Proof.
  unfold globalCandidates.
  destruct (ScheduleConfig.overrideIndividual latest); [reflexivity|].
  induction allSites as [|s l IH]; [reflexivity|].
  simpl. destruct (noSchedule (Site.scheduleCron s)); simpl; now rewrite IH.
Qed.

Lemma begunSites_runEvents config latest w :
  begunSites (runEvents config latest w) = globalCandidates latest (sites w).
Proof.
  unfold runEvents, begunSites. rewrite omap_app.
  fold (begunSites (notifyEvents
    (checkReplies globalOptions (globalCandidates latest (sites w)) (ext w)))).
  rewrite begunSites_notifyEvents, app_nil_r. apply begunSites_pacedTrace.
Qed.

Lemma checkEnds_runEvents config latest w :
  checkEnds (runEvents config latest w)
  = checkReplies globalOptions (globalCandidates latest (sites w)) (ext w).
Proof.
  unfold runEvents, checkEnds. rewrite omap_app.
  fold (checkEnds (notifyEvents
    (checkReplies globalOptions (globalCandidates latest (sites w)) (ext w)))).
  rewrite checkEnds_notifyEvents, app_nil_r. apply checkEnds_pacedTrace.
Qed.

Lemma sleeps_runEvents config latest w :
  sleeps (runEvents config latest w)
  = replicate (length (globalCandidates latest (sites w)) - 1)
      (ScheduleConfig.interval config * 1000).
Proof.
  unfold runEvents, sleeps. rewrite omap_app.
  fold (sleeps (notifyEvents
    (checkReplies globalOptions (globalCandidates latest (sites w)) (ext w)))).
  rewrite sleeps_notifyEvents, app_nil_r. apply sleeps_pacedTrace.
Qed.

Lemma notifications_runEvents config latest w :
  notifications (runEvents config latest w)
  = notifications
      (notifyEvents
         (checkReplies globalOptions (globalCandidates latest (sites w)) (ext w))).
Proof.
  unfold runEvents. unfold notifications at 1. rewrite omap_app.
  fold (notifications (pacedTrace (ScheduleConfig.interval config * 1000)
          globalOptions (globalCandidates latest (sites w)) (ext w))).
  now rewrite notifications_pacedTrace.
Qed.

(** A firing that reads an enabled row and the site list goes through its
    loop, whether or not the final write succeeds. *)
Lemma globalTick_selects (config latest : ScheduleConfig.t) (w : World Ext) :
  dbFault env (dbCalls w) = None ->
  List.find (configHasId (ScheduleConfig.id config)) (configs w) = Some latest ->
  ScheduleConfig.enabled latest = true ->
  dbFault env (S (dbCalls w)) = None ->
  trace (snd (globalTick env config w)) = trace w ++ runEvents config latest w
  /\ fst (globalTick env config w)
     = match dbFault env (S (S (dbCalls w))) with
       | None => Completed
       | Some _ => Aborted
       end.
Proof.
  intros Hf0 Hfind Hen Hf1.
  destruct (globalTick env config w) as [firing w'] eqn:Hrun.
  apply globalTick_inv in Hrun.
  destruct Hrun as (_ & _ & _ & _ & _ & _ & H). cbn [fst snd].
  destruct firing.
  - destruct H as (_ & H & _). rewrite Hfind in H. congruence.
  - destruct H as (latest' & Hfind' & _ & _ & _ & Hf2 & Htr & _).
    rewrite Hf2. split; [|reflexivity]. congruence.
  - destruct H as (_ & _ & [[_ [H|H]]|(latest' & Hfind' & _ & _ & _ & Hf2 & Htr)]);
      try congruence.
    split; [congruence|]. destruct (dbFault env (S (S (dbCalls w)))); congruence.
Qed.

(** ** Theorems about a firing of the global job *)

(** C5. A firing of the global job that finds its row enabled and reads
    the site list checks exactly the candidate set computed from the row it
    has just re-read: every site of the store when that row has
    [overrideIndividual], otherwise the sites whose own schedule expression is
    null, empty or blank, in store order. Membership depends on nothing else;
    in particular re-flagging [excludeFromBatch] in any way leaves the
    selection unchanged. *)
Theorem global_firing_candidates (config latest : ScheduleConfig.t) (w : World Ext) :
  dbFault env (dbCalls w) = None ->
  List.find (configHasId (ScheduleConfig.id config)) (configs w) = Some latest ->
  ScheduleConfig.enabled latest = true ->
  dbFault env (S (dbCalls w)) = None ->
  exists delta,
    trace (snd (globalTick env config w)) = trace w ++ delta
    /\ begunSites delta
       = (if ScheduleConfig.overrideIndividual latest
          then sites w
          else List.filter (fun s => noSchedule (Site.scheduleCron s)) (sites w))
    /\ (forall s,
          In s (begunSites delta)
          <-> In s (sites w)
              /\ (ScheduleConfig.overrideIndividual latest = true
                  \/ noSchedule (Site.scheduleCron s) = true))
    /\ (forall flag : Site.t -> bool,
          globalCandidates latest
            (map (fun s => Site.withExcludeFromBatch (flag s) s) (sites w))
          = map (fun s => Site.withExcludeFromBatch (flag s) s) (begunSites delta)).
Proof.
  intros Hf0 Hfind Hen Hf1.
  destruct (globalTick_selects config latest w Hf0 Hfind Hen Hf1) as [Htr _].
  exists (runEvents config latest w). split; [exact Htr|].
  rewrite begunSites_runEvents. split; [reflexivity|]. split.
  - intros s. apply globalCandidates_In.
  - intros flag. apply globalCandidates_reflag.
Qed.

(** C7. A firing of the global job that runs to its end has written
    [lastRun], and the value written is the time at the end of the run; this
    holds whatever the candidate set is, the empty one included, as soon as
    the row is found enabled and no call to the store fails. A firing that
    ends in the outer [catch] (a failed read of the configuration or of the
    site list, or a failed write) leaves every configuration row as it was
    and its last log line is the error line. *)
Theorem global_firing_lastRun (config : ScheduleConfig.t) (w w' : World Ext)
    (firing : Firing) :
  globalTick env config w = (firing, w') ->
  (firing = Completed ->
   exists latest,
     List.find (configHasId (ScheduleConfig.id config)) (configs w) = Some latest
     /\ List.find (configHasId (ScheduleConfig.id config)) (configs w')
        = Some (ScheduleConfig.withLastRun (clock w') latest)
     /\ ScheduleConfig.lastRun (ScheduleConfig.withLastRun (clock w') latest)
        = Some (clock w'))
  /\ (firing = Aborted ->
      configs w' = configs w
      /\ last (log w') = Some (mkLog Error "Global schedule task error")
      /\ (dbFault env (dbCalls w) <> None
          \/ dbFault env (S (dbCalls w)) <> None
          \/ dbFault env (S (S (dbCalls w))) <> None))
  /\ (forall latest,
        List.find (configHasId (ScheduleConfig.id config)) (configs w) = Some latest ->
        ScheduleConfig.enabled latest = true ->
        dbFault env (dbCalls w) = None ->
        dbFault env (S (dbCalls w)) = None ->
        dbFault env (S (S (dbCalls w))) = None ->
        firing = Completed).
Proof.
  intros H. apply globalTick_inv in H.
  destruct H as (_ & _ & _ & _ & _ & _ & H). split; [|split].
  - intros ->. destruct H as (latest & Hfind & _ & _ & _ & _ & _ & Hcf).
    exists latest. split; [exact Hfind|]. split; [|reflexivity].
    rewrite Hcf, find_stampLastRun, Hfind. reflexivity.
  - intros ->. destruct H as (Hcf & Hlog & Hwhy). split; [exact Hcf|].
    split; [exact Hlog|].
    destruct Hwhy as [[_ [Hf|Hf]]|(latest & _ & _ & _ & _ & Hf & _)]; auto.
  - intros latest Hfind Hen Hf0 Hf1 Hf2. destruct firing; [|reflexivity|].
    + destruct H as (_ & H & _). rewrite Hfind in H. congruence.
    + destruct H as (_ & _ & [[_ [H|H]]|(latest' & _ & _ & _ & _ & H & _)]);
        congruence.
Qed.

(** C8. In a completed firing of the global job, the changed-sites payload
    holds one entry for each check that resolved with a model diff or a
    check-in result, in order, and nothing else; the notifier is called once,
    with that payload and the failed-sites list, when one of the two is not
    empty, and not at all when both are. *)
Theorem global_firing_notification (config : ScheduleConfig.t) (w w' : World Ext) :
  globalTick env config w = (Completed, w') ->
  exists delta,
    trace w' = trace w ++ delta
    /\ let replies := checkEnds delta in
       let changed := map changedEntry (List.filter notifiable (resolvedOf replies)) in
       let failed := failedOf replies in
       notifications delta
       = match changed, failed with
         | [], [] => []
         | _, _ => [(changed, failed)]
         end.
Proof.
  intros H. apply globalTick_inv in H.
  destruct H as (_ & _ & _ & _ & _ & _ & latest & _ & _ & _ & _ & _ & Htr & _).
  exists (runEvents config latest w). split; [exact Htr|]. cbv zeta.
  rewrite checkEnds_runEvents, notifications_runEvents, <- changedOf_filter.
  rewrite notifications_notifyEvents.
  destruct (changedOf _), (failedOf _); reflexivity.
Qed.

(** C10. The global callback looks its configuration up by the id captured
    when the job was installed. When the store has no row with that id the
    firing is skipped: no site is checked, nothing is notified, no row is
    written, and the world it leaves is the one a disabled row would have
    led to. Other rows of the table, enabled or not, play no part. *)
Theorem global_firing_skips_missing_row (config : ScheduleConfig.t) (w : World Ext) :
  dbFault env (dbCalls w) = None ->
  List.find (configHasId (ScheduleConfig.id config)) (configs w) = None ->
  exists w',
    globalTick env config w = (Skipped, w')
    /\ trace w' = trace w /\ configs w' = configs w /\ ext w' = ext w
    /\ clock w' = clock w
    /\ (forall rows latest,
          List.find (configHasId (ScheduleConfig.id config)) rows = Some latest ->
          ScheduleConfig.enabled latest = false ->
          globalTick env config (setConfigs rows w) = (Skipped, setConfigs rows w')).
Proof.
  intros Hf Hfind.
  unfold globalTick, globalTickBody, bind, scheduleConfig_findUnique, prisma,
    logLine, modify, ret.
  simpl. rewrite Hf, Hfind. simpl. eexists. split; [reflexivity|].
  simpl. repeat split.
  intros rows latest Hrows Hdis. rewrite Hrows, Hdis. reflexivity.
Qed.

(** ** Batches *)

Lemma failedOf_In (replies : list (Site.t * CheckReply)) (s : Site.t) (e : JsError) :
  In (s, Rejected e) replies ->
  In (mkFailed (Site.name s) (checkFailedText e)) (failedOf replies).
Proof.
  induction replies as [|sr replies IH]; [intros []|].
  intros [->|Hin]; rewrite failedOf_cons; apply in_or_app.
  - left. left. reflexivity.
  - right. auto.
Qed.

(** C6. The loop of the global callback calls the checker on each item
    once, in input order, never beginning a call or a pause while a call is in
    flight; it pauses for the pacing delay after every item but the last (the
    trace of a non-empty batch ends with the end of a call); a rejected check
    adds its site to the failed list and the loop goes on, so the loop itself
    always ends normally. The loop of the category callback has the same
    shape with its fixed delay of five seconds, and records a rejected check
    as an error line of the log, the only record it keeps. On the empty list
    both loops return at once, with empty lists and without any effect. *)
Theorem batch_is_sequential_and_paced (config : ScheduleConfig.t)
    (items : list Site.t) (w : World Ext) :
  let delay := ScheduleConfig.interval config * 1000 in
  let replies := checkReplies globalOptions items (ext w) in
  (exists w' delta,
     globalLoop env config items 0 items [] [] w
     = (Normal (changedOf replies, failedOf replies), w')
     /\ trace w' = trace w ++ delta
     /\ delta = pacedTrace delay globalOptions items (ext w)
     /\ begunSites delta = items
     /\ checkEnds delta = replies
     /\ serial false delta = true
     /\ sleeps delta = replicate (length items - 1) delay
     /\ (items <> [] -> exists s r, last delta = Some (CheckEnd s r))
     /\ (forall s e,
           In (s, Rejected e) replies ->
           In (mkFailed (Site.name s) (checkFailedText e)) (failedOf replies)))
  /\ (exists w' delta,
        categoryLoop env items 0 items w = (Normal tt, w')
        /\ trace w' = trace w ++ delta
        /\ delta = pacedTrace 5000 individualOptions items (ext w)
        /\ begunSites delta = items
        /\ serial false delta = true
        /\ sleeps delta = replicate (length items - 1) 5000
        /\ (items <> [] -> exists s r, last delta = Some (CheckEnd s r))
        /\ log w' = log w ++ categoryLogOf (checkEnds delta))
  /\ globalLoop env config [] 0 [] [] [] w = (Normal ([], []), w)
  /\ categoryLoop env [] 0 [] w = (Normal tt, w).
Proof.
  cbv zeta. split; [|split; [|split; reflexivity]].
  - destruct (globalLoop_run config items items 0 [] [] w eq_refl)
      as (w' & Hrun & Htr & _ & _).
    exists w'. eexists. split; [exact Hrun|]. split; [exact Htr|].
    split; [reflexivity|].
    split; [apply begunSites_pacedTrace|].
    split; [apply checkEnds_pacedTrace|].
    split; [apply serial_pacedTrace|].
    split; [apply sleeps_pacedTrace|].
    split; [apply last_pacedTrace|].
    intros s e. apply failedOf_In.
  - destruct (categoryLoop_run items items 0 w eq_refl)
      as (w' & Hrun & Htr & _ & Hlog & _).
    exists w'. eexists. split; [exact Hrun|]. split; [exact Htr|].
    split; [reflexivity|].
    split; [apply begunSites_pacedTrace|].
    split; [apply serial_pacedTrace|].
    split; [apply sleeps_pacedTrace|].
    split; [apply last_pacedTrace|].
    rewrite checkEnds_pacedTrace. exact Hlog.
Qed.

(** ** The category callback *)

Lemma categoryTick_trace (category : Category.t) (w : World Ext) :
  exists w',
    categoryTick env category w = (Normal tt, w')
    /\ trace w' = trace w ++ categoryDelta category w.
Proof.
  unfold categoryTick, categoryDelta, tryCatch.
  unfold bind at 1. unfold category_findUnique, prisma.
  destruct (dbFault env (dbCalls w)) as [e|].
  { eexists. split; [reflexivity|]. simpl. now rewrite app_nil_r. }
  cbv beta iota. set (w1 := setDbCalls _ w).
  change (categories w1) with (categories w). change (sites w1) with (sites w).
  destruct (List.find _ (categories w)) as [c|].
  2:{ eexists. split; [reflexivity|]. simpl. now rewrite app_nil_r. }
  fold (categoryCandidates category w).
  set (cands := categoryCandidates category w).
  destruct (length cands =? 0)%nat eqn:Hlen.
  { apply Nat.eqb_eq, length_zero_iff_nil in Hlen. rewrite Hlen.
    eexists. split; [reflexivity|]. simpl. now rewrite app_nil_r. }
  unfold bind at 1. unfold logLine at 1, modify at 1. cbv beta iota.
  set (w2 := setLog _ w1).
  destruct (categoryLoop_run cands cands 0 w2 eq_refl)
    as (w3 & Hrun & Htr & _ & _ & _).
  unfold bind at 1. rewrite Hrun.
  eexists. split; [reflexivity|]. simpl. exact Htr.
Qed.

(** C2, as the code has it. A category firing never calls the checker on
    a pinned member: a firing that reads its category checks exactly the
    non-pinned sites that reference the category, each once and in store
    order, and a firing that cannot read it checks nothing. A global firing
    does not look at [pinned]: a site of the store is checked exactly when
    the re-read row has [overrideIndividual] or the site has no own schedule,
    and a firing from the same store with the [pinned] flags set in any other
    way checks the same sites. *)
Theorem pinned_sites_and_scheduled_batches (category : Category.t)
    (config latest : ScheduleConfig.t) (w : World Ext) :
  (exists w' delta,
     categoryTick env category w = (Normal tt, w')
     /\ trace w' = trace w ++ delta
     /\ (forall s, In s (begunSites delta) -> Site.pinned s = false)
     /\ (dbFault env (dbCalls w) = None ->
         List.find (categoryHasId (Category.id category)) (categories w) <> None ->
         begunSites delta
         = List.filter (fun s => negb (Site.pinned s))
             (List.filter (inCategory (Category.id category)) (sites w))
         /\ (forall s,
               In s (begunSites delta)
               <-> In s (sites w)
                   /\ Site.categoryId s = Some (Category.id category)
                   /\ Site.pinned s = false))
     /\ (dbFault env (dbCalls w) <> None
         \/ List.find (categoryHasId (Category.id category)) (categories w) = None ->
         begunSites delta = []))
  /\ (dbFault env (dbCalls w) = None ->
      List.find (configHasId (ScheduleConfig.id config)) (configs w) = Some latest ->
      ScheduleConfig.enabled latest = true ->
      dbFault env (S (dbCalls w)) = None ->
      exists delta,
        trace (snd (globalTick env config w)) = trace w ++ delta
        /\ (forall s,
              In s (begunSites delta)
              <-> In s (sites w)
                  /\ (ScheduleConfig.overrideIndividual latest = true
                      \/ noSchedule (Site.scheduleCron s) = true))
        /\ (forall (flag : Site.t -> bool) (w2 : World Ext),
              sites w2 = map (fun s => Site.withPinned (flag s) s) (sites w) ->
              configs w2 = configs w ->
              dbCalls w2 = dbCalls w ->
              exists delta2,
                trace (snd (globalTick env config w2)) = trace w2 ++ delta2
                /\ begunSites delta2
                   = map (fun s => Site.withPinned (flag s) s) (begunSites delta))).
Proof.
  split.
  - destruct (categoryTick_trace category w) as (w' & Hrun & Htr).
    exists w', (categoryDelta category w). split; [exact Hrun|]. split; [exact Htr|].
    assert (Hmember : forall s,
              In s (categoryCandidates category w)
              <-> In s (sites w)
                  /\ Site.categoryId s = Some (Category.id category)
                  /\ Site.pinned s = false).
    { intros s. unfold categoryCandidates. rewrite !filter_In, negb_true_iff.
      unfold inCategory. destruct (Site.categoryId s) as [j|].
      - rewrite String.eqb_eq. split.
        + intros [[Hin ->] Hpin]. auto.
        + intros (Hin & Hj & Hpin). inversion Hj. auto.
      - split; [intros [[_ H] _]; discriminate H|intros (_ & H & _); discriminate H]. }
    unfold categoryDelta.
    destruct (dbFault env (dbCalls w)) as [e|].
    { split; [intros s []|]. split; [intros H; discriminate H|reflexivity]. }
    destruct (List.find _ (categories w)) as [c|].
    2:{ split; [intros s []|]. split; [intros _ H; now contradiction H|reflexivity]. }
    rewrite begunSites_pacedTrace. split; [|split].
    + intros s Hs. now apply Hmember in Hs.
    + intros _ _. split; [reflexivity|exact Hmember].
    + intros [H|H]; [now contradiction H|discriminate H].
  - intros Hf0 Hfind Hen Hf1.
    destruct (globalTick_selects config latest w Hf0 Hfind Hen Hf1) as [Htr _].
    exists (runEvents config latest w). split; [exact Htr|].
    rewrite begunSites_runEvents. split; [intros s; apply globalCandidates_In|].
    intros flag w2 Hsites Hconfigs Hcalls.
    assert (Hf0' : dbFault env (dbCalls w2) = None) by now rewrite Hcalls.
    assert (Hfind' : List.find (configHasId (ScheduleConfig.id config)) (configs w2)
                     = Some latest) by now rewrite Hconfigs.
    assert (Hf1' : dbFault env (S (dbCalls w2)) = None) by now rewrite Hcalls.
    destruct (globalTick_selects config latest w2 Hf0' Hfind' Hen Hf1') as [Htr2 _].
    exists (runEvents config latest w2). split; [exact Htr2|].
    rewrite begunSites_runEvents, Hsites. unfold globalCandidates.
    destruct (ScheduleConfig.overrideIndividual latest); [reflexivity|].
    generalize (sites w) as l. clear. intros l.
    induction l as [|s l IH]; [reflexivity|].
    simpl. destruct (noSchedule (Site.scheduleCron s)); simpl; now rewrite IH.
Qed.

(** The pauses of a completed global firing all last [config.interval]
    seconds, where [config] is the value the callback closed over at
    installation; the row re-read at the start of the firing is not
    consulted for them. *)
Lemma global_firing_pauses (config : ScheduleConfig.t) (w w' : World Ext) :
  globalTick env config w = (Completed, w') ->
  exists latest delta,
    List.find (configHasId (ScheduleConfig.id config)) (configs w) = Some latest
    /\ trace w' = trace w ++ delta
    /\ sleeps delta
       = replicate (length (globalCandidates latest (sites w)) - 1)
           (ScheduleConfig.interval config * 1000).
Proof.
  intros H. apply globalTick_inv in H.
  destruct H as (_ & _ & _ & _ & _ & _ & latest & Hfind & _ & _ & _ & _ & Htr & _).
  exists latest, (runEvents config latest w). split; [exact Hfind|].
  split; [exact Htr|]. apply sleeps_runEvents.
Qed.

(** ** Stopping and starting tasks *)

Lemma live_lt P ts h : live P ts h -> (h < length ts)%nat.
Proof. intros (t & Ht & _). eapply lookup_lt_Some; eassumption. Qed.

Lemma live_stop_same P ts h : ~ live P (alter stopTask h ts) h.
Proof.
  intros (t & Ht & Hrun & _). rewrite list_lookup_alter_eq in Ht.
  destruct (ts !! h) as [t0|]; simplify_eq/=.
Qed.

Lemma live_stop_other P ts h0 h :
  h <> h0 -> live P (alter stopTask h0 ts) h <-> live P ts h.
Proof.
  intros Hne. unfold live. rewrite list_lookup_alter_ne by congruence. reflexivity.
Qed.

Lemma live_stop P ts h0 h :
  live P (alter stopTask h0 ts) h <-> h <> h0 /\ live P ts h.
Proof.
  split.
  - intros H. destruct (decide (h = h0)) as [->|Hne].
    + now apply live_stop_same in H.
    + split; [exact Hne|]. now apply live_stop_other in H.
  - intros [Hne H]. now apply live_stop_other.
Qed.

Lemma live_snoc P ts t h :
  live P (ts ++ [t]) h
  <-> live P ts h \/ (h = length ts /\ task_running t = true /\ P (task_callback t)).
Proof.
  unfold live. split.
  - intros (t' & Ht & Hrun & HP).
    destruct (decide (h < length ts)%nat) as [Hlt|Hge].
    + left. rewrite lookup_app_l in Ht by exact Hlt. eauto.
    + right. rewrite lookup_app_r in Ht by lia.
      destruct (h - length ts)%nat as [|n] eqn:Hd; simpl in Ht; [|discriminate Ht].
      inversion Ht; subst. repeat split; try assumption. lia.
  - intros [(t' & Ht & Hrun & HP)|(-> & Hrun & HP)].
    + exists t'. rewrite lookup_app_l by (eapply lookup_lt_Some; eassumption). auto.
    + exists t. rewrite lookup_app_r by lia. rewrite Nat.sub_diag. auto.
Qed.

Lemma site_not_global k cb : isSiteCallbackOf k cb -> ~ isGlobalCallback cb.
Proof. intros (s & -> & _) (c & Hc). discriminate. Qed.

Lemma live_same_task P Q ts h :
  live P ts h -> live Q ts h -> exists cb, P cb /\ Q cb.
Proof.
  intros (t & Ht & _ & HP) (t' & Ht' & _ & HQ).
  rewrite Ht in Ht'. inversion Ht'; subst. eauto.
Qed.

Lemma site_callback_id k k' cb :
  isSiteCallbackOf k cb -> isSiteCallbackOf k' cb -> k = k'.
Proof. intros (s & -> & <-) (s' & Heq & <-). now inversion Heq. Qed.

Lemma start_started (t : Task) : task_running t = true -> startTask t = t.
Proof. destruct t; simpl; intros ->; reflexivity. Qed.

Lemma alter_start_new (ts : list Task) (t : Task) :
  task_running t = true -> alter startTask (length ts) (ts ++ [t]) = ts ++ [t].
Proof.
  intros Hrun.
  rewrite <- (Nat.add_0_r (length ts)) at 1.
  rewrite alter_app_r. simpl. now rewrite start_started.
Qed.

(** *** What [scheduleSite] does to the runtime and to [jobs] *)

Lemma scheduleSite_effect (site : Site.t) (w w' : World Ext) (r : Completion unit) :
  scheduleSite env site w = (r, w') ->
  sites w' = sites w /\ categories w' = categories w /\ configs w' = configs w
  /\ categoryJobs w' = categoryJobs w /\ globalScheduleJob w' = globalScheduleJob w
  /\ trace w' = trace w /\ ext w' = ext w /\ clock w' = clock w
  /\ dbCalls w' = S (dbCalls w)
  /\ ((r = Normal tt
       /\ dbFault env (dbCalls w) = None
       /\ wantsJob site w = true
       /\ cronError env (default [] (Site.scheduleCron site))
            (orDefault (Site.timezone site) "UTC") = None
       /\ tasks w' = (afterStop (Site.id site) w).1 ++ [siteTask site]
       /\ jobs w' = <[Site.id site := length (afterStop (Site.id site) w).1]>
                      (afterStop (Site.id site) w).2)
      \/ (tasks w' = (afterStop (Site.id site) w).1
          /\ jobs w' = (afterStop (Site.id site) w).2
          /\ match r with
             | Normal _ => dbFault env (dbCalls w) = None /\ wantsJob site w = false
             | Thrown _ =>
                 dbFault env (dbCalls w) <> None
                 \/ (wantsJob site w = true
                     /\ cronError env (default [] (Site.scheduleCron site))
                          (orDefault (Site.timezone site) "UTC") <> None)
             end)).
Proof.
  unfold scheduleSite, scheduleSite_untilAwait, scheduleSite_afterAwait,
    afterStop, wantsJob, bind, gets, scheduleConfig_findFirst,
    prisma, cron_schedule, job_start, job_stop, logLine, modify, ret.
  simpl.
  destruct (jobs w !! Site.id site) as [h|]; simpl;
    (destruct (dbFault env (dbCalls w)) as [e|] eqn:Hf; simpl;
     [intros H; inversion H; subst; clear H; simpl; repeat split;
      right; repeat split; left; congruence|]);
    (destruct (overrides (head (configs w))); simpl;
     [intros H; inversion H; subst; clear H; simpl; repeat split;
      right; repeat split|]);
    (destruct (noSchedule (Site.scheduleCron site)); simpl;
     [intros H; inversion H; subst; clear H; simpl; repeat split;
      right; repeat split|]);
    (destruct (cronError env (default [] (Site.scheduleCron site))
                 (orDefault (Site.timezone site) "UTC")) eqn:Hv; simpl;
     [intros H; inversion H; subst; clear H; simpl; repeat split;
      right; repeat split; right; split; [reflexivity|discriminate]|]).
  all: intros H; inversion H; subst; clear H; simpl; repeat split.
  all: left; repeat split; try assumption.
  all: apply (alter_start_new _ (siteTask site)); reflexivity.
Qed.

Lemma afterStop_siteInv (key : string) (w : World Ext) :
  siteInv (tasks w) (jobs w) ->
  siteInv (afterStop key w).1 (afterStop key w).2
  /\ (afterStop key w).2 !! key = None
  /\ (forall k, k <> key -> (afterStop key w).2 !! k = jobs w !! k)
  /\ (forall h, live isGlobalCallback (afterStop key w).1 h
                <-> live isGlobalCallback (tasks w) h)
  /\ (forall h, jobs w !! key = Some h ->
                exists t, tasks w !! h = Some t
                          /\ (afterStop key w).1 !! h = Some (stopTask t))
  /\ (forall k h, k <> key -> jobs w !! k = Some h ->
                  (afterStop key w).1 !! h = tasks w !! h)
  /\ length (afterStop key w).1 = length (tasks w).
Proof.
  intros Hinv. unfold afterStop.
  destruct (jobs w !! key) as [h0|] eqn:Hkey; cbn [fst snd]; unfold siteInv in *.
  - assert (Hlive0 : live (isSiteCallbackOf key) (tasks w) h0) by now apply Hinv.
    split; [|split; [|split; [|split]]].
    + intros k h. rewrite live_stop, <- Hinv. rewrite lookup_delete.
      destruct (decide (key = k)) as [<-|Hne].
      * split; [discriminate|]. intros [Hh Hk]. congruence.
      * split; [|tauto]. intros Hk. split; [|exact Hk].
        intros ->. apply Hinv in Hk.
        destruct (live_same_task _ _ _ _ Hlive0 Hk) as (cb & H1 & H2).
        apply Hne. eapply site_callback_id; eassumption.
    + apply lookup_delete_eq.
    + intros k Hne. apply lookup_delete_ne. congruence.
    + intros h. rewrite live_stop. split; [tauto|]. intros Hg. split; [|exact Hg].
      intros ->. destruct (live_same_task _ _ _ _ Hlive0 Hg) as (cb & H1 & H2).
      eapply site_not_global; eassumption.
    + split; [|split].
      * intros h Hh. inversion Hh; subst. destruct Hlive0 as (t & Ht & _).
        exists t. split; [exact Ht|]. rewrite list_lookup_alter_eq, Ht. reflexivity.
      * intros k h Hne Hk. apply list_lookup_alter_ne. intros ->.
        apply Hinv in Hk.
        destruct (live_same_task _ _ _ _ Hlive0 Hk) as (cb & H1 & H2).
        apply Hne. symmetry. eapply site_callback_id; eassumption.
      * apply length_alter.
  - split; [exact Hinv|]. split; [exact Hkey|]. split; [reflexivity|].
    split; [reflexivity|]. split; [intros h Hh; discriminate Hh|].
    split; reflexivity.
Qed.

Lemma install_siteInv (site : Site.t) (ts : list Task) (js : gmap string nat) :
  siteInv ts js ->
  js !! Site.id site = None ->
  siteInv (ts ++ [siteTask site]) (<[Site.id site := length ts]> js)
  /\ (forall h, live isGlobalCallback (ts ++ [siteTask site]) h
                <-> live isGlobalCallback ts h).
Proof.
  intros Hinv Hnone. unfold siteInv in *. split.
  - intros k h. rewrite live_snoc, <- Hinv, lookup_insert.
    destruct (decide (Site.id site = k)) as [<-|Hne]; split.
    + intros H. inversion H; subst. right. repeat split. exists site. auto.
    + intros [H|(-> & _)]; [congruence|reflexivity].
    + tauto.
    + intros [H|(_ & _ & (s & Hs & Hk))]; [exact H|].
      simpl in Hs. inversion Hs; subst. congruence.
  - intros h. rewrite live_snoc. split; [|tauto].
    intros [H|(_ & _ & (c & Hc))]; [exact H|]. discriminate Hc.
Qed.

(** [scheduleSite] keeps the registries exact, whatever its outcome. *)
Lemma scheduleSite_registryInv (site : Site.t) (w w' : World Ext) (r : Completion unit) :
  scheduleSite env site w = (r, w') -> registryInv w -> registryInv w'.
Proof.
  intros Hrun [Hs Hg].
  destruct (scheduleSite_effect site w w' r Hrun)
    as (_ & _ & _ & _ & Hgj & _ & _ & _ & _ & Hcase).
  destruct (afterStop_siteInv (Site.id site) w Hs) as (Hs1 & Hnone & _ & Hg1 & _).
  unfold registryInv. rewrite Hgj.
  destruct Hcase as [(_ & _ & _ & _ & Ht & Hj)|(Ht & Hj & _)]; rewrite Ht, Hj.
  - destruct (install_siteInv site _ _ Hs1 Hnone) as [Hs2 Hg2].
    split; [exact Hs2|]. intros h. rewrite Hg2, Hg1. apply Hg.
  - split; [exact Hs1|]. intros h. rewrite Hg1. apply Hg.
Qed.

Lemma wantsJob_spec (site : Site.t) (w : World Ext) :
  wantsJob site w = true
  <-> overrides (head (configs w)) = false
      /\ noSchedule (Site.scheduleCron site) = false.
Proof.
  unfold wantsJob. rewrite andb_true_iff, !negb_true_iff. reflexivity.
Qed.

Lemma live_unique (w : World Ext) (k : string) (h1 h2 : nat) :
  registryInv w -> liveSiteJob w k h1 -> liveSiteJob w k h2 -> h1 = h2.
Proof.
  intros [Hs _] H1 H2. apply Hs in H1, H2. congruence.
Qed.

(** A call of [scheduleSite] that runs to its end before anything else
    touches the registries, from registries that hold exactly the live jobs:
    afterwards the site has at most one live job (and so has every other
    site); the job that was registered for the site before the call is
    stopped and is no longer the registered one; when the call completes
    normally the site has a live job exactly when the stored global
    configuration is not both enabled and overriding and the site's schedule
    expression is neither null, empty nor blank, and that job carries the
    site's expression and time zone. The call completes normally when the
    read of the configuration succeeds and node-cron accepts the expression
    and the time zone of a site that is to get a job. *)
Theorem upsert_site_job (site : Site.t) (w w' : World Ext) (r : Completion unit) :
  registryInv w ->
  scheduleSite env site w = (r, w') ->
  registryInv w'
  /\ (forall h1 h2,
        liveSiteJob w' (Site.id site) h1 -> liveSiteJob w' (Site.id site) h2 -> h1 = h2)
  /\ (forall h,
        jobs w !! Site.id site = Some h ->
        ~ liveSiteJob w' (Site.id site) h
        /\ jobs w' !! Site.id site <> Some h
        /\ exists t, tasks w' !! h = Some t /\ task_running t = false)
  /\ (r = Normal tt ->
      ((exists h, liveSiteJob w' (Site.id site) h)
       <-> overrides (head (configs w)) = false
           /\ noSchedule (Site.scheduleCron site) = false))
  /\ (r = Normal tt ->
      forall h, liveSiteJob w' (Site.id site) h -> tasks w' !! h = Some (siteTask site))
  /\ (dbFault env (dbCalls w) = None ->
      (wantsJob site w = true ->
       cronError env (default [] (Site.scheduleCron site))
         (orDefault (Site.timezone site) "UTC") = None) ->
      r = Normal tt).
Proof.
  intros Hinv Hrun.
  pose proof (scheduleSite_registryInv site w w' r Hrun Hinv) as Hinv'.
  destruct Hinv as [Hs Hg].
  destruct (scheduleSite_effect site w w' r Hrun)
    as (_ & _ & _ & _ & _ & _ & _ & _ & _ & Hcase).
  destruct (afterStop_siteInv (Site.id site) w Hs) as (Hs1 & Hnone & _ & _ & Hold & _).
  assert (Hstopped : forall h, jobs w !! Site.id site = Some h ->
            exists t, tasks w' !! h = Some t /\ task_running t = false).
  { intros h Hh. destruct (Hold h Hh) as (t & _ & Ht). exists (stopTask t).
    split; [|reflexivity].
    destruct Hcase as [(_ & _ & _ & _ & Htasks & _)|(Htasks & _)]; rewrite Htasks;
      [|exact Ht].
    rewrite lookup_app_l; [exact Ht|]. eapply lookup_lt_Some; exact Ht. }
  assert (Hnotlive : forall h, jobs w !! Site.id site = Some h ->
            ~ liveSiteJob w' (Site.id site) h).
  { intros h Hh (t & Ht & Hrun' & _). destruct (Hstopped h Hh) as (t' & Ht' & Hoff).
    congruence. }
  split; [exact Hinv'|]. split; [intros h1 h2; now apply live_unique|].
  split; [|split; [|split]].
  - intros h Hh. split; [now apply Hnotlive|]. split; [|now apply Hstopped].
    intros Hreg. apply (Hnotlive h Hh). now apply Hinv'.
  - intros ->. rewrite <- wantsJob_spec.
    destruct Hcase as [(_ & _ & Hwant & _ & Htasks & Hjobs)|(Htasks & Hjobs & _ & Hwant)].
    + split; [intros _; exact Hwant|]. intros _.
      exists (length (afterStop (Site.id site) w).1). apply Hinv'.
      rewrite Hjobs. apply lookup_insert_eq.
    + split; [|congruence]. intros (h & Hlive). apply Hinv' in Hlive.
      rewrite Hjobs in Hlive. congruence.
  - intros -> h Hlive. apply Hinv' in Hlive.
    destruct Hcase as [(_ & _ & _ & _ & Htasks & Hjobs)|(_ & Hjobs & _)];
      rewrite Hjobs in Hlive.
    + rewrite lookup_insert_eq in Hlive. inversion Hlive; subst.
      rewrite Htasks, lookup_app_r by lia. now rewrite Nat.sub_diag.
    + congruence.
  - intros Hf Hvalid.
    destruct Hcase as [(-> & _)|(_ & _ & Hr)]; [reflexivity|].
    destruct r as [[]|e]; [reflexivity|].
    destruct Hr as [Hr|[Hwant Hbad]]; [congruence|].
    exfalso. apply Hbad, Hvalid, Hwant.
Qed.

(** *** Rescheduling every site *)

Lemma scheduleSite_others (site : Site.t) (w w' : World Ext) (r : Completion unit)
    (k : string) :
  scheduleSite env site w = (r, w') ->
  registryInv w ->
  k <> Site.id site ->
  jobs w' !! k = jobs w !! k
  /\ (forall h, jobs w !! k = Some h -> tasks w' !! h = tasks w !! h).
Proof.
  intros Hrun [Hs _] Hne.
  destruct (scheduleSite_effect site w w' r Hrun)
    as (_ & _ & _ & _ & _ & _ & _ & _ & _ & Hcase).
  destruct (afterStop_siteInv (Site.id site) w Hs)
    as (_ & _ & Hkeep & _ & _ & Htask & Hlen).
  destruct Hcase as [(_ & _ & _ & _ & Ht & Hj)|(Ht & Hj & _)]; rewrite Ht, Hj.
  - split.
    + rewrite lookup_insert_ne by congruence. now apply Hkeep.
    + intros h Hh. rewrite lookup_app_l; [now apply (Htask k)|].
      rewrite Hlen. apply Hs in Hh. eapply live_lt; exact Hh.
  - split; [now apply Hkeep|]. intros h Hh. now apply (Htask k).
Qed.

Lemma scheduleEach_run :
  forall (l : list Site.t) (w w' : World Ext) (r : Completion unit),
    forOf l (scheduleSite env) w = (r, w') ->
    registryInv w ->
    registryInv w'
    /\ sites w' = sites w /\ configs w' = configs w
    /\ globalScheduleJob w' = globalScheduleJob w
    /\ (forall k, ~ In k (map Site.id l) ->
          jobs w' !! k = jobs w !! k
          /\ (forall h, jobs w !! k = Some h -> tasks w' !! h = tasks w !! h))
    /\ (r = Normal tt ->
        NoDup (map Site.id l) ->
        overrides (head (configs w)) = false ->
        forall s, In s l -> noSchedule (Site.scheduleCron s) = false ->
                  exists h, jobs w' !! Site.id s = Some h
                            /\ tasks w' !! h = Some (siteTask s)).
Proof.
  induction l as [|site l IH]; intros w w' r Hrun Hinv.
  - inversion Hrun; subst.
    split; [exact Hinv|]. do 3 (split; [reflexivity|]).
    split; [intros k _; split; [reflexivity|intros; reflexivity]|].
    intros _ _ _ s [].
  - cbn [forOf] in Hrun. unfold bind in Hrun.
    destruct (scheduleSite env site w) as [r1 w1] eqn:Hsite.
    pose proof (scheduleSite_registryInv site w w1 r1 Hsite Hinv) as Hinv1.
    destruct (scheduleSite_effect site w w1 r1 Hsite)
      as (Hs1 & _ & Hc1 & _ & Hg1 & _ & _ & _ & _ & Hcase).
    assert (Hothers : forall k, ~ In k (map Site.id (site :: l)) ->
              jobs w1 !! k = jobs w !! k
              /\ (forall h, jobs w !! k = Some h -> tasks w1 !! h = tasks w !! h)).
    { intros k Hk. apply (scheduleSite_others site w w1 r1 k Hsite Hinv).
      intros ->. apply Hk. now left. }
    destruct r1 as [[]|e].
    + destruct (IH w1 w' r Hrun Hinv1) as (Hinv' & Hs & Hc & Hg & Hkeep & Hnew).
      split; [exact Hinv'|]. split; [congruence|]. split; [congruence|].
      split; [congruence|]. split.
      * intros k Hk. destruct (Hothers k Hk) as [Hj1 Ht1].
        destruct (Hkeep k) as [Hj2 Ht2]; [intros Hin; apply Hk; now right|].
        split; [congruence|]. intros h Hh. rewrite Ht2, Ht1; congruence.
      * intros -> Hnd Hov s Hin Hsch.
        simpl in Hnd. apply NoDup_cons in Hnd. destruct Hnd as [Hnotin Hnd].
        rewrite list_elem_of_In in Hnotin.
        destruct Hin as [<-|Hin].
        -- destruct (Hkeep (Site.id site) Hnotin) as [Hj2 Ht2].
           assert (Hwant : wantsJob site w = true) by (apply wantsJob_spec; auto).
           destruct Hcase as [(_ & _ & _ & _ & Ht & Hj)|(_ & _ & _ & Hno)];
             [|congruence].
           exists (length (afterStop (Site.id site) w).1).
           assert (Hreg : jobs w1 !! Site.id site
                          = Some (length (afterStop (Site.id site) w).1))
             by (rewrite Hj; apply lookup_insert_eq).
           split; [congruence|]. rewrite (Ht2 _ Hreg), Ht.
           rewrite lookup_app_r by lia. now rewrite Nat.sub_diag.
        -- apply (Hnew eq_refl Hnd); [congruence|exact Hin|exact Hsch].
    + inversion Hrun; subst.
      split; [exact Hinv1|]. split; [exact Hs1|]. split; [exact Hc1|].
      split; [exact Hg1|]. split; [exact Hothers|]. discriminate.
Qed.

Lemma rescheduleAllSites_run (w w' : World Ext) (r : Completion unit) :
  rescheduleAllSites env w = (r, w') ->
  registryInv w ->
  registryInv w'
  /\ sites w' = sites w /\ configs w' = configs w
  /\ globalScheduleJob w' = globalScheduleJob w
  /\ (r = Normal tt ->
      NoDup (map Site.id (sites w)) ->
      overrides (head (configs w)) = false ->
      forall s, In s (sites w) -> noSchedule (Site.scheduleCron s) = false ->
                exists h, jobs w' !! Site.id s = Some h
                          /\ tasks w' !! h = Some (siteTask s)).
Proof.
  unfold rescheduleAllSites, bind, site_findMany, prisma.
  destruct (dbFault env (dbCalls w)) as [e|].
  { intros H Hinv. inversion H; subst. simpl. repeat split; try apply Hinv.
    discriminate. }
  intros Hrun Hinv.
  apply scheduleEach_run in Hrun; [|exact Hinv].
  destruct Hrun as (Hinv' & Hs & Hc & Hg & _ & Hnew).
  repeat split; try assumption; apply Hinv'.
Qed.

(** *** Stopping the jobs *)

Lemma stopEntries_run :
  forall (entries : list (string * nat)) (w : World Ext),
    exists w',
      forOf entries
        (fun entry =>
           bind (job_stop (snd entry))
             (fun _ => modify (fun w => setJobs (delete (fst entry) (jobs w)) w))) w
      = (Normal tt, w')
      /\ globalScheduleJob w' = globalScheduleJob w
      /\ sites w' = sites w /\ configs w' = configs w
      /\ length (tasks w') = length (tasks w)
      /\ (forall P h, live P (tasks w') h
                      <-> live P (tasks w) h /\ h ∉ entries.*2)
      /\ (forall k, k ∈ entries.*1 -> jobs w' !! k = None)
      /\ (forall k, k ∉ entries.*1 -> jobs w' !! k = jobs w !! k).
Proof.
  induction entries as [|[k0 h0] entries IH]; intros w.
  - exists w. split; [reflexivity|]. do 4 (split; [reflexivity|]).
    split; [|split].
    + intros P h. split; [|tauto]. intros H. split; [exact H|]. apply not_elem_of_nil.
    + intros k Hk. now apply not_elem_of_nil in Hk.
    + reflexivity.
  - cbn [forOf]. unfold bind at 1. unfold bind at 1.
    unfold job_stop at 1, modify at 1 2. cbn [fst snd].
    set (w1 := setJobs _ _).
    destruct (IH w1) as (w' & Hrun & Hg & Hs & Hc & Hlen & Hlive & Hin & Hout).
    exists w'. split; [exact Hrun|]. split; [exact Hg|].
    split; [exact Hs|]. split; [exact Hc|].
    split; [rewrite Hlen; apply length_alter|]. split; [|split].
    + intros P h. rewrite Hlive. change (tasks w1) with (alter stopTask h0 (tasks w)).
      rewrite live_stop. rewrite fmap_cons, not_elem_of_cons. cbn [snd]. tauto.
    + intros k Hk. rewrite fmap_cons in Hk. cbn [fst] in Hk.
      destruct (decide (k ∈ entries.*1)) as [Hk'|Hk']; [now apply Hin|].
      rewrite (Hout k Hk'). apply elem_of_cons in Hk. destruct Hk as [->|Hk]; [|tauto].
      apply lookup_delete_eq.
    + intros k Hk. rewrite fmap_cons, not_elem_of_cons in Hk. cbn [fst] in Hk.
      destruct Hk as [Hne Hk]. rewrite (Hout k Hk).
      apply lookup_delete_ne. congruence.
Qed.


Lemma stopGlobalJob_run (w : World Ext) :
  registryInv w ->
  exists w',
    stopGlobalJob w = (Normal tt, w')
    /\ registryInv w'
    /\ globalScheduleJob w' = None
    /\ jobs w' = jobs w
    /\ sites w' = sites w /\ configs w' = configs w /\ dbCalls w' = dbCalls w.
Proof.
  intros [Hsite Hglobal]. unfold stopGlobalJob, bind, gets, job_stop, modify, ret.
  destruct (globalScheduleJob w) as [g|] eqn:Hg.
  - eexists. split; [reflexivity|]. simpl. split; [|repeat split].
    assert (Hlg : live isGlobalCallback (tasks w) g) by now apply Hglobal.
    split.
    + intros k h. simpl. rewrite live_stop. unfold siteInv in Hsite. rewrite <- Hsite.
      split; [|tauto]. intros Hk. split; [|exact Hk]. intros ->.
      apply Hsite in Hk. destruct (live_same_task _ _ _ _ Hk Hlg) as (cb & H1 & H2).
      eapply site_not_global; eassumption.
    + intros h. simpl. rewrite live_stop. split; [discriminate|].
      intros [Hne Hl]. apply Hglobal in Hl. congruence.
  - exists w. split; [reflexivity|]. split; [|repeat split; assumption].
    split; [exact Hsite|]. rewrite Hg. exact Hglobal.
Qed.

Lemma startGlobalJob_run (config : ScheduleConfig.t) (w w' : World Ext) :
  startGlobalJob env config w = (Normal tt, w') ->
  cronError env
    (dailyCron (ScheduleConfig.minute config) (ScheduleConfig.hour config))
    (default "Asia/Shanghai" (ScheduleConfig.timezone config)) = None
  /\ tasks w' = tasks w ++ [globalTask config]
  /\ globalScheduleJob w' = Some (length (tasks w))
  /\ jobs w' = jobs w /\ sites w' = sites w /\ configs w' = configs w.
Proof.
  unfold startGlobalJob, bind, cron_schedule, job_start, logLine, modify, ret. simpl.
  destruct (cronError env _ _); [discriminate|].
  intros H. inversion H; subst; clear H. simpl. split; [reflexivity|].
  split; [|repeat split].
  apply (alter_start_new _ (globalTask config)). reflexivity.
Qed.

Lemma startGlobalJob_registry (config : ScheduleConfig.t) (w w' : World Ext) :
  startGlobalJob env config w = (Normal tt, w') ->
  registryInv w ->
  globalScheduleJob w = None ->
  registryInv w'
  /\ (forall k h, liveSiteJob w' k h <-> liveSiteJob w k h)
  /\ (forall h, liveGlobalJob w' h <-> h = length (tasks w))
  /\ globalScheduleJob w' = Some (length (tasks w))
  /\ tasks w' !! length (tasks w) = Some (globalTask config)
  /\ jobs w' = jobs w.
Proof.
  intros Hrun [Hsite Hglobal] Hnone.
  destruct (startGlobalJob_run config w w' Hrun) as (_ & Ht & Hg & Hj & _ & _).
  assert (Hnog : forall h, ~ live isGlobalCallback (tasks w) h).
  { intros h Hl. apply Hglobal in Hl. congruence. }
  assert (Hs' : forall k h, liveSiteJob w' k h <-> liveSiteJob w k h).
  { intros k h. unfold liveSiteJob. rewrite Ht, live_snoc. split; [|tauto].
    intros [H|(_ & _ & (s & Hs & _))]; [exact H|]. discriminate Hs. }
  assert (Hg' : forall h, liveGlobalJob w' h <-> h = length (tasks w)).
  { intros h. unfold liveGlobalJob. rewrite Ht, live_snoc. split.
    - intros [H|(-> & _)]; [now apply Hnog in H|reflexivity].
    - intros ->. right. repeat split. exists config. reflexivity. }
  split; [split|].
  - intros k h. rewrite Hj. unfold siteInv in Hsite. rewrite Hsite. symmetry. apply Hs'.
  - intros h. rewrite Hg. rewrite (Hg' h). split; congruence.
  - split; [exact Hs'|]. split; [exact Hg'|]. split; [exact Hg|]. split; [|exact Hj].
    rewrite Ht, lookup_app_r by lia. now rewrite Nat.sub_diag.
Qed.

(** *** Normal completion *)

Lemma scheduleSite_completes (site : Site.t) (w : World Ext) :
  dbFault env (dbCalls w) = None ->
  (noSchedule (Site.scheduleCron site) = false ->
   cronError env (default [] (Site.scheduleCron site))
     (orDefault (Site.timezone site) "UTC") = None) ->
  exists w', scheduleSite env site w = (Normal tt, w') /\ sites w' = sites w.
Proof.
  intros Hf Hok. destruct (scheduleSite env site w) as [r w'] eqn:Hrun.
  destruct (scheduleSite_effect site w w' r Hrun)
    as (Hs & _ & _ & _ & _ & _ & _ & _ & _ & Hcase).
  exists w'. split; [|exact Hs]. f_equal.
  destruct Hcase as [(-> & _)|(_ & _ & Hr)]; [reflexivity|].
  destruct r as [[]|e]; [reflexivity|].
  destruct Hr as [Hr|[Hw Hr]]; [congruence|].
  apply wantsJob_spec in Hw. destruct Hw as [_ Hsch].
  exfalso. apply Hr, Hok, Hsch.
Qed.

Lemma scheduleEach_completes :
  forall (l : list Site.t) (w : World Ext),
    (forall n, dbFault env n = None) ->
    (forall s, In s l -> noSchedule (Site.scheduleCron s) = false ->
               cronError env (default [] (Site.scheduleCron s))
                 (orDefault (Site.timezone s) "UTC") = None) ->
    exists w', forOf l (scheduleSite env) w = (Normal tt, w').
Proof.
  induction l as [|site l IH]; intros w Hf Hok.
  - exists w. reflexivity.
  - destruct (scheduleSite_completes site w (Hf _) (Hok site (or_introl eq_refl)))
      as (w1 & Hrun & _).
    destruct (IH w1 Hf) as (w' & Hrest); [intros s Hs; apply Hok; now right|].
    exists w'. cbn [forOf]. unfold bind. now rewrite Hrun.
Qed.

Lemma rescheduleAllSites_completes (w : World Ext) :
  (forall n, dbFault env n = None) ->
  (forall s, In s (sites w) -> noSchedule (Site.scheduleCron s) = false ->
             cronError env (default [] (Site.scheduleCron s))
               (orDefault (Site.timezone s) "UTC") = None) ->
  exists w', rescheduleAllSites env w = (Normal tt, w').
Proof.
  intros Hf Hok. unfold rescheduleAllSites, bind, site_findMany, prisma.
  rewrite Hf. apply scheduleEach_completes; assumption.
Qed.

(** [scheduleGlobalTask] completes normally when the store answers every
    call and node-cron accepts, with their time zones, the expressions of the
    sites that have one and the daily expression of the configuration. *)
Lemma scheduleGlobalTask_completes (config : option ScheduleConfig.t) (w : World Ext) :
  (forall n, dbFault env n = None) ->
  (forall s, In s (sites w) -> noSchedule (Site.scheduleCron s) = false ->
             cronError env (default [] (Site.scheduleCron s))
               (orDefault (Site.timezone s) "UTC") = None) ->
  (forall c, config = Some c ->
             cronError env
               (dailyCron (ScheduleConfig.minute c) (ScheduleConfig.hour c))
               (default "Asia/Shanghai" (ScheduleConfig.timezone c)) = None) ->
  exists w', scheduleGlobalTask env config w = (Normal tt, w').
Proof.
  intros Hf Hok Hdaily.
  assert (Hstop : exists w1, stopGlobalJob w = (Normal tt, w1) /\ sites w1 = sites w).
  { unfold stopGlobalJob, bind, gets, job_stop, modify, ret.
    destruct (globalScheduleJob w); eexists; split; reflexivity. }
  destruct Hstop as (w1 & Hstop & Hs1).
  assert (Hre : forall wl, sites wl = sites w ->
            exists w', rescheduleAllSites env wl = (Normal tt, w')).
  { intros wl Hsl. apply rescheduleAllSites_completes; [exact Hf|].
    rewrite Hsl. exact Hok. }
  assert (Hstart : forall c wl, config = Some c ->
            exists w', startGlobalJob env c wl = (Normal tt, w')).
  { intros c wl Hc. unfold startGlobalJob, bind, cron_schedule, job_start, logLine,
      modify, ret. simpl. rewrite (Hdaily c Hc). eexists. reflexivity. }
  unfold scheduleGlobalTask. unfold bind at 1. rewrite Hstop.
  destruct config as [c|].
  - destruct (ScheduleConfig.enabled c); cbn [negb].
    + destruct (ScheduleConfig.overrideIndividual c).
      * unfold bind at 1 2 3. unfold logLine at 1, modify at 1. cbv beta iota.
        unfold stopAllIndividualJobs. unfold bind at 1 2 3, gets. cbv beta iota.
        set (w2 := setLog _ w1).
        destruct (stopEntries_run (map_to_list (jobs w2)) w2) as (w3 & Hrun & _).
        rewrite Hrun. unfold bind, logLine at 1, modify at 1, ret. cbv beta iota.
        apply (Hstart c _ eq_refl).
      * unfold bind at 1 2. unfold logLine at 1, modify at 1. cbv beta iota.
        destruct (Hre (setLog
          (log w1 ++ [mkLog Info "Non-override mode, rescheduling individual site jobs"])
          w1) Hs1) as (w3 & Hrun).
        rewrite Hrun. apply (Hstart c _ eq_refl).
    + unfold bind at 1. unfold logLine at 1, modify at 1. cbv beta iota.
      apply Hre. exact Hs1.
  - unfold bind at 1. unfold logLine at 1, modify at 1. cbv beta iota.
    apply Hre. exact Hs1.
Qed.

(** ** Reconfiguring the global tier *)


Lemma registryInv_fresh (w : World Ext) :
  tasks w = [] -> jobs w = ∅ -> globalScheduleJob w = None -> registryInv w.
Proof.
  intros Ht Hj Hg. split.
  - intros k h. rewrite Hj, lookup_empty. split; [discriminate|].
    intros Hl. apply live_lt in Hl. rewrite Ht in Hl. simpl in Hl. lia.
  - intros h. rewrite Hg. split; [discriminate|].
    intros Hl. apply live_lt in Hl. rewrite Ht in Hl. simpl in Hl. lia.
Qed.

End Properties.

(** * Worked examples *)

Module Examples.

(** ** Collaborators, rows, sites and stores of the examples *)

(** A stand-in for node-cron's validation: five fields separated by single
    spaces, each a non-empty run of digits, [*], [,], [-] and [/]. *)
Definition cronChar (c : N) : bool :=
  ((48 <=? c) && (c <=? 57))%N || existsb (N.eqb c) [42; 44; 45; 47]%N.

Fixpoint fields (s cur : JsString) : list JsString :=
  match s with
  | [] => [rev cur]
  | c :: s' => if (c =? 32)%N then rev cur :: fields s' [] else fields s' (c :: cur)
  end.

Definition fiveFields (s : JsString) : bool :=
  (length (fields s []) =? 5)%nat
  && forallb (fun f => truthy f && forallb cronChar f) (fields s []).

(** What the stand-in throws. *)
Definition invalidExpression : JsError :=
  mkError "invalid cron expression" "Error: invalid cron expression".

(** A stand-in for the time zones the runtime knows, and what it throws for
    any other. *)
Definition knownZone (tz : string) : bool :=
  existsb (String.eqb tz) ["UTC"; "Asia/Shanghai"; "Europe/Berlin"; "Asia/Tokyo"].

Definition invalidTimeZone : JsError :=
  mkError "Invalid time zone specified" "RangeError: Invalid time zone specified".

Definition fiveFieldsOrThrow (s : JsString) (tz : string) : option JsError :=
  if fiveFields s then
    if knownZone tz then None else Some invalidTimeZone
  else Some invalidExpression.

(** A checker that rejects the site named [down], reports a model diff for
    the site named [fresh], and reports nothing for any other site; it counts
    its calls. *)
Definition demoCheck (s : Site.t) (o : CheckOptions) (n : nat) : CheckReply * nat :=
  if String.eqb (Site.name s) "down" then
    (Rejected (mkError "connect ECONNREFUSED" "Error: connect ECONNREFUSED"), S n)
  else if String.eqb (Site.name s) "fresh" then
    (Resolved (mkResult true (Some "+gpt-x") None (Site.name s) false), S n)
  else
    (Resolved (mkResult false None None (Site.name s) false), S n).

Definition demoEnv : Collaborators nat :=
  mkCollaborators nat demoCheck (fun _ _ n => (None, n)) fiveFieldsOrThrow
    (fun _ => None) (fun n => String.append "cfg" (numToString (Z.of_nat n))).

(** The same collaborators with a store whose first call fails. *)
Definition storeDown : Collaborators nat :=
  mkCollaborators nat demoCheck (fun _ _ n => (None, n)) fiveFieldsOrThrow
    (fun n => match n with
              | O => Some (mkError "database is locked" "Error: database is locked")
              | _ => None
              end)
    (fun n => String.append "cfg" (numToString (Z.of_nat n))).

(** A process that has just started: no task, empty registries. *)
Definition emptyWorld (rows : list ScheduleConfig.t) (ss : list Site.t)
    (cs : list Category.t) : World nat :=
  mkWorld ss cs rows 0 [] ∅ ∅ None 1000 0%nat [] [].

Definition cfg30 : ScheduleConfig.t :=
  ScheduleConfig.mk "cfg" true 9 0 (Some "Asia/Shanghai") 30 false None.

(** The same row after an operator raised the interval in the store. *)
Definition cfg60 : ScheduleConfig.t :=
  ScheduleConfig.mk "cfg" true 9 0 (Some "Asia/Shanghai") 60 false None.

Definition cfgOff : ScheduleConfig.t :=
  ScheduleConfig.mk "cfg" false 9 0 (Some "Asia/Shanghai") 30 false None.

Definition cfgOver : ScheduleConfig.t :=
  ScheduleConfig.mk "cfg" true 9 0 (Some "Asia/Shanghai") 30 true None.

(** A row created later under another id. *)
Definition cfgNew : ScheduleConfig.t :=
  ScheduleConfig.mk "cfg-new" true 9 0 (Some "Asia/Shanghai") 30 false None.

(** A site without a schedule of its own. *)
Definition alpha : Site.t :=
  Site.mk "a" "alpha" None (Some "UTC") false false None.

(** A pinned site, excluded from manual batches, with a blank schedule. *)
Definition fresh : Site.t :=
  Site.mk "b" "fresh" (Some (lit "  ")) (Some "UTC") true true None.

(** A pinned site without a schedule of its own. *)
Definition pinnedSite : Site.t :=
  Site.mk "p" "pinned" None (Some "UTC") true false None.

Definition pinnedOnly : World nat := emptyWorld [cfg30] [pinnedSite] [].

(** A site that fails its check. *)
Definition down : Site.t :=
  Site.mk "d" "down" None (Some "UTC") false false None.

(** A site with its own schedule, and the same site after its schedule was
    edited. *)
Definition own : Site.t :=
  Site.mk "s1" "own" (Some (lit "30 14 * * *")) (Some "UTC") false false None.

Definition ownMoved : Site.t :=
  Site.mk "s1" "own" (Some (lit "0 6 * * *")) (Some "UTC") false false None.

(** A site whose expression is not a cron expression. *)
Definition typo : Site.t :=
  Site.mk "bad" "typo" (Some (lit "every day at nine")) None false false None.

Definition twoSites : World nat := emptyWorld [cfg30] [alpha; fresh] [].

(** The global job installed from [cfg30], then the row edited in the store
    without a reconfiguration, then the job fired. *)
Definition installed : World nat :=
  snd (scheduleGlobalTask demoEnv (Some cfg30) twoSites).

Definition edited : World nat := setConfigs [cfg60] installed.

Definition fired : World nat := fire demoEnv 0 edited.

Definition typoStore : World nat := emptyWorld [cfgOff] [typo] [].

(** [onSiteUpdated] has returned and the call it left behind has run. *)
Definition typoSettled : World nat :=
  settleSiteUpdate demoEnv typo (snd (onSiteUpdated typo typoStore)).

Definition sameTime : ScheduleConfigBody := mkBody false 9 0 30 None.

Definition twoSitesDone : World nat := snd (globalTick demoEnv cfg30 twoSites).

Definition twoSitesDown : World nat := snd (globalTick storeDown cfg30 twoSites).

(** The example of the specification: one site with an own schedule, one
    without. *)
Definition pair : World nat := emptyWorld [cfg30] [own; alpha] [].

Definition pairOver : World nat := emptyWorld [cfgOver] [own; alpha] [].

(** Every site has its own schedule: the global job has nothing to check. *)
Definition onlyOwn : World nat := emptyWorld [cfg30] [own] [].

Definition onlyOwnDone : World nat := snd (globalTick demoEnv cfg30 onlyOwn).

(** The scenario of the specification: the configuration is saved with an
    interval of ten seconds, the two sites of [pair] exist, the tiers are
    reconfigured, and the global job fires. *)
Definition cfg10 : ScheduleConfig.t :=
  ScheduleConfig.mk "cfg" true 9 0 (Some "Asia/Shanghai") 10 false None.

Definition reconfigured : World nat :=
  snd (scheduleGlobalTask demoEnv (Some cfg10) (emptyWorld [cfg10] [own; alpha] [])).

Definition nineOClock : World nat := fire demoEnv 1 reconfigured.

(** The job was installed under the id [cfg]; the store now holds only a row
    created under another id, which is enabled. *)
Definition rowReplaced : World nat := emptyWorld [cfgNew] [alpha; fresh] [].

(** A store with an individually scheduled site whose job is live. *)
Definition scheduled : World nat :=
  snd (scheduleSite demoEnv own (emptyWorld [cfgOff] [own; alpha] [])).

Definition rescheduled : World nat := snd (scheduleSite demoEnv ownMoved scheduled).




(** A category with a free and a pinned member, in a store that also holds
    a pinned site outside the category. *)
Definition team : Category.t :=
  Category.mk "c1" "team" (Some (lit "0 7 * * *")) (Some "UTC").

Definition teamFree : Site.t :=
  Site.mk "m1" "free" None (Some "UTC") false false (Some "c1").

Definition teamPinned : Site.t :=
  Site.mk "m2" "kept" None (Some "UTC") true false (Some "c1").

Definition teamStore : World nat :=
  emptyWorld [cfg30] [teamFree; teamPinned; pinnedSite] [team].

(** Two requests update the site [own], whose job is live, without touching
    its schedule or its category, so that each handler calls
    [onSiteUpdated]. The second handler gets there before the store has
    answered the read of the configuration that the first call of
    [scheduleSite] waits for; the two calls then resume in the order in
    which they were made. *)
Definition firstBegun : World nat := snd (onSiteUpdated own scheduled).

Definition bothBegun : World nat := snd (onSiteUpdated own firstBegun).

Definition firstSettled : World nat := settleSiteUpdate demoEnv own bothBegun.

Definition bothSettled : World nat := settleSiteUpdate demoEnv own firstSettled.

(** The two tasks that are left fire, and later the global tier is switched
    to override mode. *)
Definition bothFired : World nat := fire demoEnv 2 (fire demoEnv 1 bothSettled).

Definition bothSettledOver : World nat :=
  snd (scheduleGlobalTask demoEnv (Some cfgOver) (setConfigs [cfgOver] bothSettled)).

(** The same two requests handled one after the other. *)
Definition inTurn : World nat :=
  settleSiteUpdate demoEnv own
    (snd (onSiteUpdated own
            (settleSiteUpdate demoEnv own (snd (onSiteUpdated own scheduled))))).

(** A site and a category whose expression is fine and whose time zone is
    not one the runtime knows. *)
Definition martian : Site.t :=
  Site.mk "mars" "martian" (Some (lit "0 8 * * *")) (Some "Mars/Olympus")
    false false None.

Definition martians : Category.t :=
  Category.mk "c9" "martians" (Some (lit "0 8 * * *")) (Some "Mars/Olympus").

Definition marsStore : World nat := emptyWorld [cfgOff] [martian] [martians].

(** ** The code at concrete inputs *)

(** A batch over three sites with no delay: the second check is rejected,
    the third reports a model diff. Each site is checked once, in order; the
    failed list holds the second, the changed list the third. *)
Lemma batch_of_three :
  let run := globalLoop demoEnv (ScheduleConfig.mk "cfg" true 9 0 None 0 false None)
               [alpha; down; fresh] 0 [alpha; down; fresh] [] []
               (emptyWorld [] [] []) in
  fst run = Normal ([mkChanged "fresh" (Some "+gpt-x") None],
                    [mkFailed "down" "connect ECONNREFUSED"])
  /\ begunSites (trace (snd run)) = [alpha; down; fresh]
  /\ sleeps (trace (snd run)) = [0; 0].
Proof. vm_compute. repeat split. Qed.

(** After the reconfiguration the site with its own schedule keeps a job at
    14:30 in its own time zone and the global job is set for 09:00; when the
    global job fires, only the other site is checked, [lastRun] is written,
    and nothing is notified because that site reported nothing. *)
Lemma end_to_end :
  tasks reconfigured
  = [mkTask (lit "30 14 * * *") "UTC" (SiteCallback own) true;
     mkTask (lit "0 9 * * *") "Asia/Shanghai" (GlobalCallback cfg10) true]
  /\ jobs reconfigured !! "s1" = Some 0%nat
  /\ globalScheduleJob reconfigured = Some 1%nat
  /\ begunSites (trace nineOClock) = [alpha]
  /\ notifications (trace nineOClock) = []
  /\ option_map ScheduleConfig.lastRun (head (configs nineOClock)) = Some (Some 1000).
Proof. vm_compute. repeat split. Qed.

(** C1, on the code. The global job is installed with an interval of 30
    seconds; the store is then changed to 60 seconds; the job fires, re-reads
    the row (and finds 60), and still pauses 30000 ms between its two sites:
    the delay comes from the configuration captured at installation. *)
Theorem stale_interval_paces_global_batch :
  globalScheduleJob installed = Some 0%nat
  /\ List.find (configHasId "cfg") (configs edited) = Some cfg60
  /\ ScheduleConfig.interval cfg60 * 1000 = 60000
  /\ begunSites (trace fired) = [alpha; fresh]
  /\ sleeps (trace fired) = [30000].
Proof. vm_compute. repeat split. Qed.

(** C2, as stated, fails: with the override off, a pinned site without a
    schedule of its own is in the candidate set of the global firing, and the
    checker is called on it. *)
Lemma global_firing_checks_pinned_site :
  Site.pinned pinnedSite = true
  /\ ScheduleConfig.overrideIndividual cfg30 = false
  /\ globalCandidates cfg30 (sites pinnedOnly) = [pinnedSite]
  /\ fst (globalTick demoEnv cfg30 pinnedOnly) = Completed
  /\ begunSites (trace (snd (globalTick demoEnv cfg30 pinnedOnly))) = [pinnedSite].
Proof. vm_compute. repeat split. Qed.

(** C9, on the code. A site whose expression node-cron rejects:
    [scheduleSite] rejects, and so does [scheduleGlobalTask], whose caller
    awaits it and answers 500; [onSiteUpdated] returns normally before the
    expression is looked at, and when the call it left behind has run
    nothing is installed and the rejection is left without a handler. *)
Theorem malformed_expression_and_onSiteUpdated :
  (forall tz, cronError demoEnv (lit "every day at nine") tz = Some invalidExpression)
  /\ fst (scheduleSite demoEnv typo typoStore) = Thrown invalidExpression
  /\ fst (scheduleGlobalTask demoEnv (Some cfgOff) typoStore) = Thrown invalidExpression
  /\ fst (updateScheduleConfigHandler demoEnv sameTime typoStore)
     = ReplyError 500 "更新定时配置失败"
  /\ fst (onSiteUpdated typo typoStore) = Normal tt
  /\ trace (snd (onSiteUpdated typo typoStore)) = []
  /\ tasks typoSettled = []
  /\ jobs typoSettled !! "bad" = None
  /\ trace typoSettled = [UnhandledRejection invalidExpression].
Proof. vm_compute. repeat split. Qed.

Lemma scheduled_registryInv : registryInv scheduled.
Proof.
  apply (scheduleSite_registryInv demoEnv own
           (emptyWorld [cfgOff] [own; alpha] []) scheduled (Normal tt)).
  - vm_compute. reflexivity.
  - apply registryInv_fresh; reflexivity.
Qed.

(** C4, on the code. The site [own] has one live job, registered under
    its id, and the registries are exact. Two calls of [onSiteUpdated] for it
    overlap: the first stops and unregisters that job and waits for the
    store; the second finds nothing to stop; each then creates a task and
    registers it, the second over the first. Two started tasks of the site
    are left and [jobs] knows only the second, so the registries are no
    longer exact: both tasks fire and check the site, and the first survives
    [stopAllIndividualJobs], also when the global tier takes every site
    over. Nothing is thrown. The same two calls run one after the other
    leave one started task. *)
Theorem overlapping_upserts_leave_two_jobs :
  (registryInv scheduled
   /\ jobs scheduled !! "s1" = Some 0%nat
   /\ tasks scheduled = [siteTask own])
  /\ (tasks firstBegun = [stopTask (siteTask own)] /\ jobs firstBegun !! "s1" = None)
  /\ (tasks bothBegun = tasks firstBegun /\ jobs bothBegun !! "s1" = None)
  /\ (tasks firstSettled = [stopTask (siteTask own); siteTask own]
      /\ jobs firstSettled !! "s1" = Some 1%nat)
  /\ (tasks bothSettled = [stopTask (siteTask own); siteTask own; siteTask own]
      /\ jobs bothSettled !! "s1" = Some 2%nat
      /\ trace bothSettled = [])
  /\ (liveSiteJob bothSettled "s1" 1 /\ liveSiteJob bothSettled "s1" 2)
  /\ ~ (forall h1 h2,
          liveSiteJob bothSettled "s1" h1 -> liveSiteJob bothSettled "s1" h2 -> h1 = h2)
  /\ ~ registryInv bothSettled
  /\ begunSites (trace bothFired) = [own; own]
  /\ (fst (stopAllIndividualJobs bothSettled) = Normal 1%nat
      /\ liveSiteJob (snd (stopAllIndividualJobs bothSettled)) "s1" 1)
  /\ (jobs bothSettledOver = ∅ /\ liveSiteJob bothSettledOver "s1" 1)
  /\ tasks inTurn = [stopTask (siteTask own); stopTask (siteTask own); siteTask own].
Proof.
  assert (Hlive : forall (w : World nat) h,
            tasks w !! h = Some (siteTask own) -> liveSiteJob w "s1" h).
  { intros w h Hh. exists (siteTask own). split; [exact Hh|].
    split; [reflexivity|]. exists own. split; reflexivity. }
  assert (H1 : liveSiteJob bothSettled "s1" 1) by (apply Hlive; reflexivity).
  assert (H2 : liveSiteJob bothSettled "s1" 2) by (apply Hlive; reflexivity).
  split; [split; [exact scheduled_registryInv|split; vm_compute; reflexivity]|].
  split; [split; vm_compute; reflexivity|].
  split; [split; vm_compute; reflexivity|].
  split; [split; vm_compute; reflexivity|].
  split; [split; [|split]; vm_compute; reflexivity|].
  split; [split; assumption|].
  split; [intros Hone; discriminate (Hone 1%nat 2%nat H1 H2)|].
  split; [intros [Hsite _]; apply Hsite in H1; vm_compute in H1; discriminate H1|].
  split; [vm_compute; reflexivity|].
  split; [split; [vm_compute; reflexivity|apply Hlive; vm_compute; reflexivity]|].
  split; [split; [vm_compute; reflexivity|apply Hlive; vm_compute; reflexivity]|].
  vm_compute. reflexivity.
Qed.

(** A time zone the runtime does not know makes [cron.schedule] throw
    although the expression is fine: no task is created, for a site and for a
    category alike, and [scheduleAll] rejects. *)
Lemma unknown_time_zone_installs_nothing :
  cronError demoEnv (lit "0 8 * * *") "UTC" = None
  /\ cronError demoEnv (lit "0 8 * * *") "Mars/Olympus" = Some invalidTimeZone
  /\ scheduleSite demoEnv martian marsStore
     = (Thrown invalidTimeZone, setDbCalls 1 marsStore)
  /\ fst (scheduleCategory demoEnv martians marsStore) = Thrown invalidTimeZone
  /\ tasks (snd (scheduleCategory demoEnv martians marsStore)) = []
  /\ fst (scheduleAll demoEnv marsStore) = Thrown invalidTimeZone
  /\ tasks (snd (scheduleAll demoEnv marsStore)) = [].
Proof. vm_compute. repeat split. Qed.

(** ** The general theorems at concrete inputs *)

(** A firing of the category [team] checks its free member and not its
    pinned one; a global firing from the same store checks all three sites,
    the two pinned ones included. *)
Lemma pinned_sites_and_scheduled_batches_witness :
  (exists delta,
     trace (snd (categoryTick demoEnv team teamStore)) = trace teamStore ++ delta
     /\ begunSites delta = [teamFree])
  /\ (exists delta,
        trace (snd (globalTick demoEnv cfg30 teamStore)) = trace teamStore ++ delta
        /\ In teamPinned (begunSites delta) /\ In pinnedSite (begunSites delta)).
Proof.
  destruct (pinned_sites_and_scheduled_batches demoEnv team cfg30 cfg30 teamStore)
    as [(w' & delta & Hrun & Htr & _ & Hexact & _) Hglobal].
  split.
  - exists delta. rewrite Hrun. split; [exact Htr|].
    destruct (Hexact eq_refl) as [Heq _]; [discriminate|]. exact Heq.
  - destruct (Hglobal eq_refl eq_refl eq_refl eq_refl) as (delta2 & Htr2 & Hin & _).
    exists delta2. split; [exact Htr2|].
    split; apply Hin; (split; [simpl; tauto|right; reflexivity]).
Defined.

(** The example of the specification: with the override off only the site
    without a schedule is checked, with the override on both are. *)
Lemma global_firing_candidates_witness :
  (exists delta,
     trace (snd (globalTick demoEnv cfg30 pair)) = trace pair ++ delta
     /\ begunSites delta = [alpha])
  /\ (exists delta,
        trace (snd (globalTick demoEnv cfg30 pairOver)) = trace pairOver ++ delta
        /\ begunSites delta = [own; alpha]).
Proof.
  split.
  - destruct (global_firing_candidates demoEnv cfg30 cfg30 pair
                eq_refl eq_refl eq_refl eq_refl) as (delta & Htr & Hb & _).
    exists delta. split; [exact Htr|exact Hb].
  - destruct (global_firing_candidates demoEnv cfg30 cfgOver pairOver
                eq_refl eq_refl eq_refl eq_refl) as (delta & Htr & Hb & _).
    exists delta. split; [exact Htr|exact Hb].
Defined.

(** A run over two sites, a run with nothing to check, and a firing whose
    first read of the store fails. *)
Lemma global_firing_lastRun_witness :
  (globalTick demoEnv cfg30 twoSites = (Completed, twoSitesDone)
   /\ clock twoSitesDone = 31000
   /\ List.find (configHasId "cfg") (configs twoSitesDone)
      = Some (ScheduleConfig.withLastRun 31000 cfg30))
  /\ (globalTick demoEnv cfg30 onlyOwn = (Completed, onlyOwnDone)
      /\ trace onlyOwnDone = []
      /\ List.find (configHasId "cfg") (configs onlyOwnDone)
         = Some (ScheduleConfig.withLastRun 1000 cfg30))
  /\ (globalTick storeDown cfg30 twoSites = (Aborted, twoSitesDown)
      /\ configs twoSitesDown = configs twoSites
      /\ last (log twoSitesDown) = Some (mkLog Error "Global schedule task error")).
Proof.
  assert (Hdone : globalTick demoEnv cfg30 twoSites = (Completed, twoSitesDone))
    by (vm_compute; reflexivity).
  assert (Hdown : globalTick storeDown cfg30 twoSites = (Aborted, twoSitesDown))
    by (vm_compute; reflexivity).
  assert (Hnone : globalTick demoEnv cfg30 onlyOwn = (Completed, onlyOwnDone))
    by (vm_compute; reflexivity).
  split; [|split].
  - destruct (global_firing_lastRun demoEnv cfg30 twoSites twoSitesDone Completed Hdone)
      as (Hcompleted & _ & _).
    destruct (Hcompleted eq_refl) as (latest & Hfind & Hrow & _).
    split; [exact Hdone|]. split; [reflexivity|].
    refine (eq_trans Hrow _). vm_compute in Hfind. inversion Hfind. reflexivity.
  - destruct (global_firing_lastRun demoEnv cfg30 onlyOwn onlyOwnDone Completed Hnone)
      as (Hcompleted & _ & _).
    destruct (Hcompleted eq_refl) as (latest & Hfind & Hrow & _).
    split; [exact Hnone|]. split; [reflexivity|].
    refine (eq_trans Hrow _). vm_compute in Hfind. inversion Hfind. reflexivity.
  - destruct (global_firing_lastRun storeDown cfg30 twoSites twoSitesDown Aborted Hdown)
      as (_ & Haborted & _).
    destruct (Haborted eq_refl) as (Hsame & Hlog & _).
    split; [exact Hdown|]. split; [exact Hsame|exact Hlog].
Defined.

(** One of the two sites reports a model diff: one notification, with one
    changed entry and no failed entry. *)
Lemma global_firing_notification_witness :
  globalTick demoEnv cfg30 twoSites = (Completed, twoSitesDone)
  /\ exists delta,
       trace twoSitesDone = trace twoSites ++ delta
       /\ notifications delta = [([mkChanged "fresh" (Some "+gpt-x") None], [])].
Proof.
  assert (Hdone : globalTick demoEnv cfg30 twoSites = (Completed, twoSitesDone))
    by (vm_compute; reflexivity).
  split; [exact Hdone|].
  destruct (global_firing_notification demoEnv cfg30 twoSites twoSitesDone Hdone)
    as (delta & Htr & Hnote).
  exists delta. split; [exact Htr|].
  rewrite Hnote. change (trace twoSitesDone = delta) in Htr. subst delta.
  vm_compute. reflexivity.
Defined.

(** The row of the installed job is gone and another, enabled, row exists:
    the firing is skipped. *)
Lemma global_firing_skips_missing_row_witness :
  dbFault demoEnv (dbCalls rowReplaced) = None
  /\ List.find (configHasId (ScheduleConfig.id cfg30)) (configs rowReplaced) = None
  /\ List.find (fun c => ScheduleConfig.enabled c) (configs rowReplaced) = Some cfgNew
  /\ exists w',
       globalTick demoEnv cfg30 rowReplaced = (Skipped, w')
       /\ trace w' = trace rowReplaced /\ configs w' = configs rowReplaced.
Proof.
  assert (Hf : dbFault demoEnv (dbCalls rowReplaced) = None) by reflexivity.
  assert (Hnone : List.find (configHasId (ScheduleConfig.id cfg30))
                    (configs rowReplaced) = None) by reflexivity.
  split; [exact Hf|]. split; [exact Hnone|]. split; [reflexivity|].
  destruct (global_firing_skips_missing_row demoEnv cfg30 rowReplaced Hf Hnone)
    as (w' & Hrun & Htr & Hcf & _).
  exists w'. split; [exact Hrun|]. split; [exact Htr|exact Hcf].
Defined.

(** The schedule of a site with a live job is edited: the old job (handle 0)
    is stopped, one job is live, and it carries the new expression. *)
Lemma upsert_site_job_witness :
  registryInv scheduled
  /\ scheduleSite demoEnv ownMoved scheduled = (Normal tt, rescheduled)
  /\ jobs scheduled !! "s1" = Some 0%nat
  /\ ~ liveSiteJob rescheduled "s1" 0
  /\ (exists h, liveSiteJob rescheduled "s1" h)
  /\ (forall h, liveSiteJob rescheduled "s1" h ->
                tasks rescheduled !! h = Some (siteTask ownMoved)).
Proof.
  assert (Hrun : scheduleSite demoEnv ownMoved scheduled = (Normal tt, rescheduled))
    by (vm_compute; reflexivity).
  assert (Hold : jobs scheduled !! Site.id ownMoved = Some 0%nat)
    by (vm_compute; reflexivity).
  destruct (upsert_site_job demoEnv ownMoved scheduled rescheduled (Normal tt)
              scheduled_registryInv Hrun)
    as (_ & _ & Hstop & Hiff & Htask & _).
  split; [exact scheduled_registryInv|]. split; [exact Hrun|].
  split; [exact Hold|]. split; [apply (Hstop 0%nat Hold)|].
  split; [|exact (Htask eq_refl)].
  apply (Hiff eq_refl). split; reflexivity.
Defined.


End Examples.

(** * The other scheduler operations and their callers *)

(** ** More of routes.js and index.js *)

Section Callers.
Context {Ext : Type} (env : Collaborators Ext).

(** Two more things that live outside the files at hand: [checkSiteById] of
    [./run], which the manual batch of a category calls with the id of the
    site, and the default the schema gives to the column [overrideIndividual]
    of a row created without it. *)
Context (checkSiteById : string -> CheckOptions -> Ext -> CheckReply * Ext).
Context (schemaOverrideIndividual : bool).
Local Open Scope async_scope.

(** The two setters of the tables that the scheduler itself never writes. *)
Definition setSites (v : list Site.t) (w : World Ext) : World Ext :=
  mkWorld v (categories w) (configs w) (dbCalls w) (tasks w) (jobs w)
    (categoryJobs w) (globalScheduleJob w) (clock w) (ext w) (trace w) (log w).

Definition setCategories (v : list Category.t) (w : World Ext) : World Ext :=
  mkWorld (sites w) v (configs w) (dbCalls w) (tasks w) (jobs w)
    (categoryJobs w) (globalScheduleJob w) (clock w) (ext w) (trace w) (log w).

(** What [require('./scheduler')] gives for the name [categoryJobs]:
    [module.exports] lists [scheduleAll], [onSiteUpdated],
    [scheduleGlobalTask], [scheduleCategory] and [scheduleAllCategories]
    only, so the destructured binding is [undefined]. *)
Definition exported_categoryJobs (w : World Ext) : option (gmap string nat) := None.

(** What [delete] rejects with when no row has the id. *)
Definition recordToDeleteNotFound : JsError :=
  mkError "Record to delete does not exist." "PrismaClientKnownRequestError".

(** [e.code === 'P2025']: the errors of the store model that carry that code
    are the ones [update] and [delete] reject with when the row is missing. *)
Definition isP2025 (e : JsError) : bool :=
  String.eqb (asString e) "PrismaClientKnownRequestError"
  && (String.eqb (message e) (message recordNotFound)
      || String.eqb (message e) (message recordToDeleteNotFound)).

(** [prisma.site.updateMany({ where: { categoryId: id }, data: { categoryId: null } })] *)
Definition site_uncategorize (i : string) : Async Ext unit :=
  prisma env (fun w =>
    (Normal tt,
     setSites
       (map (fun s =>
               if inCategory i s
               then Site.mk (Site.id s) (Site.name s) (Site.scheduleCron s)
                      (Site.timezone s) (Site.pinned s) (Site.excludeFromBatch s) None
               else s) (sites w)) w)).

(** [prisma.category.delete({ where: { id } })] *)
Definition category_delete (i : string) : Async Ext unit :=
  prisma env (fun w =>
    match List.find (categoryHasId i) (categories w) with
    | None => (Thrown recordToDeleteNotFound, w)
    | Some _ =>
        (Normal tt,
         setCategories (List.filter (fun c => negb (categoryHasId i c)) (categories w)) w)
    end).

Inductive DeleteReply :=
| Deleted
| NotFound (error : string).

(** [DELETE /api/categories/:id] *)
Definition deleteCategoryRoute (id : string) : Async Ext DeleteReply :=
  tryCatch
    (let jobKey := String.append "cat_" id in
     do (fun w =>
           match exported_categoryJobs w with
           | Some registry =>
               match registry !! jobKey with
               | Some job =>
                   (do job_stop job then
                    modify (fun w => setCategoryJobs (delete jobKey (categoryJobs w)) w)) w
               | None => (Normal tt, w)
               end
           | None => (Normal tt, w)
           end) then
     do site_uncategorize id then
     do category_delete id then
     ret Deleted)
    (fun e =>
       if isP2025 e then ret (NotFound "分类不存在")
       else fun w => (Thrown e, w)).

(** [prisma.modelDiff.deleteMany] and [prisma.modelSnapshot.deleteMany]: the
    history tables are not part of the world; the call can still be
    rejected. *)
Definition history_deleteMany : Async Ext unit :=
  prisma env (fun w => (Normal tt, w)).

(** [prisma.site.delete({ where: { id } })] *)
Definition site_delete (i : string) : Async Ext unit :=
  prisma env (fun w =>
    match List.find (siteHasId i) (sites w) with
    | None => (Thrown recordToDeleteNotFound, w)
    | Some _ =>
        (Normal tt, setSites (List.filter (fun s => negb (siteHasId i s)) (sites w)) w)
    end).

(** [DELETE /api/sites/:id] *)
Definition deleteSiteRoute (id : string) : Async Ext unit :=
  do history_deleteMany then
  do history_deleteMany then
  do site_delete id then
  ret tt.

(** [prisma.scheduleConfig.create] with the data of [getScheduleConfigHandler] *)
Definition scheduleConfig_createDefault : Async Ext ScheduleConfig.t :=
  fun w =>
    prisma env (fun w1 =>
      let row :=
        ScheduleConfig.mk (newId env (dbCalls w)) false 9 0 (Some "Asia/Shanghai") 30
          schemaOverrideIndividual None in
      (Normal row, setConfigs (configs w1 ++ [row]) w1)) w.

(** [GET /api/schedule-config] *)
Definition getScheduleConfigHandler (w : World Ext) : Reply * World Ext :=
  let attempt : Async Ext Reply :=
    let* config := scheduleConfig_findFirst env in
    let* config :=
      match config with
      | Some c => ret c
      | None => scheduleConfig_createDefault
      end in
    ret (ReplyOk config) in
  match attempt w with
  | (Normal reply, w1) => (reply, w1)
  | (Thrown error, w1) =>
      (ReplyError 500 "获取定时配置失败", snd (logLine Error (message error) w1))
  end.

(** *** The manual batch of a category *)

(** [results] of [POST /api/categories/:id/check]. *)
Record BatchResults := mkResults {
  changes : list (string * string);     (* siteName, diff *)
  failures : list FailedSite;
  totalSites : nat
}.

Inductive CheckRouteReply :=
| CheckOk (results : BatchResults)
| CheckError (status : Z) (error : string).

(** [await checkSiteById(site.id, fastify, options)] *)
Definition callCheckSiteById (site : Site.t) (options : CheckOptions)
  : Async Ext CheckResult :=
  fun w =>
    let w1 := setTrace (trace w ++ [CheckBegin site options]) w in
    let '(reply, x) := checkSiteById (Site.id site) options (ext w1) in
    let w2 := setTrace (trace w1 ++ [CheckEnd site reply]) (setExt x w1) in
    match reply with
    | Resolved r => (Normal r, w2)
    | Rejected e => (Thrown e, w2)
    end.

(** [e.message || '检测失败'] *)
Definition manualFailedText (e : JsError) : string :=
  match message e with
  | "" => "检测失败"
  | m => m
  end.

(** The [try]/[catch] statement inside the loop of the route. *)
Definition manualCheck (skip : bool) (site : Site.t) (results : BatchResults)
  : Async Ext BatchResults :=
  tryCatch
    (let* result := callCheckSiteById site (mkOptions skip true) in
     ret (match (if hasChanges result then diff result else None) with
          | Some d =>
              mkResults (changes results ++ [(Site.name site, d)]) (failures results)
                (totalSites results)
          | None => results
          end))
    (fun e =>
       ret (mkResults (changes results)
              (failures results ++ [mkFailed (Site.name site) (manualFailedText e)])
              (totalSites results))).

Fixpoint manualLoop (skip : bool) (sites : list Site.t) (i : nat) (rest : list Site.t)
    (results : BatchResults) : Async Ext BatchResults :=
  match rest with
  | [] => ret results
  | site :: rest' =>
      let* results := manualCheck skip site results in
      do (if Z.of_nat i <? Z.of_nat (length sites) - 1
          then sleep 5000 else ret tt) then
      manualLoop skip sites (S i) rest' results
  end.

(** [where: { categoryId: id, pinned: false, excludeFromBatch: false }] *)
Definition manualMember (id : string) (s : Site.t) : bool :=
  inCategory id s && negb (Site.pinned s) && negb (Site.excludeFromBatch s).

(** [POST /api/categories/:id/check] *)
Definition checkCategoryRoute (id : string) (skipNotification : bool)
  : Async Ext CheckRouteReply :=
  let* sites := prisma env (fun w => (Normal (List.filter (manualMember id) (sites w)), w)) in
  if (length sites =? 0)%nat then
    ret (CheckError 400 "该分类下没有可检测的站点")
  else
    let* results := manualLoop skipNotification sites 0 sites
                      (mkResults [] [] (length sites)) in
    ret (CheckOk results).

(** *** Start-up *)

(** The scheduling steps of [buildServer] in index.js: every site and
    category, then the global job when a configuration row exists; a failure
    of the second part is logged, a failure of the first is not caught. *)
Definition startScheduling : Async Ext unit :=
  do scheduleAll env then
  tryCatch
    (let* scheduleConfig := scheduleConfig_findFirst env in
     match scheduleConfig with
     | Some config =>
         do scheduleGlobalTask env (Some config) then
         logLine Info "Global schedule task initialized"
     | None => ret tt
     end)
    (fun e => logLine Warn "Failed to initialize global schedule task").

(** *** The life of the process *)

(** What can happen to the scheduler once the module is loaded: a call of
    one of its exported functions, a request to one of the routes above, a
    write of the site or category table by one of the other routes, or
    node-cron running a task. *)
Inductive Op :=
| CallScheduleAll
| CallOnSiteUpdated (site : Site.t)
| CallScheduleCategory (category : Category.t)
| CallScheduleAllCategories
| CallScheduleGlobalTask (config : option ScheduleConfig.t)
| CallStartScheduling
| PostScheduleConfig (body : ScheduleConfigBody)
| GetScheduleConfig
| DeleteCategory (id : string)
| DeleteSite (id : string)
| PostCategoryCheck (id : string) (skipNotification : bool)
| WriteSites (rows : list Site.t)
| WriteCategories (rows : list Category.t)
| Fire (job : nat).

(** One operation, run to its end: for [onSiteUpdated] that is the call and
    then the call of [scheduleSite] it left behind. *)
Definition step (op : Op) (w : World Ext) : World Ext :=
  match op with
  | CallScheduleAll => snd (scheduleAll env w)
  | CallOnSiteUpdated site =>
      settleSiteUpdate env site (snd (onSiteUpdated site w))
  | CallScheduleCategory category => snd (scheduleCategory env category w)
  | CallScheduleAllCategories => snd (scheduleAllCategories env w)
  | CallScheduleGlobalTask config => snd (scheduleGlobalTask env config w)
  | CallStartScheduling => snd (startScheduling w)
  | PostScheduleConfig body => snd (updateScheduleConfigHandler env body w)
  | GetScheduleConfig => snd (getScheduleConfigHandler w)
  | DeleteCategory id => snd (deleteCategoryRoute id w)
  | DeleteSite id => snd (deleteSiteRoute id w)
  | PostCategoryCheck id skip => snd (checkCategoryRoute id skip w)
  | WriteSites rows => setSites rows w
  | WriteCategories rows => setCategories rows w
  | Fire job => fire env job w
  end.

(** Operations run one after the other. *)
Definition run (ops : list Op) (w : World Ext) : World Ext :=
  fold_left (fun w op => step op w) ops w.

End Callers.

(** ** Properties of the other operations *)

Section MoreProperties.
Context {Ext : Type} (env : Collaborators Ext).

(** *** Vocabulary *)

(** The callback of a category job registered under [key]. *)
Definition isCategoryCallbackAt (key : string) (cb : Callback) : Prop :=
  exists c, cb = CategoryCallback c /\ String.append "cat_" (Category.id c) = key.

(** [h] is a live job of the category registered under [key]. *)
Definition liveCategoryJob (w : World Ext) (key : string) (h : nat) : Prop :=
  live (isCategoryCallbackAt key) (tasks w) h.

(** [categoryJobs] holds exactly the live category jobs. *)
Definition categoryInv (ts : list Task) (cj : gmap string nat) : Prop :=
  forall k h, cj !! k = Some h <-> live (isCategoryCallbackAt k) ts h.

(** The three registries hold exactly the live jobs. *)
Definition exactRegistries (w : World Ext) : Prop :=
  registryInv w /\ categoryInv (tasks w) (categoryJobs w).

(** The tasks and [categoryJobs] once the job registered under [key] is
    stopped and deleted. *)
Definition afterCategoryStop (key : string) (w : World Ext)
  : list Task * gmap string nat :=
  match categoryJobs w !! key with
  | Some h => (alter stopTask h (tasks w), delete key (categoryJobs w))
  | None => (tasks w, categoryJobs w)
  end.

(** The task [scheduleCategory] creates for a category. *)
Definition categoryTask (category : Category.t) : Task :=
  mkTask (default [] (Category.scheduleCron category))
    (orDefault (Category.timezone category) "UTC") (CategoryCallback category) true.

(** Two worlds with the same tasks and the same three registries. *)
Definition sameJobs (w w' : World Ext) : Prop :=
  tasks w' = tasks w /\ jobs w' = jobs w /\ categoryJobs w' = categoryJobs w
  /\ globalScheduleJob w' = globalScheduleJob w.

(** What the firing of a site job adds to the trace: one check of the row
    the store holds for the captured id, nothing when the read fails or the
    row is gone. *)
Definition siteDelta (site : Site.t) (w : World Ext) : list Event :=
  match dbFault env (dbCalls w) with
  | Some _ => []
  | None =>
      match List.find (siteHasId (Site.id site)) (sites w) with
      | None => []
      | Some latestSite =>
          [CheckBegin latestSite individualOptions;
           CheckEnd latestSite (fst (checkSite env latestSite individualOptions (ext w)))]
      end
  end.

(** Two configuration rows that differ at most in [lastRun]. *)
Definition sameSchedule (c c' : ScheduleConfig.t) : Prop :=
  ScheduleConfig.id c' = ScheduleConfig.id c
  /\ ScheduleConfig.enabled c' = ScheduleConfig.enabled c
  /\ ScheduleConfig.hour c' = ScheduleConfig.hour c
  /\ ScheduleConfig.minute c' = ScheduleConfig.minute c
  /\ ScheduleConfig.timezone c' = ScheduleConfig.timezone c
  /\ ScheduleConfig.interval c' = ScheduleConfig.interval c
  /\ ScheduleConfig.overrideIndividual c' = ScheduleConfig.overrideIndividual c.

(** Two worlds with the same three tables. *)
Definition sameTables (w w' : World Ext) : Prop :=
  sites w' = sites w /\ categories w' = categories w /\ configs w' = configs w.

(** The two store calls that open the [try] block of
    [updateScheduleConfigHandler] once the body has passed the bounds. *)
Definition upsertConfig (body : ScheduleConfigBody) : Async Ext ScheduleConfig.t :=
  bind (scheduleConfig_findFirst env) (fun existing =>
    match existing with
    | Some c => scheduleConfig_update env (ScheduleConfig.id c) (applyBody body)
    | None => scheduleConfig_create env body
    end).

(** The row the handler writes over: the first row of the table, or the
    blank of a new row. *)
Definition previousRow (w : World Ext) : ScheduleConfig.t :=
  match head (configs w) with
  | Some c => c
  | None =>
      ScheduleConfig.mk (newId env (S (dbCalls w))) false 0 0 (Some "Asia/Shanghai")
        0 false None
  end.

(** The options of the manual batch of a category. *)
Definition manualOptions (skip : bool) : CheckOptions := mkOptions skip true.

(** The [changes] and [failures] expected for a list of replies. *)
Definition manualChanges (replies : list (Site.t * CheckReply))
  : list (string * string) :=
  omap (fun sr =>
          match snd sr with
          | Resolved r =>
              match (if hasChanges r then diff r else None) with
              | Some d => Some (Site.name (fst sr), d)
              | None => None
              end
          | Rejected _ => None
          end) replies.

Definition manualFailures (replies : list (Site.t * CheckReply)) : list FailedSite :=
  omap (fun sr =>
          match snd sr with
          | Resolved _ => None
          | Rejected e => Some (mkFailed (Site.name (fst sr)) (manualFailedText e))
          end) replies.

(** What every state of a running process satisfies: exact registries and
    at most one configuration row. *)
Definition wellFormed (w : World Ext) : Prop :=
  exactRegistries w /\ (length (configs w) <= 1)%nat.

(** A process that has just loaded the scheduler module. *)
Definition justLoaded (w : World Ext) : Prop :=
  tasks w = [] /\ jobs w = ∅ /\ categoryJobs w = ∅ /\ globalScheduleJob w = None.

(** *** Stopping and starting tasks of one kind leaves the other kinds alone *)

Lemma live_stop_unrelated (Q : Callback -> Prop) (ts : list Task) (h0 : nat) :
  ~ live Q ts h0 -> forall h, live Q (alter stopTask h0 ts) h <-> live Q ts h.
Proof.
  intros Hno h. rewrite live_stop. split; [tauto|].
  intros Hl. split; [|exact Hl]. intros ->. contradiction.
Qed.

Lemma live_snoc_unrelated (Q : Callback -> Prop) (ts : list Task) (t : Task) :
  ~ Q (task_callback t) -> forall h, live Q (ts ++ [t]) h <-> live Q ts h.
Proof. intros Hno h. rewrite live_snoc. tauto. Qed.

Lemma category_not_site key k cb : isCategoryCallbackAt key cb -> ~ isSiteCallbackOf k cb.
Proof. intros (c & -> & _) (s & Hs & _). discriminate Hs. Qed.

Lemma category_not_global key cb : isCategoryCallbackAt key cb -> ~ isGlobalCallback cb.
Proof. intros (c & -> & _) (g & Hg). discriminate Hg. Qed.

Lemma category_callback_key k k' cb :
  isCategoryCallbackAt k cb -> isCategoryCallbackAt k' cb -> k = k'.
Proof. intros (c & -> & <-) (c' & Heq & <-). now inversion Heq. Qed.

Lemma live_kinds_disjoint (P Q : Callback -> Prop) (ts : list Task) (h : nat) :
  (forall cb, P cb -> ~ Q cb) -> live P ts h -> ~ live Q ts h.
Proof.
  intros Hdis HP HQ. destruct (live_same_task _ _ _ _ HP HQ) as (cb & H1 & H2).
  exact (Hdis cb H1 H2).
Qed.

(** A registry of one kind stays exact when one of its jobs is stopped and
    deleted, and when a job is created and registered under a free key. *)
Lemma keyed_stop (P : string -> Callback -> Prop) (ts : list Task)
    (m : gmap string nat) (key : string) (h0 : nat) :
  (forall k k' cb, P k cb -> P k' cb -> k = k') ->
  (forall k h, m !! k = Some h <-> live (P k) ts h) ->
  m !! key = Some h0 ->
  forall k h, delete key m !! k = Some h <-> live (P k) (alter stopTask h0 ts) h.
Proof.
  intros Hfun Hinv Hkey k h.
  assert (Hlive0 : live (P key) ts h0) by now apply Hinv.
  rewrite live_stop, <- Hinv, lookup_delete.
  destruct (decide (key = k)) as [<-|Hne].
  - split; [discriminate|]. intros [Hh Hk]. congruence.
  - split; [|tauto]. intros Hk. split; [|exact Hk].
    intros ->. apply Hinv in Hk.
    destruct (live_same_task _ _ _ _ Hlive0 Hk) as (cb & H1 & H2).
    apply Hne. eapply Hfun; eassumption.
Qed.

Lemma keyed_install (P : string -> Callback -> Prop) (ts : list Task)
    (m : gmap string nat) (key : string) (t : Task) :
  (forall k k' cb, P k cb -> P k' cb -> k = k') ->
  (forall k h, m !! k = Some h <-> live (P k) ts h) ->
  m !! key = None ->
  task_running t = true ->
  P key (task_callback t) ->
  forall k h, <[key := length ts]> m !! k = Some h <-> live (P k) (ts ++ [t]) h.
Proof.
  intros Hfun Hinv Hnone Hrun HP k h.
  rewrite live_snoc, <- Hinv, lookup_insert.
  destruct (decide (key = k)) as [<-|Hne]; split.
  - intros H. inversion H; subst. right. auto.
  - intros [H|(-> & _)]; [congruence|reflexivity].
  - tauto.
  - intros [H|(_ & _ & HPk)]; [exact H|].
    exfalso. apply Hne. eapply Hfun; eassumption.
Qed.

(** *** [scheduleCategory] *)

Lemma scheduleCategory_effect (category : Category.t) (w w' : World Ext)
    (r : Completion unit) :
  scheduleCategory env category w = (r, w') ->
  let key := String.append "cat_" (Category.id category) in
  sites w' = sites w /\ categories w' = categories w /\ configs w' = configs w
  /\ dbCalls w' = dbCalls w
  /\ jobs w' = jobs w /\ globalScheduleJob w' = globalScheduleJob w
  /\ trace w' = trace w /\ ext w' = ext w /\ clock w' = clock w
  /\ ((r = Normal tt
       /\ noSchedule (Category.scheduleCron category) = false
       /\ cronError env (default [] (Category.scheduleCron category))
            (orDefault (Category.timezone category) "UTC") = None
       /\ tasks w' = (afterCategoryStop key w).1 ++ [categoryTask category]
       /\ categoryJobs w' = <[key := length (afterCategoryStop key w).1]>
                              (afterCategoryStop key w).2)
      \/ (tasks w' = (afterCategoryStop key w).1
          /\ categoryJobs w' = (afterCategoryStop key w).2
          /\ match r with
             | Normal _ => noSchedule (Category.scheduleCron category) = true
             | Thrown _ =>
                 noSchedule (Category.scheduleCron category) = false
                 /\ cronError env (default [] (Category.scheduleCron category))
                      (orDefault (Category.timezone category) "UTC") <> None
             end)).
Proof.
  unfold scheduleCategory, afterCategoryStop, bind, gets, cron_schedule, job_start,
    job_stop, logLine, modify, ret.
  simpl.
  destruct (categoryJobs w !! String.append "cat_" (Category.id category)) as [h|];
    simpl;
    (destruct (noSchedule (Category.scheduleCron category)); simpl;
     [intros H; inversion H; subst; clear H; simpl; repeat split;
      right; repeat split|]);
    (destruct (cronError env (default [] (Category.scheduleCron category))
                 (orDefault (Category.timezone category) "UTC")) eqn:Hv;
     simpl;
     [intros H; inversion H; subst; clear H; simpl; repeat split;
      right; repeat split; discriminate|]).
  all: intros H; inversion H; subst; clear H; simpl; repeat split.
  all: left; repeat split; try assumption.
  all: apply (alter_start_new _ (categoryTask category)); reflexivity.
Qed.

Lemma afterCategoryStop_facts (key : string) (w : World Ext) :
  categoryInv (tasks w) (categoryJobs w) ->
  categoryInv (afterCategoryStop key w).1 (afterCategoryStop key w).2
  /\ (afterCategoryStop key w).2 !! key = None
  /\ (forall Q : Callback -> Prop,
        (forall k cb, isCategoryCallbackAt k cb -> ~ Q cb) ->
        forall h, live Q (afterCategoryStop key w).1 h <-> live Q (tasks w) h)
  /\ (forall h, categoryJobs w !! key = Some h ->
                exists t, tasks w !! h = Some t
                          /\ (afterCategoryStop key w).1 !! h = Some (stopTask t))
  /\ (forall k h, k <> key -> categoryJobs w !! k = Some h ->
                  (afterCategoryStop key w).2 !! k = Some h
                  /\ (afterCategoryStop key w).1 !! h = tasks w !! h)
  /\ length (afterCategoryStop key w).1 = length (tasks w).
Proof.
  intros Hinv. unfold afterCategoryStop.
  destruct (categoryJobs w !! key) as [h0|] eqn:Hkey; cbn [fst snd].
  - assert (Hlive0 : live (isCategoryCallbackAt key) (tasks w) h0) by now apply Hinv.
    split; [|split; [|split; [|split; [|split]]]].
    + exact (keyed_stop isCategoryCallbackAt _ _ key h0 category_callback_key Hinv Hkey).
    + apply lookup_delete_eq.
    + intros Q Hdis. apply live_stop_unrelated.
      eapply live_kinds_disjoint; [|exact Hlive0]. intros cb. apply Hdis.
    + intros h Hh. inversion Hh; subst. destruct Hlive0 as (t & Ht & _).
      exists t. split; [exact Ht|]. rewrite list_lookup_alter_eq, Ht. reflexivity.
    + intros k h Hne Hk. split; [rewrite lookup_delete_ne; congruence|].
      apply list_lookup_alter_ne. intros ->. apply Hinv in Hk.
      destruct (live_same_task _ _ _ _ Hlive0 Hk) as (cb & H1 & H2).
      apply Hne. symmetry. eapply category_callback_key; eassumption.
    + apply length_alter.
  - split; [exact Hinv|]. split; [exact Hkey|]. split; [reflexivity|].
    split; [intros h Hh; discriminate Hh|]. split; [|reflexivity].
    intros k h _ Hk. split; [exact Hk|reflexivity].
Qed.

Lemma afterStop_live_other (key : string) (w : World Ext) (Q : Callback -> Prop) :
  siteInv (tasks w) (jobs w) ->
  (forall k cb, isSiteCallbackOf k cb -> ~ Q cb) ->
  forall h, live Q (afterStop key w).1 h <-> live Q (tasks w) h.
Proof.
  intros Hinv Hdis. unfold afterStop.
  destruct (jobs w !! key) as [h0|] eqn:Hkey; cbn [fst]; [|reflexivity].
  apply live_stop_unrelated. apply Hinv in Hkey.
  eapply live_kinds_disjoint; [|exact Hkey]. intros cb. apply Hdis.
Qed.

(** [scheduleSite] and [scheduleCategory] keep the three registries exact,
    whatever their outcome. *)
Lemma scheduleSite_exact (site : Site.t) (w w' : World Ext) (r : Completion unit) :
  scheduleSite env site w = (r, w') -> exactRegistries w -> exactRegistries w'.
Proof.
  intros Hrun [Hreg Hcat].
  split; [exact (scheduleSite_registryInv env site w w' r Hrun Hreg)|].
  destruct (scheduleSite_effect env site w w' r Hrun)
    as (_ & _ & _ & Hcj & _ & _ & _ & _ & _ & Hcase).
  destruct Hreg as [Hs _].
  intros k h. rewrite Hcj, (Hcat k h).
  assert (Hstop : live (isCategoryCallbackAt k) (afterStop (Site.id site) w).1 h
                  <-> live (isCategoryCallbackAt k) (tasks w) h).
  { apply afterStop_live_other; [exact Hs|].
    intros k' cb Hsite Hc. exact (category_not_site _ _ _ Hc Hsite). }
  destruct Hcase as [(_ & _ & _ & _ & Ht & _)|(Ht & _)]; rewrite Ht.
  - rewrite live_snoc_unrelated; [symmetry; exact Hstop|].
    intros (c & Hc & _). discriminate Hc.
  - symmetry. exact Hstop.
Qed.

Lemma scheduleCategory_exact (category : Category.t) (w w' : World Ext)
    (r : Completion unit) :
  scheduleCategory env category w = (r, w') -> exactRegistries w -> exactRegistries w'.
Proof.
  intros Hrun [[Hs Hg] Hcat].
  destruct (scheduleCategory_effect category w w' r Hrun)
    as (_ & _ & _ & _ & Hj & Hgj & _ & _ & _ & Hcase).
  set (key := String.append "cat_" (Category.id category)) in *.
  destruct (afterCategoryStop_facts key w Hcat) as (Hcat1 & Hnone & Hother & _).
  assert (Hsite : forall k h, live (isSiteCallbackOf k) (afterCategoryStop key w).1 h
                              <-> live (isSiteCallbackOf k) (tasks w) h).
  { intros k. apply Hother. intros k' cb Hc. now apply category_not_site with (key := k'). }
  assert (Hglob : forall h, live isGlobalCallback (afterCategoryStop key w).1 h
                            <-> live isGlobalCallback (tasks w) h).
  { apply Hother. intros k' cb Hc. now apply category_not_global with (key := k'). }
  unfold exactRegistries, registryInv, siteInv, globalInv. rewrite Hj, Hgj.
  destruct Hcase as [(_ & _ & _ & Ht & Hcj)|(Ht & Hcj & _)]; rewrite Ht, Hcj.
  - split; [split|].
    + intros k h. rewrite live_snoc_unrelated; [rewrite Hsite; apply Hs|].
      intros (s & Hc & _). discriminate Hc.
    + intros h. rewrite live_snoc_unrelated; [rewrite Hglob; apply Hg|].
      intros (c & Hc). discriminate Hc.
    + unfold categoryInv.
      apply (keyed_install isCategoryCallbackAt _ _ key (categoryTask category)
               category_callback_key Hcat1 Hnone eq_refl).
      exists category. split; reflexivity.
  - split; [split|].
    + intros k h. rewrite Hsite. apply Hs.
    + intros h. rewrite Hglob. apply Hg.
    + exact Hcat1.
Qed.

Lemma scheduleCategory_ignores_configs (category : Category.t) (w : World Ext)
    (rows : list ScheduleConfig.t) :
  scheduleCategory env category (setConfigs rows w)
  = (fst (scheduleCategory env category w),
     setConfigs rows (snd (scheduleCategory env category w))).
Proof.
  unfold scheduleCategory, bind, gets, cron_schedule, job_start, job_stop, logLine,
    modify, ret.
  simpl.
  destruct (categoryJobs w !! String.append "cat_" (Category.id category)) as [h|];
    simpl;
    (destruct (noSchedule (Category.scheduleCron category)); simpl; [reflexivity|]);
    (destruct (cronError env (default [] (Category.scheduleCron category))
                 (orDefault (Category.timezone category) "UTC"));
     reflexivity).
Qed.

(** X1. [scheduleCategory] leaves at most one live job for the category:
    the job registered before the call is stopped, and afterwards a job is
    live exactly when the category's expression is neither null, empty nor
    blank and node-cron accepts it together with the category's time zone
    (the call rejects exactly when node-cron rejects the expression or the
    time zone of a category that has a schedule, and the category is then
    left without a job). The job carries the category's expression and time
    zone. The
    call makes no store call and its outcome does not depend on the global
    configuration rows; site jobs and the global job are left as they are. *)
Theorem upsert_category_job (category : Category.t) (w w' : World Ext)
    (r : Completion unit) :
  exactRegistries w ->
  scheduleCategory env category w = (r, w') ->
  let key := String.append "cat_" (Category.id category) in
  exactRegistries w'
  /\ (forall h1 h2, liveCategoryJob w' key h1 -> liveCategoryJob w' key h2 -> h1 = h2)
  /\ (forall h, categoryJobs w !! key = Some h ->
                ~ liveCategoryJob w' key h
                /\ exists t, tasks w' !! h = Some t /\ task_running t = false)
  /\ ((exists h, liveCategoryJob w' key h)
      <-> noSchedule (Category.scheduleCron category) = false
          /\ cronError env (default [] (Category.scheduleCron category))
               (orDefault (Category.timezone category) "UTC") = None)
  /\ (forall h, liveCategoryJob w' key h -> tasks w' !! h = Some (categoryTask category))
  /\ (r = Normal tt
      <-> (noSchedule (Category.scheduleCron category) = false ->
           cronError env (default [] (Category.scheduleCron category))
             (orDefault (Category.timezone category) "UTC") = None))
  /\ dbCalls w' = dbCalls w
  /\ jobs w' = jobs w /\ globalScheduleJob w' = globalScheduleJob w
  /\ (forall rows, scheduleCategory env category (setConfigs rows w)
                   = (r, setConfigs rows w')).
Proof.
  intros Hinv Hrun key.
  pose proof (scheduleCategory_exact category w w' r Hrun Hinv) as Hinv'.
  destruct Hinv as [_ Hcat]. destruct Hinv' as [Hreg' Hcat'].
  destruct (scheduleCategory_effect category w w' r Hrun)
    as (_ & _ & _ & Hdb & Hj & Hg & _ & _ & _ & Hcase).
  fold key in Hcase.
  destruct (afterCategoryStop_facts key w Hcat) as (_ & Hnone & _ & Hold & _ & _).
  assert (Hstopped : forall h, categoryJobs w !! key = Some h ->
            exists t, tasks w' !! h = Some t /\ task_running t = false).
  { intros h Hh. destruct (Hold h Hh) as (t & _ & Ht). exists (stopTask t).
    split; [|reflexivity].
    destruct Hcase as [(_ & _ & _ & Htasks & _)|(Htasks & _)]; rewrite Htasks;
      [|exact Ht].
    rewrite lookup_app_l; [exact Ht|]. eapply lookup_lt_Some; exact Ht. }
  split; [split; assumption|].
  split; [intros h1 h2 H1 H2; apply Hcat' in H1, H2; congruence|].
  split; [|split; [|split; [|split; [|split; [exact Hdb|split; [exact Hj|split;
    [exact Hg|]]]]]]].
  - intros h Hh. split; [|now apply Hstopped].
    intros (t & Ht & Hrun' & _). destruct (Hstopped h Hh) as (t' & Ht' & Hoff).
    congruence.
  - destruct Hcase as [(_ & Hsch & Hok & _ & Hcj)|(_ & Hcj & Hr)].
    + split; [auto|]. intros _. exists (length (afterCategoryStop key w).1).
      apply Hcat'. rewrite Hcj. apply lookup_insert_eq.
    + split.
      * intros (h & Hl). apply Hcat' in Hl. rewrite Hcj in Hl. congruence.
      * intros [Hsch Hok]. destruct r as [[]|e]; [congruence|].
        destruct Hr as [_ Hbad]. contradiction.
  - intros h Hl. apply Hcat' in Hl.
    destruct Hcase as [(_ & _ & _ & Ht & Hcj)|(_ & Hcj & _)]; rewrite Hcj in Hl.
    + rewrite lookup_insert_eq in Hl. inversion Hl; subst.
      rewrite Ht, lookup_app_r by lia. now rewrite Nat.sub_diag.
    + congruence.
  - destruct Hcase as [(-> & _ & Hok & _)|(_ & _ & Hr)].
    + split; auto.
    + destruct r as [[]|e].
      * split; [intros _ Hs; congruence|reflexivity].
      * destruct Hr as [Hsch Hbad]. split; [discriminate|].
        intros Himp. exfalso. apply Hbad, Himp, Hsch.
  - intros rows. rewrite scheduleCategory_ignores_configs, Hrun. reflexivity.
Qed.

(** *** The callbacks *)

Lemma sameJobs_refl (w : World Ext) : sameJobs w w.
Proof. repeat split. Qed.

Lemma sameJobs_trans (w1 w2 w3 : World Ext) :
  sameJobs w1 w2 -> sameJobs w2 w3 -> sameJobs w1 w3.
Proof.
  unfold sameJobs. intros (?&?&?&?) (?&?&?&?). repeat split; congruence.
Qed.

Lemma sameJobs_exact (w w' : World Ext) :
  sameJobs w w' -> exactRegistries w -> exactRegistries w'.
Proof.
  intros (Ht & Hj & Hc & Hg) [[Hs Hgl] Hcat].
  unfold exactRegistries, registryInv. rewrite Ht, Hj, Hc, Hg. auto.
Qed.

Lemma siteTick_run (site : Site.t) (w : World Ext) :
  exists w',
    siteTick env site w = (Normal tt, w')
    /\ trace w' = trace w ++ siteDelta site w
    /\ sameJobs w w'
    /\ sites w' = sites w /\ categories w' = categories w /\ configs w' = configs w.
Proof.
  unfold siteTick, siteDelta, tryCatch, bind, site_findUnique, prisma,
    callCheckSite, logLine, modify, individualOptions.
  destruct (dbFault env (dbCalls w)) as [e|].
  { eexists. split; [reflexivity|]. simpl. rewrite app_nil_r. repeat split. }
  simpl. destruct (List.find (siteHasId (Site.id site)) (sites w)) as [latest|].
  2:{ eexists. split; [reflexivity|]. simpl. rewrite app_nil_r. repeat split. }
  simpl. destruct (checkSite env latest _ (ext w)) as [[r|e] x]; simpl;
    eexists; (split; [reflexivity|]); simpl; rewrite <- ?app_assoc; repeat split.
Qed.

Lemma categoryTick_run (category : Category.t) (w : World Ext) :
  exists w',
    categoryTick env category w = (Normal tt, w')
    /\ trace w' = trace w ++ categoryDelta env category w
    /\ sameJobs w w'
    /\ sites w' = sites w /\ categories w' = categories w /\ configs w' = configs w.
Proof.
  unfold categoryTick, categoryDelta, tryCatch.
  unfold bind at 1. unfold category_findUnique, prisma.
  destruct (dbFault env (dbCalls w)) as [e|].
  { eexists. split; [reflexivity|]. simpl. rewrite app_nil_r. repeat split. }
  cbv beta iota. set (w1 := setDbCalls _ w).
  change (categories w1) with (categories w). change (sites w1) with (sites w).
  destruct (List.find _ (categories w)) as [c|].
  2:{ eexists. split; [reflexivity|]. simpl. rewrite app_nil_r. repeat split. }
  fold (categoryCandidates category w).
  set (cands := categoryCandidates category w).
  destruct (length cands =? 0)%nat eqn:Hlen.
  { apply Nat.eqb_eq, length_zero_iff_nil in Hlen. rewrite Hlen.
    eexists. split; [reflexivity|]. simpl. rewrite app_nil_r. repeat split. }
  unfold bind at 1. unfold logLine at 1, modify at 1. cbv beta iota.
  set (w2 := setLog _ w1).
  destruct (categoryLoop_run env cands cands 0 w2 eq_refl)
    as (w3 & Hrun & Htr & _ & _ & Hsame).
  destruct Hsame as (Hs & Hc & Hcf & _ & Ht & Hj & Hcj & Hg).
  unfold bind at 1. rewrite Hrun.
  eexists. split; [reflexivity|]. simpl.
  split; [exact Htr|]. repeat split; assumption.
Qed.

Lemma stampLastRun_sameSchedule (i : string) (now : Z) (rows : list ScheduleConfig.t) :
  Forall2 sameSchedule rows (stampLastRun i now rows).
Proof.
  induction rows as [|c rows IH]; [constructor|].
  simpl. constructor; [|exact IH].
  destruct (configHasId i c); repeat split.
Qed.

Lemma sameSchedule_refl_all (rows : list ScheduleConfig.t) :
  Forall2 sameSchedule rows rows.
Proof. induction rows; constructor; [repeat split|assumption]. Qed.

Lemma fire_frame (job : nat) (w : World Ext) :
  sameJobs w (fire env job w)
  /\ sites (fire env job w) = sites w
  /\ categories (fire env job w) = categories w
  /\ Forall2 sameSchedule (configs w) (configs (fire env job w))
  /\ ((forall t, tasks w !! job = Some t -> task_running t = false) ->
      fire env job w = w).
Proof.
  unfold fire. destruct (tasks w !! job) as [t|] eqn:Ht.
  2:{ repeat split. apply sameSchedule_refl_all. }
  destruct (task_running t) eqn:Hrun.
  2:{ repeat split. apply sameSchedule_refl_all. }
  assert (Hlast : forall P : Prop, ((forall t0, Some t = Some t0 ->
            task_running t0 = false) -> P)).
  { intros P H. specialize (H t eq_refl). congruence. }
  unfold runCallback. destruct (task_callback t) as [site|category|config].
  - destruct (siteTick_run site w) as (w' & Heq & _ & Hj & Hs & Hc & Hcf).
    rewrite Heq. cbn [snd]. split; [exact Hj|]. split; [exact Hs|].
    split; [exact Hc|]. split; [rewrite Hcf; apply sameSchedule_refl_all|apply Hlast].
  - destruct (categoryTick_run category w) as (w' & Heq & _ & Hj & Hs & Hc & Hcf).
    rewrite Heq. cbn [snd]. split; [exact Hj|]. split; [exact Hs|].
    split; [exact Hc|]. split; [rewrite Hcf; apply sameSchedule_refl_all|apply Hlast].
  - destruct (globalTick env config w) as [firing w'] eqn:Heq.
    apply globalTick_inv in Heq. cbn [snd].
    destruct Heq as (Hs & Hc & Htk & Hj & Hcj & Hg & Hcase).
    split; [repeat split; assumption|]. split; [exact Hs|]. split; [exact Hc|].
    split; [|apply Hlast].
    destruct firing.
    + destruct Hcase as (_ & _ & -> & _). apply sameSchedule_refl_all.
    + destruct Hcase as (latest & _ & _ & _ & _ & _ & _ & ->).
      apply stampLastRun_sameSchedule.
    + destruct Hcase as (-> & _). apply sameSchedule_refl_all.
Qed.

(** X2. Whatever job fires and whatever the collaborators answer, the
    firing creates, stops and re-registers no job and writes neither the site
    table nor the category table; the configuration table keeps its rows, in
    order, and they differ from before at most in [lastRun]. A handle that is
    not a started task fires nothing at all. *)
Theorem firing_leaves_jobs_and_schedules (job : nat) (w : World Ext) :
  sameJobs w (fire env job w)
  /\ sites (fire env job w) = sites w
  /\ categories (fire env job w) = categories w
  /\ Forall2 sameSchedule (configs w) (configs (fire env job w))
  /\ ((forall t, tasks w !! job = Some t -> task_running t = false) ->
      fire env job w = w).
Proof. exact (fire_frame job w). Qed.

(** *** The registries through every operation *)

Lemma scheduleEach_exact :
  forall (l : list Site.t) (w w' : World Ext) (r : Completion unit),
    forOf l (scheduleSite env) w = (r, w') ->
    exactRegistries w ->
    exactRegistries w' /\ sameTables w w'.
Proof.
  induction l as [|site l IH]; intros w w' r Hrun Hinv.
  - inversion Hrun; subst. split; [exact Hinv|repeat split].
  - cbn [forOf] in Hrun. unfold bind in Hrun.
    destruct (scheduleSite env site w) as [r1 w1] eqn:Hsite.
    pose proof (scheduleSite_exact site w w1 r1 Hsite Hinv) as Hinv1.
    destruct (scheduleSite_effect env site w w1 r1 Hsite) as (Hs & Hc & Hcf & _).
    destruct r1 as [[]|e].
    + destruct (IH w1 w' r Hrun Hinv1) as (Hinv' & Hs' & Hc' & Hcf').
      split; [exact Hinv'|]. repeat split; congruence.
    + inversion Hrun; subst. split; [exact Hinv1|]. repeat split; assumption.
Qed.

Lemma categoriesEach_exact :
  forall (l : list Category.t) (w w' : World Ext) (r : Completion unit),
    forOf l (scheduleCategory env) w = (r, w') ->
    exactRegistries w ->
    exactRegistries w' /\ sameTables w w' /\ jobs w' = jobs w
    /\ globalScheduleJob w' = globalScheduleJob w.
Proof.
  induction l as [|c l IH]; intros w w' r Hrun Hinv.
  - inversion Hrun; subst. split; [exact Hinv|repeat split].
  - cbn [forOf] in Hrun. unfold bind in Hrun.
    destruct (scheduleCategory env c w) as [r1 w1] eqn:Hcat.
    pose proof (scheduleCategory_exact c w w1 r1 Hcat Hinv) as Hinv1.
    destruct (scheduleCategory_effect c w w1 r1 Hcat)
      as (Hs & Hc & Hcf & _ & Hj & Hg & _).
    destruct r1 as [[]|e].
    + destruct (IH w1 w' r Hrun Hinv1) as (Hinv' & (Hs' & Hc' & Hcf') & Hj' & Hg').
      split; [exact Hinv'|]. repeat split; congruence.
    + inversion Hrun; subst. split; [exact Hinv1|]. repeat split; assumption.
Qed.

Lemma rescheduleAllSites_exact (w w' : World Ext) (r : Completion unit) :
  rescheduleAllSites env w = (r, w') ->
  exactRegistries w ->
  exactRegistries w' /\ sameTables w w'.
Proof.
  unfold rescheduleAllSites, bind, site_findMany, prisma.
  destruct (dbFault env (dbCalls w)) as [e|].
  { intros H Hinv. inversion H; subst. split; [exact Hinv|repeat split]. }
  intros Hrun Hinv. apply scheduleEach_exact in Hrun; exact Hrun || exact Hinv.
Qed.

Lemma scheduleAllCategories_exact (w w' : World Ext) (r : Completion unit) :
  scheduleAllCategories env w = (r, w') ->
  exactRegistries w ->
  exactRegistries w' /\ sameTables w w' /\ jobs w' = jobs w
  /\ globalScheduleJob w' = globalScheduleJob w.
Proof.
  unfold scheduleAllCategories, bind, category_findMany, prisma.
  destruct (dbFault env (dbCalls w)) as [e|].
  { intros H Hinv. inversion H; subst. split; [exact Hinv|repeat split]. }
  intros Hrun Hinv. apply categoriesEach_exact in Hrun; exact Hrun || exact Hinv.
Qed.

Lemma scheduleAll_exact (w w' : World Ext) (r : Completion unit) :
  scheduleAll env w = (r, w') ->
  exactRegistries w ->
  exactRegistries w' /\ sameTables w w'.
Proof.
  unfold scheduleAll. unfold bind at 1. unfold site_findMany, prisma.
  destruct (dbFault env (dbCalls w)) as [e|].
  { intros H Hinv. inversion H; subst. split; [exact Hinv|repeat split]. }
  cbv beta iota. set (w0 := setDbCalls _ w). change (sites w0) with (sites w).
  unfold bind at 1.
  destruct (forOf (sites w) (scheduleSite env) w0) as [r1 w1] eqn:Hsites.
  intros Hrun Hinv.
  destruct (scheduleEach_exact _ _ _ _ Hsites Hinv) as (Hinv1 & Hs1 & Hc1 & Hcf1).
  change (sites w0) with (sites w) in Hs1.
  change (categories w0) with (categories w) in Hc1.
  change (configs w0) with (configs w) in Hcf1.
  destruct r1 as [[]|e].
  - destruct (scheduleAllCategories_exact _ _ _ Hrun Hinv1)
      as (Hinv' & (Hs & Hc & Hcf) & _).
    split; [exact Hinv'|]. repeat split; congruence.
  - inversion Hrun; subst. split; [exact Hinv1|]. repeat split; assumption.
Qed.

Lemma stopGlobalJob_exact (w : World Ext) :
  exactRegistries w ->
  exists w',
    stopGlobalJob w = (Normal tt, w')
    /\ exactRegistries w' /\ globalScheduleJob w' = None
    /\ sameTables w w' /\ dbCalls w' = dbCalls w.
Proof.
  intros [Hreg Hcat].
  destruct (stopGlobalJob_run w Hreg) as (w' & Hrun & Hreg' & Hg & _ & Hs & Hcf & Hdb).
  exists w'. split; [exact Hrun|].
  assert (Hframe : categories w' = categories w
            /\ categoryInv (tasks w') (categoryJobs w')).
  { revert Hrun. unfold stopGlobalJob, bind, gets, job_stop, modify, ret.
    destruct Hreg as [_ Hglobal].
    destruct (globalScheduleJob w) as [g|] eqn:Hgw; intros H; inversion H; subst;
      simpl; (split; [reflexivity|]); [|exact Hcat].
    intros k h. rewrite (Hcat k h). symmetry. apply live_stop_unrelated.
    assert (Hlg : live isGlobalCallback (tasks w) g) by now apply Hglobal.
    intros Hc. destruct (live_same_task _ _ _ _ Hc Hlg) as (cb & H1 & H2).
    exact (category_not_global _ _ H1 H2). }
  destruct Hframe as [Hc Hcat'].
  split; [split; assumption|]. split; [exact Hg|]. repeat split; assumption.
Qed.

Lemma stopEntries_frame :
  forall (entries : list (string * nat)) (w w' : World Ext) (r : Completion unit),
    forOf entries
      (fun entry =>
         bind (job_stop (snd entry))
           (fun _ => modify (fun w => setJobs (delete (fst entry) (jobs w)) w))) w
    = (r, w') ->
    categories w' = categories w /\ categoryJobs w' = categoryJobs w
    /\ dbCalls w' = dbCalls w.
Proof.
  induction entries as [|[k h] l IH]; intros w w' r Hrun.
  - inversion Hrun. repeat split.
  - cbn [forOf] in Hrun. unfold bind at 1 2 in Hrun.
    unfold job_stop at 1, modify at 1 2 in Hrun. cbn [fst snd] in Hrun.
    apply IH in Hrun. exact Hrun.
Qed.

Lemma stopAll_exact (w : World Ext) :
  exactRegistries w ->
  exists w',
    stopAllIndividualJobs w = (Normal (size (jobs w)), w')
    /\ exactRegistries w' /\ jobs w' = ∅
    /\ (forall k h, ~ liveSiteJob w' k h)
    /\ (forall k h, liveCategoryJob w' k h <-> liveCategoryJob w k h)
    /\ (forall h, liveGlobalJob w' h <-> liveGlobalJob w h)
    /\ categoryJobs w' = categoryJobs w
    /\ globalScheduleJob w' = globalScheduleJob w
    /\ sameTables w w' /\ dbCalls w' = dbCalls w
    /\ length (tasks w') = length (tasks w).
Proof.
  intros [[Hsite Hglobal] Hcat].
  unfold stopAllIndividualJobs. unfold bind at 1 2 3, gets. cbv beta iota.
  destruct (stopEntries_run (map_to_list (jobs w)) w)
    as (w1 & Hrun & Hg & Hs & Hcf & Hlen & Hlive & Hin & Hout).
  assert (Hframe : categories w1 = categories w /\ categoryJobs w1 = categoryJobs w
                   /\ dbCalls w1 = dbCalls w).
  { exact (stopEntries_frame _ _ _ _ Hrun). }
  destruct Hframe as (Hc & Hcj & Hdb).
  rewrite Hrun. unfold bind, logLine, modify, ret. cbv beta iota.
  eexists. split; [reflexivity|].
  unfold exactRegistries, registryInv, siteInv, globalInv, categoryInv, liveSiteJob,
    liveCategoryJob, liveGlobalJob, sameTables. simpl.
  assert (Hreg : forall k h, jobs w !! k = Some h ->
                   k ∈ (map_to_list (jobs w)).*1 /\ h ∈ (map_to_list (jobs w)).*2).
  { intros k h Hk. apply elem_of_map_to_list in Hk.
    split; apply list_elem_of_fmap; exists (k, h); auto. }
  assert (Hhandle : forall h, h ∈ (map_to_list (jobs w)).*2 ->
                      exists k, live (isSiteCallbackOf k) (tasks w) h).
  { intros h Hh. apply list_elem_of_fmap in Hh. destruct Hh as ([k h'] & -> & Hkh).
    apply elem_of_map_to_list in Hkh. exists k. now apply Hsite. }
  assert (Hjobs : jobs w1 = ∅).
  { apply map_empty. intros k.
    destruct (decide (k ∈ (map_to_list (jobs w)).*1)) as [Hk|Hk]; [now apply Hin|].
    rewrite (Hout k Hk). destruct (jobs w !! k) as [h|] eqn:Hjk; [|reflexivity].
    destruct (Hreg k h Hjk). contradiction. }
  assert (Hnosite : forall k h, ~ live (isSiteCallbackOf k) (tasks w1) h).
  { intros k h Hl. apply Hlive in Hl. destruct Hl as [Hl Hnot].
    apply Hsite in Hl. destruct (Hreg k h Hl). contradiction. }
  assert (Hcatl : forall k h, live (isCategoryCallbackAt k) (tasks w1) h
                              <-> live (isCategoryCallbackAt k) (tasks w) h).
  { intros k h. rewrite Hlive. split; [tauto|]. intros Hl. split; [exact Hl|].
    intros Hh. destruct (Hhandle h Hh) as (k' & Hk').
    destruct (live_same_task _ _ _ _ Hl Hk') as (cb & H1 & H2).
    exact (category_not_site _ _ _ H1 H2). }
  assert (Hglobl : forall h, live isGlobalCallback (tasks w1) h
                             <-> live isGlobalCallback (tasks w) h).
  { intros h. rewrite Hlive. split; [tauto|]. intros Hl. split; [exact Hl|].
    intros Hh. destruct (Hhandle h Hh) as (k' & Hk').
    destruct (live_same_task _ _ _ _ Hk' Hl) as (cb & H1 & H2).
    exact (site_not_global _ _ H1 H2). }
  split; [split; [split|]|].
  - intros k h. rewrite Hjobs, lookup_empty. split; [discriminate|].
    intros Hl. now apply Hnosite in Hl.
  - intros h. rewrite Hg, (Hglobl h). apply Hglobal.
  - intros k h. rewrite Hcj, (Hcatl k h). apply Hcat.
  - split; [exact Hjobs|]. split; [exact Hnosite|]. split; [exact Hcatl|].
    split; [exact Hglobl|]. split; [exact Hcj|]. split; [exact Hg|].
    split; [repeat split; assumption|]. split; assumption.
Qed.

(** X3. [stopAllIndividualJobs] answers with the number of registered site
    jobs and, from exact registries, leaves no site with a live job and an
    empty [jobs]; the category jobs and the global job are as live as before
    and stay registered, and the store is not called. *)
Theorem stopAllIndividualJobs_only_site_jobs (w : World Ext) :
  exactRegistries w ->
  exists w',
    stopAllIndividualJobs w = (Normal (size (jobs w)), w')
    /\ jobs w' = ∅
    /\ (forall k h, ~ liveSiteJob w' k h)
    /\ (forall k h, liveCategoryJob w' k h <-> liveCategoryJob w k h)
    /\ (forall h, liveGlobalJob w' h <-> liveGlobalJob w h)
    /\ categoryJobs w' = categoryJobs w
    /\ globalScheduleJob w' = globalScheduleJob w
    /\ exactRegistries w'
    /\ sameTables w w' /\ dbCalls w' = dbCalls w.
Proof.
  intros Hinv.
  destruct (stopAll_exact w Hinv)
    as (w' & Hrun & Hinv' & Hj & Hs & Hc & Hg & Hcj & Hgj & Ht & Hdb & _).
  exists w'. repeat (split; [assumption|]). assumption.
Qed.

(** *** The two tiers after a reconfiguration *)

Lemma scheduleEach_unscheduled :
  forall (l : list Site.t) (w w' : World Ext),
    forOf l (scheduleSite env) w = (Normal tt, w') ->
    registryInv w ->
    NoDup (map Site.id l) ->
    forall s, In s l -> wantsJob s w = false -> jobs w' !! Site.id s = None.
Proof.
  induction l as [|site l IH]; intros w w' Hrun Hinv Hnd s Hin Hwant; [destruct Hin|].
  cbn [forOf] in Hrun. unfold bind in Hrun.
  destruct (scheduleSite env site w) as [r1 w1] eqn:Hsite.
  destruct r1 as [[]|e]; [|discriminate Hrun].
  pose proof (scheduleSite_registryInv env site w w1 _ Hsite Hinv) as Hinv1.
  destruct (scheduleSite_effect env site w w1 _ Hsite)
    as (_ & _ & Hc1 & _ & _ & _ & _ & _ & _ & Hcase).
  simpl in Hnd. apply NoDup_cons in Hnd. destruct Hnd as [Hnotin Hnd].
  rewrite list_elem_of_In in Hnotin.
  destruct Hin as [<-|Hin].
  - destruct (scheduleEach_run env l w1 w' _ Hrun Hinv1) as (_ & _ & _ & _ & Hkeep & _).
    destruct (Hkeep (Site.id site) Hnotin) as [Hj _]. rewrite Hj.
    destruct Hcase as [(_ & _ & Hyes & _)|(_ & Hjobs & _)]; [congruence|].
    rewrite Hjobs. destruct Hinv as [Hs _].
    now destruct (afterStop_siteInv (Site.id site) w Hs) as (_ & Hnone & _).
  - apply (IH w1 w' Hrun Hinv1 Hnd s Hin).
    unfold wantsJob in *. now rewrite Hc1.
Qed.



(** *** Reconfiguration, whatever its outcome *)

Lemma sameTables_refl (w : World Ext) : sameTables w w.
Proof. repeat split. Qed.

Lemma sameTables_trans (w1 w2 w3 : World Ext) :
  sameTables w1 w2 -> sameTables w2 w3 -> sameTables w1 w3.
Proof. unfold sameTables. intros (?&?&?) (?&?&?). repeat split; congruence. Qed.

Lemma exactRegistries_fresh (w : World Ext) :
  tasks w = [] -> jobs w = ∅ -> categoryJobs w = ∅ -> globalScheduleJob w = None ->
  exactRegistries w.
Proof.
  intros Ht Hj Hc Hg. split; [now apply registryInv_fresh|].
  intros k h. rewrite Hc, lookup_empty. split; [discriminate|].
  intros Hl. apply live_lt in Hl. rewrite Ht in Hl. simpl in Hl. lia.
Qed.

Lemma startGlobalJob_frame (config : ScheduleConfig.t) (w w' : World Ext)
    (r : Completion unit) :
  startGlobalJob env config w = (r, w') ->
  sameTables w w' /\ categoryJobs w' = categoryJobs w /\ jobs w' = jobs w
  /\ dbCalls w' = dbCalls w
  /\ (forall e, r = Thrown e ->
        tasks w' = tasks w /\ globalScheduleJob w' = globalScheduleJob w).
Proof.
  unfold startGlobalJob, bind, cron_schedule, job_start, logLine, modify, ret. simpl.
  destruct (cronError env _ _); intros H; inversion H; subst; clear H; simpl;
    repeat split; discriminate.
Qed.

Lemma startGlobalJob_exact (config : ScheduleConfig.t) (w w' : World Ext)
    (r : Completion unit) :
  startGlobalJob env config w = (r, w') ->
  exactRegistries w -> globalScheduleJob w = None ->
  exactRegistries w' /\ sameTables w w'
  /\ (forall e, r = Thrown e -> globalScheduleJob w' = None).
Proof.
  intros Hrun [Hreg Hcat] Hnone.
  destruct (startGlobalJob_frame config w w' r Hrun) as (Ht & Hcj & Hj & _ & Hthrown).
  split; [|split; [exact Ht|]].
  - destruct r as [[]|e].
    + destruct (startGlobalJob_registry env config w w' Hrun Hreg Hnone) as (Hreg' & _).
      destruct (startGlobalJob_run env config w w' Hrun) as (_ & Htasks & _).
      split; [exact Hreg'|]. intros k h. rewrite Hcj, Htasks, (Hcat k h).
      symmetry. apply live_snoc_unrelated. intros (c & Hc & _). discriminate Hc.
    + destruct (Hthrown e eq_refl) as [Htasks Hg].
      apply (sameJobs_exact w); [repeat split; assumption|split; assumption].
  - intros e He. destruct (Hthrown e He) as [_ Hg]. congruence.
Qed.

(** [scheduleGlobalTask] keeps the three registries exact and writes no
    table, whatever its outcome; when it rejects, no global job is left. *)
Lemma scheduleGlobalTask_exact (config : option ScheduleConfig.t) (w w' : World Ext)
    (r : Completion unit) :
  scheduleGlobalTask env config w = (r, w') ->
  exactRegistries w ->
  exactRegistries w' /\ sameTables w w'
  /\ (forall e, r = Thrown e -> globalScheduleJob w' = None).
Proof.
  intros Hrun Hinv. unfold scheduleGlobalTask in Hrun. unfold bind at 1 in Hrun.
  destruct (stopGlobalJob_exact w Hinv) as (w1 & Hstop & Hinv1 & Hg1 & Ht1 & _).
  rewrite Hstop in Hrun.
  assert (Hre : forall wl r' w'',
            rescheduleAllSites env wl = (r', w'') ->
            exactRegistries wl -> sameTables w wl -> globalScheduleJob wl = None ->
            exactRegistries w'' /\ sameTables w w'' /\ globalScheduleJob w'' = None).
  { intros wl r' w'' Hrun' Hinvl Htl Hgl.
    destruct (rescheduleAllSites_exact wl w'' r' Hrun' Hinvl) as [Hinv'' Ht''].
    destruct Hinvl as [Hregl _].
    destruct (rescheduleAllSites_run env wl w'' r' Hrun' Hregl) as (_ & _ & _ & Hg'' & _).
    split; [exact Hinv''|]. split; [now apply (sameTables_trans _ wl)|congruence]. }
  assert (Hstart : forall c wl r',
            startGlobalJob env c wl = (r', w') ->
            exactRegistries wl -> sameTables w wl -> globalScheduleJob wl = None ->
            exactRegistries w' /\ sameTables w w'
            /\ (forall e, r' = Thrown e -> globalScheduleJob w' = None)).
  { intros c wl r' Hrun' Hinvl Htl Hgl.
    destruct (startGlobalJob_exact c wl w' r' Hrun' Hinvl Hgl) as (Hinv' & Ht' & Hthrown).
    split; [exact Hinv'|]. split; [now apply (sameTables_trans _ wl)|exact Hthrown]. }
  assert (Hoff : forall wl,
            rescheduleAllSites env wl = (r, w') ->
            exactRegistries wl -> sameTables w wl -> globalScheduleJob wl = None ->
            exactRegistries w' /\ sameTables w w'
            /\ (forall e, r = Thrown e -> globalScheduleJob w' = None)).
  { intros wl Hrun' Hinvl Htl Hgl.
    destruct (Hre wl r w' Hrun' Hinvl Htl Hgl) as (H1 & H2 & H3). auto. }
  destruct config as [c|].
  - destruct (ScheduleConfig.enabled c); cbn [negb] in Hrun.
    + destruct (ScheduleConfig.overrideIndividual c).
      * unfold bind at 1 2 3 in Hrun. unfold logLine at 1, modify at 1 in Hrun.
        cbv beta iota in Hrun.
        set (w2 := setLog _ w1) in Hrun.
        destruct (stopAll_exact w2 Hinv1)
          as (w3 & Hall & Hinv3 & _ & _ & _ & _ & _ & Hg3 & Ht3 & _).
        rewrite Hall in Hrun. unfold ret in Hrun. cbv beta iota in Hrun.
        apply (Hstart c w3 r Hrun Hinv3).
        -- apply (sameTables_trans _ w1); [exact Ht1|exact Ht3].
        -- rewrite Hg3. exact Hg1.
      * unfold bind at 1 2 in Hrun. unfold logLine at 1, modify at 1 in Hrun.
        cbv beta iota in Hrun.
        set (w2 := setLog _ w1) in Hrun.
        destruct (rescheduleAllSites env w2) as [r3 w3] eqn:Hre3.
        destruct (Hre w2 r3 w3 Hre3 Hinv1 Ht1 Hg1) as (Hinv3 & Ht3 & Hg3).
        destruct r3 as [[]|e].
        -- apply (Hstart c w3 r Hrun Hinv3 Ht3 Hg3).
        -- inversion Hrun; subst. auto.
    + unfold bind at 1 in Hrun. unfold logLine at 1, modify at 1 in Hrun.
      cbv beta iota in Hrun. apply (Hoff _ Hrun Hinv1 Ht1 Hg1).
  - unfold bind at 1 in Hrun. unfold logLine at 1, modify at 1 in Hrun.
    cbv beta iota in Hrun. apply (Hoff _ Hrun Hinv1 Ht1 Hg1).
Qed.

(** *** The schedule-configuration handlers *)

Lemma updateScheduleConfigHandler_unfold (body : ScheduleConfigBody) (w : World Ext) :
  updateScheduleConfigHandler env body w
  = if (body_hour body <? 0) || (23 <? body_hour body)
       || (body_minute body <? 0) || (59 <? body_minute body)
       || (body_interval body <? 5) || (300 <? body_interval body)
    then (ReplyError 400 "参数无效：hour(0-23), minute(0-59), interval(5-300秒)", w)
    else
      match upsertConfig body w with
      | (Normal config, w1) =>
          match scheduleGlobalTask env (Some config) w1 with
          | (Normal _, w2) => (ReplyOk config, w2)
          | (Thrown error, w2) =>
              (ReplyError 500 "更新定时配置失败",
               snd (logLine Error (message error) w2))
          end
      | (Thrown error, w1) =>
          (ReplyError 500 "更新定时配置失败", snd (logLine Error (message error) w1))
      end.
Proof.
  unfold updateScheduleConfigHandler, upsertConfig.
  destruct ((body_hour body <? 0) || (23 <? body_hour body)
            || (body_minute body <? 0) || (59 <? body_minute body)
            || (body_interval body <? 5) || (300 <? body_interval body));
    [reflexivity|].
  unfold bind, ret.
  destruct (scheduleConfig_findFirst env w) as [[existing|e] w0]; [|reflexivity].
  destruct existing as [c|].
  - destruct (scheduleConfig_update env (ScheduleConfig.id c) (applyBody body) w0)
      as [[config|e] w1]; [|reflexivity].
    destruct (scheduleGlobalTask env (Some config) w1) as [[[]|e] w2]; reflexivity.
  - destruct (scheduleConfig_create env body w0) as [[config|e] w1]; [|reflexivity].
    destruct (scheduleGlobalTask env (Some config) w1) as [[[]|e] w2]; reflexivity.
Qed.

Lemma upsertConfig_run (body : ScheduleConfigBody) (w w1 : World Ext)
    (r : Completion ScheduleConfig.t) :
  upsertConfig body w = (r, w1) ->
  sameJobs w w1 /\ sites w1 = sites w /\ categories w1 = categories w
  /\ trace w1 = trace w /\ ext w1 = ext w
  /\ match r with
     | Normal config =>
         config = applyBody body (previousRow w)
         /\ head (configs w1) = Some config
         /\ length (configs w1) = Nat.max 1 (length (configs w))
         /\ dbFault env (dbCalls w) = None /\ dbFault env (S (dbCalls w)) = None
         /\ dbCalls w1 = S (S (dbCalls w))
     | Thrown e =>
         configs w1 = configs w
         /\ (dbFault env (dbCalls w) = Some e \/ dbFault env (S (dbCalls w)) = Some e)
     end.
Proof.
  unfold upsertConfig, previousRow, bind, scheduleConfig_findFirst,
    scheduleConfig_update, scheduleConfig_create, prisma.
  destruct (dbFault env (dbCalls w)) as [e|] eqn:Hf0.
  { intros H. inversion H; subst. simpl. repeat split. now left. }
  simpl.
  destruct (configs w) as [|c rows] eqn:Hrows; simpl.
  - destruct (dbFault env (S (dbCalls w))) as [e|] eqn:Hf1;
      intros H; inversion H; subst; simpl; rewrite ?Hrows; repeat split.
    now right.
  - destruct (dbFault env (S (dbCalls w))) as [e|] eqn:Hf1.
    { intros H. inversion H; subst. simpl. rewrite ?Hrows. repeat split. now right. }
    assert (Hid : configHasId (ScheduleConfig.id c) c = true)
      by (unfold configHasId; apply String.eqb_refl).
    rewrite Hrows. simpl. rewrite Hid.
    intros H. inversion H; subst. simpl. rewrite ?Hid.
    repeat split; simpl; rewrite ?length_map; reflexivity.
Qed.

(** *** The two delete routes *)

Lemma deleteCategoryRoute_run (id : string) (w w' : World Ext)
    (r : Completion DeleteReply) :
  deleteCategoryRoute env id w = (r, w') ->
  sameJobs w w' /\ configs w' = configs w /\ trace w' = trace w /\ ext w' = ext w
  /\ (r = Normal Deleted ->
      List.find (categoryHasId id) (categories w') = None
      /\ (forall s, In s (sites w') -> inCategory id s = false))
  /\ (dbFault env (dbCalls w) = None -> dbFault env (S (dbCalls w)) = None ->
      r = match List.find (categoryHasId id) (categories w) with
          | Some _ => Normal Deleted
          | None => Normal (NotFound "分类不存在")
          end).
Proof.
  unfold deleteCategoryRoute, tryCatch, bind, site_uncategorize, category_delete,
    prisma, exported_categoryJobs, ret.
  destruct (dbFault env (dbCalls w)) as [e|] eqn:Hf0.
  { cbn [dbCalls setDbCalls]. destruct (isP2025 e);
      intros H; inversion H; subst; simpl; repeat split; discriminate. }
  simpl.
  destruct (dbFault env (S (dbCalls w))) as [e|] eqn:Hf1.
  { destruct (isP2025 e);
      intros H; inversion H; subst; simpl; repeat split; discriminate. }
  destruct (List.find (categoryHasId id) (categories w)) as [c|] eqn:Hfind.
  - intros H. inversion H; subst. simpl. repeat split.
    + destruct (List.find (categoryHasId id)
                  (List.filter (fun c0 => negb (categoryHasId id c0)) (categories w)))
        as [c'|] eqn:Hfind'; [|reflexivity].
      apply find_some in Hfind'. destruct Hfind' as [Hin Hid].
      apply filter_In in Hin. destruct Hin as [_ Hno]. rewrite Hid in Hno. discriminate.
    + intros s Hin. apply in_map_iff in Hin. destruct Hin as (s0 & <- & _).
      destruct (inCategory id s0) eqn:Hs0; [reflexivity|exact Hs0].
  - change (isP2025 recordToDeleteNotFound) with true. cbv iota.
    intros H. inversion H; subst. simpl. repeat split; discriminate.
Qed.

Lemma deleteSiteRoute_run (id : string) (w w' : World Ext) (r : Completion unit) :
  deleteSiteRoute env id w = (r, w') ->
  sameJobs w w' /\ configs w' = configs w /\ categories w' = categories w
  /\ trace w' = trace w /\ ext w' = ext w
  /\ (r = Normal tt ->
      List.find (siteHasId id) (sites w') = None
      /\ sites w' = List.filter (fun s => negb (siteHasId id s)) (sites w))
  /\ ((forall n, dbFault env n = None) ->
      r = match List.find (siteHasId id) (sites w) with
          | Some _ => Normal tt
          | None => Thrown recordToDeleteNotFound
          end).
Proof.
  unfold deleteSiteRoute, bind, history_deleteMany, site_delete, prisma, ret.
  destruct (dbFault env (dbCalls w)) as [e|] eqn:Hf0.
  { intros H. inversion H; subst. simpl. repeat split; try discriminate.
    intros Hall. rewrite Hall in Hf0. discriminate. }
  simpl.
  destruct (dbFault env (S (dbCalls w))) as [e|] eqn:Hf1.
  { intros H. inversion H; subst. simpl. repeat split; try discriminate.
    intros Hall. rewrite Hall in Hf1. discriminate. }
  simpl.
  destruct (dbFault env (S (S (dbCalls w)))) as [e|] eqn:Hf2.
  { intros H. inversion H; subst. simpl. repeat split; try discriminate.
    intros Hall. rewrite Hall in Hf2. discriminate. }
  simpl.
  destruct (List.find (siteHasId id) (sites w)) as [s|] eqn:Hfind.
  - intros H. inversion H; subst. simpl. repeat split.
    destruct (List.find (siteHasId id)
                (List.filter (fun s0 => negb (siteHasId id s0)) (sites w)))
      as [s'|] eqn:Hfind'; [|reflexivity].
    apply find_some in Hfind'. destruct Hfind' as [Hin Hid].
    apply filter_In in Hin. destruct Hin as [_ Hno]. rewrite Hid in Hno. discriminate.
  - intros H. inversion H; subst. simpl. repeat split; discriminate.
Qed.

(** *** Start-up, and every operation on a well-formed state *)

(** A call of [onSiteUpdated] followed at once by the call it left behind
    does what an awaited [scheduleSite] does, except that a rejection is
    recorded as unhandled. *)
Lemma onSiteUpdated_settled (site : Site.t) (w : World Ext) :
  settleSiteUpdate env site (snd (onSiteUpdated site w))
  = match scheduleSite env site w with
    | (Normal _, w1) => w1
    | (Thrown e, w1) => setTrace (trace w1 ++ [UnhandledRejection e]) w1
    end.
Proof.
  unfold settleSiteUpdate, onSiteUpdated, scheduleSite, scheduleSite_untilAwait,
    bind, gets, job_stop, modify, ret.
  destruct (jobs w !! Site.id site); reflexivity.
Qed.

Lemma onSiteUpdated_exact (site : Site.t) (w : World Ext) :
  exactRegistries w ->
  exactRegistries (settleSiteUpdate env site (snd (onSiteUpdated site w)))
  /\ sameTables w (settleSiteUpdate env site (snd (onSiteUpdated site w))).
Proof.
  intros Hinv. rewrite onSiteUpdated_settled.
  destruct (scheduleSite env site w) as [r w1] eqn:Hrun.
  pose proof (scheduleSite_exact site w w1 r Hrun Hinv) as Hinv1.
  destruct (scheduleSite_effect env site w w1 r Hrun) as (Hs & Hc & Hcf & _).
  destruct r as [[]|e]; (split; [exact Hinv1|repeat split; assumption]).
Qed.

Lemma startScheduling_run (w w' : World Ext) (r : Completion unit) :
  startScheduling env w = (r, w') ->
  exactRegistries w ->
  exactRegistries w' /\ sameTables w w' /\ r = fst (scheduleAll env w).
Proof.
  intros Hrun Hinv. unfold startScheduling in Hrun. unfold bind at 1 in Hrun.
  destruct (scheduleAll env w) as [r1 w1] eqn:Hall.
  destruct (scheduleAll_exact w w1 r1 Hall Hinv) as [Hinv1 Ht1].
  destruct r1 as [[]|e]; [|inversion Hrun; subst; auto].
  cbn [fst]. revert Hrun.
  unfold tryCatch. unfold bind at 1. unfold scheduleConfig_findFirst, prisma.
  destruct (dbFault env (dbCalls w1)) as [e|].
  { intros H. inversion H; subst. split; [exact Hinv1|]. split; [exact Ht1|reflexivity]. }
  set (w2 := setDbCalls _ w1). change (configs w2) with (configs w1).
  destruct (head (configs w1)) as [config|].
  - unfold bind at 1.
    destruct (scheduleGlobalTask env (Some config) w2) as [r3 w3] eqn:Hglobal.
    destruct (scheduleGlobalTask_exact (Some config) w2 w3 r3 Hglobal Hinv1)
      as (Hinv3 & Ht3 & _).
    assert (Ht : sameTables w w3) by (apply (sameTables_trans _ w1); assumption).
    destruct r3 as [[]|e]; intros H; inversion H; subst;
      (split; [exact Hinv3|split; [exact Ht|reflexivity]]).
  - intros H. inversion H; subst. split; [exact Hinv1|]. split; [exact Ht1|reflexivity].
Qed.

Lemma scheduleEach_fails :
  forall (l : list Site.t) (w : World Ext),
    (forall n, dbFault env n = None) ->
    overrides (head (configs w)) = false ->
    (exists s, In s l /\ noSchedule (Site.scheduleCron s) = false
               /\ cronError env (default [] (Site.scheduleCron s))
                    (orDefault (Site.timezone s) "UTC") <> None) ->
    exists e w', forOf l (scheduleSite env) w = (Thrown e, w')
                 /\ categoryJobs w' = categoryJobs w.
Proof.
  induction l as [|site l IH]; intros w Hf Hov (s & Hin & Hsch & Hbad);
    [destruct Hin|].
  cbn [forOf]. unfold bind.
  destruct (scheduleSite env site w) as [r1 w1] eqn:Hsite.
  destruct (scheduleSite_effect env site w w1 r1 Hsite)
    as (_ & _ & Hc1 & Hcj1 & _ & _ & _ & _ & _ & Hcase).
  destruct r1 as [[]|e]; [|exists e, w1; auto].
  destruct Hin as [<-|Hin].
  - exfalso. assert (Hwant : wantsJob site w = true) by (apply wantsJob_spec; auto).
    destruct Hcase as [(_ & _ & _ & Hok & _)|(_ & _ & _ & Hno)]; congruence.
  - destruct (IH w1 Hf) as (e & w' & Hrun & Hcj).
    + now rewrite Hc1.
    + exists s. auto.
    + exists e, w'. split; [exact Hrun|congruence].
Qed.

Lemma categoriesEach_completes :
  forall (l : list Category.t) (w : World Ext),
    (forall c, In c l -> noSchedule (Category.scheduleCron c) = false ->
               cronError env (default [] (Category.scheduleCron c))
                 (orDefault (Category.timezone c) "UTC") = None) ->
    exists w', forOf l (scheduleCategory env) w = (Normal tt, w').
Proof.
  induction l as [|c l IH]; intros w Hok.
  - exists w. reflexivity.
  - destruct (scheduleCategory env c w) as [r1 w1] eqn:Hrun.
    destruct (scheduleCategory_effect c w w1 r1 Hrun)
      as (_ & _ & _ & _ & _ & _ & _ & _ & _ & Hcase).
    assert (Hr : r1 = Normal tt).
    { destruct Hcase as [(-> & _)|(_ & _ & Hr)]; [reflexivity|].
      destruct r1 as [[]|e]; [reflexivity|]. destruct Hr as [Hsch Hbad].
      exfalso. apply Hbad, Hok; [now left|exact Hsch]. }
    subst r1. destruct (IH w1) as (w' & Hrest); [intros c' Hc'; apply Hok; now right|].
    exists w'. cbn [forOf]. unfold bind. now rewrite Hrun.
Qed.

Lemma scheduleEach_categories :
  forall (l : list Site.t) (w w' : World Ext) (r : Completion unit),
    forOf l (scheduleSite env) w = (r, w') -> categories w' = categories w.
Proof.
  induction l as [|s l IH]; intros w w' r Hrun.
  - inversion Hrun. reflexivity.
  - cbn [forOf] in Hrun. unfold bind in Hrun.
    destruct (scheduleSite env s w) as [r2 w2] eqn:Hs.
    destruct (scheduleSite_effect env s w w2 r2 Hs) as (_ & Hc2 & _).
    destruct r2 as [[]|e]; [|inversion Hrun; subst; exact Hc2].
    rewrite (IH w2 w' r Hrun). exact Hc2.
Qed.

Lemma scheduleAll_outcome (w : World Ext) :
  (forall n, dbFault env n = None) ->
  ((forall s, In s (sites w) -> noSchedule (Site.scheduleCron s) = false ->
              cronError env (default [] (Site.scheduleCron s))
                (orDefault (Site.timezone s) "UTC") = None) ->
   (forall c, In c (categories w) -> noSchedule (Category.scheduleCron c) = false ->
              cronError env (default [] (Category.scheduleCron c))
                (orDefault (Category.timezone c) "UTC") = None) ->
   fst (scheduleAll env w) = Normal tt)
  /\ (overrides (head (configs w)) = false ->
      (exists s, In s (sites w) /\ noSchedule (Site.scheduleCron s) = false
                 /\ cronError env (default [] (Site.scheduleCron s))
                      (orDefault (Site.timezone s) "UTC") <> None) ->
      exists e, fst (scheduleAll env w) = Thrown e
                /\ categoryJobs (snd (scheduleAll env w)) = categoryJobs w).
Proof.
  intros Hf.
  assert (Hopen : scheduleAll env w
                  = bind (forOf (sites w) (scheduleSite env))
                      (fun _ => scheduleAllCategories env)
                      (setDbCalls (S (dbCalls w)) w)).
  { unfold scheduleAll. unfold bind at 1. unfold site_findMany, prisma.
    rewrite Hf. reflexivity. }
  rewrite Hopen. set (w0 := setDbCalls _ w). split.
  - intros Hsites Hcats.
    destruct (scheduleEach_completes env (sites w) w0 Hf Hsites) as (w1 & Hrun).
    unfold bind at 1. rewrite Hrun.
    unfold scheduleAllCategories, bind, category_findMany, prisma. rewrite Hf.
    cbv beta iota.
    assert (Hsame : categories w1 = categories w)
      by exact (scheduleEach_categories _ _ _ _ Hrun).
    set (w2 := setDbCalls _ w1). change (categories w2) with (categories w1).
    rewrite Hsame.
    destruct (categoriesEach_completes (categories w) w2 Hcats) as (w3 & Hrun3).
    rewrite Hrun3. reflexivity.
  - intros Hov Hbad.
    destruct (scheduleEach_fails (sites w) w0 Hf Hov Hbad) as (e & w1 & Hrun & Hcj).
    unfold bind. rewrite Hrun. exists e. split; [reflexivity|exact Hcj].
Qed.

Lemma running_task_registered (w : World Ext) (h : nat) (t : Task) :
  exactRegistries w ->
  tasks w !! h = Some t -> task_running t = true ->
  match task_callback t with
  | SiteCallback s => jobs w !! Site.id s = Some h
  | CategoryCallback c => categoryJobs w !! String.append "cat_" (Category.id c) = Some h
  | GlobalCallback _ => globalScheduleJob w = Some h
  end.
Proof.
  intros [[Hs Hg] Hc] Ht Hrun.
  destruct (task_callback t) as [s|c|g] eqn:Hcb.
  - apply Hs. exists t. repeat split; try assumption. exists s. auto.
  - apply Hc. exists t. repeat split; try assumption. exists c. auto.
  - apply Hg. exists t. repeat split; try assumption. exists g. auto.
Qed.

(** *** What the operations guarantee to their callers *)



(** X6. [updateScheduleConfigHandler] answers 400 exactly when the hour
    is outside 0..23, the minute outside 0..59 or the interval outside 5..300,
    and then it has called nothing and changed nothing; a configuration it
    answers with is within those bounds. *)
Theorem schedule_config_bounds (body : ScheduleConfigBody) (w : World Ext) :
  let inRange :=
    0 <= body_hour body <= 23 /\ 0 <= body_minute body <= 59
    /\ 5 <= body_interval body <= 300 in
  (~ inRange ->
   updateScheduleConfigHandler env body w
   = (ReplyError 400 "参数无效：hour(0-23), minute(0-59), interval(5-300秒)", w))
  /\ (inRange ->
      forall msg, fst (updateScheduleConfigHandler env body w) <> ReplyError 400 msg)
  /\ (forall config,
        fst (updateScheduleConfigHandler env body w) = ReplyOk config ->
        0 <= ScheduleConfig.hour config <= 23
        /\ 0 <= ScheduleConfig.minute config <= 59
        /\ 5 <= ScheduleConfig.interval config <= 300).
Proof.
  cbv zeta. rewrite updateScheduleConfigHandler_unfold.
  destruct ((body_hour body <? 0) || (23 <? body_hour body)
            || (body_minute body <? 0) || (59 <? body_minute body)
            || (body_interval body <? 5) || (300 <? body_interval body)) eqn:Hout.
  - split; [reflexivity|]. split; [|intros config H; discriminate H].
    intros Hin. exfalso.
    rewrite !orb_true_iff, !Z.ltb_lt in Hout. lia.
  - rewrite !orb_false_iff, !Z.ltb_ge in Hout.
    split; [intros Hno; exfalso; apply Hno; lia|].
    destruct (upsertConfig body w) as [r1 w1] eqn:Hup.
    destruct (upsertConfig_run body w w1 r1 Hup) as (_ & _ & _ & _ & _ & Hcase).
    destruct r1 as [config|e].
    + destruct Hcase as (-> & _).
      destruct (scheduleGlobalTask env _ w1) as [[[]|e] w2]; cbn [fst].
      * split; [discriminate|]. intros c Hc. inversion Hc; subst c. simpl. lia.
      * split; [intros _ msg H; inversion H|]. intros c Hc. discriminate Hc.
    + cbn [fst]. split; [intros _ msg H; inversion H|]. intros c Hc. discriminate Hc.
Qed.


(** X8. The handler writes the row before it reschedules and does not
    take the write back: when the store has answered and the handler still
    answers 500 (node-cron has rejected the expression of a site or the daily
    expression), the new values are in the first row of the table, and no
    global job is live any more, even when the row says enabled. *)
Theorem failed_reconfiguration_leaves_no_global_job (body : ScheduleConfigBody)
    (w w' : World Ext) (msg : string) :
  exactRegistries w ->
  dbFault env (dbCalls w) = None ->
  dbFault env (S (dbCalls w)) = None ->
  updateScheduleConfigHandler env body w = (ReplyError 500 msg, w') ->
  head (configs w') = Some (applyBody body (previousRow w))
  /\ globalScheduleJob w' = None
  /\ (forall h, ~ liveGlobalJob w' h)
  /\ exactRegistries w'
  /\ sites w' = sites w.
Proof.
  intros Hinv Hf0 Hf1. rewrite updateScheduleConfigHandler_unfold.
  destruct ((body_hour body <? 0) || (23 <? body_hour body)
            || (body_minute body <? 0) || (59 <? body_minute body)
            || (body_interval body <? 5) || (300 <? body_interval body));
    [intros H; inversion H|].
  destruct (upsertConfig body w) as [r1 w1] eqn:Hup.
  destruct (upsertConfig_run body w w1 r1 Hup) as (Hj1 & Hs1 & _ & _ & _ & Hcase).
  destruct r1 as [config|e]; [|destruct Hcase as [_ [H|H]]; congruence].
  destruct Hcase as (Hcfg & Hhead & _).
  pose proof (sameJobs_exact w w1 Hj1 Hinv) as Hinv1.
  destruct (scheduleGlobalTask env (Some config) w1) as [r2 w2] eqn:Hrun.
  destruct (scheduleGlobalTask_exact (Some config) w1 w2 r2 Hrun Hinv1)
    as (Hinv2 & (Hs2 & _ & Hcf2) & Hthrown).
  destruct r2 as [[]|e]; [discriminate|].
  intros H. inversion H; subst w'. clear H.
  specialize (Hthrown e eq_refl).
  split; [simpl; rewrite Hcf2, Hhead, Hcfg; reflexivity|].
  split; [exact Hthrown|].
  split; [|split; [exact Hinv2|simpl; congruence]].
  intros h Hl. apply Hinv2 in Hl. congruence.
Qed.

Lemma cat_key_inj (a b : string) :
  String.append "cat_" a = String.append "cat_" b -> a = b.
Proof. simpl. intros H. now inversion H. Qed.

(** X10. [DELETE /api/categories/:id] never stops the job of the
    category: the scheduler does not export [categoryJobs], so the route finds
    nothing to stop, and every task and registry is as before. When the
    category is deleted its former members belong to no category and the row
    is gone, the job registered under its key is still live, and each later
    firing of that job calls the checker on nothing. When the store answers,
    the reply is 404 exactly when no category has the id. *)
Theorem deleted_category_job_survives (id : string) (w w' : World Ext)
    (r : Completion DeleteReply) :
  deleteCategoryRoute env id w = (r, w') ->
  let key := String.append "cat_" id in
  sameJobs w w'
  /\ (forall h, liveCategoryJob w key h ->
                liveCategoryJob w' key h
                /\ categoryJobs w' !! key = categoryJobs w !! key)
  /\ (r = Normal Deleted ->
      List.find (categoryHasId id) (categories w') = None
      /\ (forall s, In s (sites w') -> Site.categoryId s <> Some id)
      /\ forall h, liveCategoryJob w' key h -> trace (fire env h w') = trace w')
  /\ (dbFault env (dbCalls w) = None -> dbFault env (S (dbCalls w)) = None ->
      r = match List.find (categoryHasId id) (categories w) with
          | Some _ => Normal Deleted
          | None => Normal (NotFound "分类不存在")
          end).
Proof.
  intros Hrun key.
  destruct (deleteCategoryRoute_run id w w' r Hrun)
    as (Hj & _ & _ & _ & Hdeleted & Hreply).
  split; [exact Hj|]. destruct Hj as (Ht & _ & Hcj & _).
  split; [|split; [|exact Hreply]].
  - intros h Hl. unfold liveCategoryJob. rewrite Ht, Hcj. auto.
  - intros Hr. destruct (Hdeleted Hr) as [Hgone Hmembers].
    split; [exact Hgone|]. split.
    + intros s Hin Hcat. specialize (Hmembers s Hin).
      unfold inCategory in Hmembers. rewrite Hcat, String.eqb_refl in Hmembers.
      discriminate Hmembers.
    + intros h (t & Hh & Hon & c & Hcb & Hkey).
      apply cat_key_inj in Hkey.
      unfold fire. rewrite Hh, Hon, Hcb. cbn [runCallback].
      destruct (categoryTick_run c w') as (w'' & Htick & Htr & _).
      rewrite Htick. cbn [snd]. rewrite Htr. unfold categoryDelta.
      rewrite Hkey, Hgone. destruct (dbFault env (dbCalls w')); apply app_nil_r.
Qed.

(** X11. [DELETE /api/sites/:id] makes three store calls and never
    reaches the scheduler: every task and registry is as before. When the site
    is deleted, no row has the id any more, the job of the site is still live
    and registered, and each later firing of it finds no row and calls the
    checker on nothing. When the store answers, the route rejects exactly when
    no site has the id. *)
Theorem deleted_site_job_survives (id : string) (w w' : World Ext)
    (r : Completion unit) :
  deleteSiteRoute env id w = (r, w') ->
  sameJobs w w'
  /\ (forall h, liveSiteJob w id h ->
                liveSiteJob w' id h /\ jobs w' !! id = jobs w !! id)
  /\ (r = Normal tt ->
      (forall s, In s (sites w') -> Site.id s <> id)
      /\ sites w' = List.filter (fun s => negb (siteHasId id s)) (sites w)
      /\ forall h, liveSiteJob w' id h -> trace (fire env h w') = trace w')
  /\ ((forall n, dbFault env n = None) ->
      r = match List.find (siteHasId id) (sites w) with
          | Some _ => Normal tt
          | None => Thrown recordToDeleteNotFound
          end).
Proof.
  intros Hrun.
  destruct (deleteSiteRoute_run id w w' r Hrun)
    as (Hj & _ & _ & _ & _ & Hdeleted & Hreply).
  split; [exact Hj|]. destruct Hj as (Ht & Hjobs & _).
  split; [|split; [|exact Hreply]].
  - intros h Hl. unfold liveSiteJob. rewrite Ht, Hjobs. auto.
  - intros Hr. destruct (Hdeleted Hr) as [Hgone Hrows].
    split; [|split; [exact Hrows|]].
    + intros s Hin Hid.
      apply (find_none _ _ Hgone) in Hin. unfold siteHasId in Hin.
      rewrite Hid, String.eqb_refl in Hin. discriminate Hin.
    + intros h (t & Hh & Hon & s & Hcb & Hkey).
      unfold fire. rewrite Hh, Hon, Hcb. cbn [runCallback].
      destruct (siteTick_run s w') as (w'' & Htick & Htr & _).
      rewrite Htick. cbn [snd]. rewrite Htr. unfold siteDelta.
      rewrite Hkey, Hgone. destruct (dbFault env (dbCalls w')); apply app_nil_r.
Qed.

(** X13. The scheduling part of start-up ends as [scheduleAll] ends: a
    failure while the global job is set up is logged and swallowed, a failure
    of [scheduleAll] is not caught. With a store that answers, start-up
    succeeds when node-cron accepts, for every site and every category that
    has a schedule, its expression together with its time zone; and one stored
    site with a schedule whose expression or time zone node-cron rejects (the
    global tier not overriding) makes start-up fail, before any category is
    scheduled. *)
Theorem startup_outcome (w : World Ext) :
  fst (startScheduling env w) = fst (scheduleAll env w)
  /\ ((forall n, dbFault env n = None) ->
      (forall s, In s (sites w) -> noSchedule (Site.scheduleCron s) = false ->
                 cronError env (default [] (Site.scheduleCron s))
                   (orDefault (Site.timezone s) "UTC") = None) ->
      (forall c, In c (categories w) -> noSchedule (Category.scheduleCron c) = false ->
                 cronError env (default [] (Category.scheduleCron c))
                   (orDefault (Category.timezone c) "UTC") = None) ->
      fst (startScheduling env w) = Normal tt)
  /\ ((forall n, dbFault env n = None) ->
      overrides (head (configs w)) = false ->
      (exists s, In s (sites w) /\ noSchedule (Site.scheduleCron s) = false
                 /\ cronError env (default [] (Site.scheduleCron s))
                      (orDefault (Site.timezone s) "UTC") <> None) ->
      exists e, fst (startScheduling env w) = Thrown e
                /\ categoryJobs (snd (startScheduling env w)) = categoryJobs w).
Proof.
  assert (Hsame : fst (startScheduling env w) = fst (scheduleAll env w)).
  { unfold startScheduling. unfold bind at 1.
    destruct (scheduleAll env w) as [[[]|e] w1]; [|reflexivity].
    unfold tryCatch. cbn [fst].
    destruct (bind _ _ w1) as [[[]|e] w2]; reflexivity. }
  split; [exact Hsame|]. split.
  - intros Hf Hsites Hcats. rewrite Hsame.
    now apply (proj1 (scheduleAll_outcome w Hf)).
  - intros Hf Hov Hbad.
    destruct (proj2 (scheduleAll_outcome w Hf) Hov Hbad) as (e & He & Hcj).
    exists e. clear Hsame. unfold startScheduling, bind.
    destruct (scheduleAll env w) as [r1 w1]. cbn [fst snd] in He, Hcj. subst r1.
    split; [reflexivity|exact Hcj].
Qed.

(** *** Blank expressions *)

Lemma trimStart_nil (s : JsString) :
  trimStart s = [] <-> forallb isWhiteSpace s = true.
Proof.
  induction s as [|c s IH]; simpl; [tauto|].
  destruct (isWhiteSpace c); simpl; [exact IH|]. split; discriminate.
Qed.

Lemma trimStart_head (s : JsString) (c : N) (s' : JsString) :
  trimStart s = c :: s' -> isWhiteSpace c = false.
Proof.
  induction s as [|a s IH]; simpl; [discriminate|].
  destruct (isWhiteSpace a) eqn:Ha; [exact IH|].
  intros H. inversion H; subst. exact Ha.
Qed.

Lemma trim_nil (s : JsString) : trim s = [] <-> forallb isWhiteSpace s = true.
Proof.
  unfold trim, trimEnd. split.
  - intros H. apply (f_equal (@rev N)) in H. rewrite rev_involutive in H.
    simpl in H. apply trimStart_nil in H. rewrite forallb_forall in H.
    apply trimStart_nil. destruct (trimStart s) as [|c s'] eqn:Hs; [reflexivity|].
    apply trimStart_head in Hs. rewrite (H c) in Hs; [discriminate|].
    apply in_rev. rewrite rev_involutive. now left.
  - intros H. apply trimStart_nil in H. now rewrite H.
Qed.

Lemma noSchedule_blank (cron : option JsString) :
  noSchedule cron = true
  <-> match cron with
      | None => True
      | Some s => forall c, In c s -> isWhiteSpace c = true
      end.
Proof.
  destruct cron as [s|]; simpl; [|tauto].
  rewrite <- forallb_forall, <- trim_nil.
  destruct s as [|c s]; simpl; [tauto|].
  destruct (trim (c :: s)); simpl; split; congruence.
Qed.

(** X14. An expression counts as no schedule exactly when it is null or
    made of white space only (the empty string included). [scheduleSite] and
    [scheduleCategory] then do exactly what they do for the same site or
    category with a null expression: the old job is stopped and none is
    created. *)
Theorem blank_schedule_is_no_schedule (site : Site.t) (category : Category.t)
    (w : World Ext) :
  (forall cron : option JsString,
     noSchedule cron = true
     <-> match cron with
         | None => True
         | Some s => forall c, In c s -> isWhiteSpace c = true
         end)
  /\ (noSchedule (Site.scheduleCron site) = true ->
      scheduleSite env site w
      = scheduleSite env
          (Site.mk (Site.id site) (Site.name site) None (Site.timezone site)
             (Site.pinned site) (Site.excludeFromBatch site) (Site.categoryId site)) w
      /\ forall h, jobs (snd (scheduleSite env site w)) !! Site.id site <> Some h)
  /\ (noSchedule (Category.scheduleCron category) = true ->
      scheduleCategory env category w
      = scheduleCategory env
          (Category.mk (Category.id category) (Category.name category) None
             (Category.timezone category)) w
      /\ forall h, categoryJobs (snd (scheduleCategory env category w))
                   !! String.append "cat_" (Category.id category) <> Some h).
Proof.
  split; [exact noSchedule_blank|]. split.
  - intros Hblank. split.
    + unfold scheduleSite, scheduleSite_untilAwait, scheduleSite_afterAwait.
      cbn [Site.id Site.scheduleCron noSchedule].
      rewrite Hblank. reflexivity.
    + intros h. destruct (scheduleSite env site w) as [r w'] eqn:Hrun.
      destruct (scheduleSite_effect env site w w' r Hrun)
        as (_ & _ & _ & _ & _ & _ & _ & _ & _ & Hcase).
      cbn [snd].
      assert (Hwant : wantsJob site w = false)
        by (unfold wantsJob; rewrite Hblank; apply andb_false_r).
      destruct Hcase as [(_ & _ & Hyes & _)|(_ & Hj & _)]; [congruence|].
      rewrite Hj. unfold afterStop.
      destruct (jobs w !! Site.id site) eqn:Hk; cbn [snd].
      * rewrite lookup_delete_eq. discriminate.
      * rewrite Hk. discriminate.
  - intros Hblank. split.
    + unfold scheduleCategory. cbn [Category.id Category.scheduleCron noSchedule].
      rewrite Hblank. reflexivity.
    + intros h. destruct (scheduleCategory env category w) as [r w'] eqn:Hrun.
      destruct (scheduleCategory_effect category w w' r Hrun)
        as (_ & _ & _ & _ & _ & _ & _ & _ & _ & Hcase).
      cbn [snd].
      destruct Hcase as [(_ & Hyes & _)|(_ & Hj & _)]; [congruence|].
      rewrite Hj. unfold afterCategoryStop.
      destruct (categoryJobs w !! String.append "cat_" (Category.id category)) eqn:Hk;
        cbn [snd].
      * rewrite lookup_delete_eq. discriminate.
      * rewrite Hk. discriminate.
Qed.

(** *** [scheduleAll] and the overlap of the batches *)

Lemma scheduleEach_partition :
  forall (l : list Site.t) (w w' : World Ext),
    forOf l (scheduleSite env) w = (Normal tt, w') ->
    registryInv w ->
    NoDup (map Site.id l) ->
    forall s, In s l ->
      ((exists h, jobs w' !! Site.id s = Some h /\ tasks w' !! h = Some (siteTask s))
       <-> wantsJob s w = true)
      /\ (wantsJob s w = false -> jobs w' !! Site.id s = None).
Proof.
  intros l w w' Hrun Hinv Hnd s Hin.
  destruct (scheduleEach_run env l w w' _ Hrun Hinv) as (_ & _ & _ & _ & _ & Hnew).
  pose proof (scheduleEach_unscheduled l w w' Hrun Hinv Hnd s Hin) as Hnone.
  split; [|exact Hnone].
  destruct (wantsJob s w) eqn:Hwant.
  - split; [reflexivity|]. intros _. apply wantsJob_spec in Hwant.
    destruct Hwant as [Hov Hsch]. exact (Hnew eq_refl Hnd Hov s Hin Hsch).
  - split; [|discriminate]. intros (h & Hh & _). rewrite (Hnone eq_refl) in Hh.
    discriminate Hh.
Qed.

Lemma scheduleCategory_others (category : Category.t) (w w' : World Ext)
    (r : Completion unit) (k : string) :
  scheduleCategory env category w = (r, w') ->
  exactRegistries w ->
  k <> String.append "cat_" (Category.id category) ->
  categoryJobs w' !! k = categoryJobs w !! k
  /\ (forall h, categoryJobs w !! k = Some h -> tasks w' !! h = tasks w !! h).
Proof.
  intros Hrun [_ Hcat] Hne.
  destruct (scheduleCategory_effect category w w' r Hrun)
    as (_ & _ & _ & _ & _ & _ & _ & _ & _ & Hcase).
  set (key := String.append "cat_" (Category.id category)) in *.
  destruct (afterCategoryStop_facts key w Hcat) as (_ & _ & _ & _ & Hkeep & Hlen).
  assert (Hk : (afterCategoryStop key w).2 !! k = categoryJobs w !! k).
  { destruct (categoryJobs w !! k) as [h|] eqn:Hkh.
    - now apply (Hkeep k h Hne).
    - unfold afterCategoryStop. destruct (categoryJobs w !! key); cbn [snd];
        [rewrite lookup_delete_ne by congruence|]; exact Hkh. }
  destruct Hcase as [(_ & _ & _ & Ht & Hj)|(Ht & Hj & _)]; rewrite Ht, Hj.
  - split; [rewrite lookup_insert_ne by congruence; exact Hk|].
    intros h Hh. rewrite lookup_app_l; [now apply (Hkeep k h Hne)|].
    rewrite Hlen. apply Hcat in Hh. eapply live_lt; exact Hh.
  - split; [exact Hk|]. intros h Hh. now apply (Hkeep k h Hne).
Qed.

Lemma categoriesEach_partition :
  forall (l : list Category.t) (w w' : World Ext) (r : Completion unit),
    forOf l (scheduleCategory env) w = (r, w') ->
    exactRegistries w ->
    (forall k, ~ In k (map (fun c => String.append "cat_" (Category.id c)) l) ->
       categoryJobs w' !! k = categoryJobs w !! k
       /\ (forall h, categoryJobs w !! k = Some h -> tasks w' !! h = tasks w !! h))
    /\ (r = Normal tt ->
        NoDup (map Category.id l) ->
        forall c, In c l ->
          ((exists h, categoryJobs w' !! String.append "cat_" (Category.id c) = Some h
                      /\ tasks w' !! h = Some (categoryTask c))
           <-> noSchedule (Category.scheduleCron c) = false)
          /\ (noSchedule (Category.scheduleCron c) = true ->
              categoryJobs w' !! String.append "cat_" (Category.id c) = None)).
Proof.
  induction l as [|category l IH]; intros w w' r Hrun Hinv.
  - inversion Hrun; subst. split; [intros k _; split; [reflexivity|auto]|].
    intros _ _ c [].
  - cbn [forOf] in Hrun. unfold bind in Hrun.
    destruct (scheduleCategory env category w) as [r1 w1] eqn:Hcat.
    pose proof (scheduleCategory_exact category w w1 r1 Hcat Hinv) as Hinv1.
    set (key := String.append "cat_" (Category.id category)).
    assert (Hothers : forall k,
              ~ In k (map (fun c => String.append "cat_" (Category.id c))
                        (category :: l)) ->
              categoryJobs w1 !! k = categoryJobs w !! k
              /\ (forall h, categoryJobs w !! k = Some h ->
                            tasks w1 !! h = tasks w !! h)).
    { intros k Hk. apply (scheduleCategory_others category w w1 r1 k Hcat Hinv).
      intros ->. apply Hk. now left. }
    destruct r1 as [[]|e].
    + destruct (IH w1 w' r Hrun Hinv1) as (Hkeep & Hnew). split.
      * intros k Hk. destruct (Hothers k Hk) as [Hj1 Ht1].
        destruct (Hkeep k) as [Hj2 Ht2]; [intros Hin; apply Hk; now right|].
        split; [congruence|]. intros h Hh. rewrite Ht2, Ht1; congruence.
      * intros -> Hnd c Hin. simpl in Hnd. apply NoDup_cons in Hnd.
        destruct Hnd as [Hnotin Hnd]. rewrite list_elem_of_In in Hnotin.
        destruct Hin as [<-|Hin]; [|exact (Hnew eq_refl Hnd c Hin)].
        assert (Hfree : ~ In key (map (fun c => String.append "cat_" (Category.id c)) l)).
        { intros Hk. apply in_map_iff in Hk. destruct Hk as (c' & Hkey & Hc').
          apply cat_key_inj in Hkey. apply Hnotin, in_map_iff. exists c'. auto. }
        destruct (Hkeep key Hfree) as [Hj2 Ht2].
        destruct (scheduleCategory_effect category w w1 _ Hcat)
          as (_ & _ & _ & _ & _ & _ & _ & _ & _ & Hcase).
        fold key in Hcase.
        destruct Hinv as [_ Hcatinv].
        destruct (afterCategoryStop_facts key w Hcatinv) as (_ & Hnone & _).
        unfold key in *. clear key.
        destruct Hcase as [(_ & Hsch & _ & Ht & Hj)|(_ & Hj & Hsch)].
        -- assert (Hreg : categoryJobs w1 !! String.append "cat_" (Category.id category)
                          = Some (length (afterCategoryStop
                                            (String.append "cat_" (Category.id category))
                                            w).1))
             by (rewrite Hj; apply lookup_insert_eq).
           split; [|congruence]. split; [auto|]. intros _.
           exists (length (afterCategoryStop
                             (String.append "cat_" (Category.id category)) w).1).
           split; [congruence|]. rewrite (Ht2 _ Hreg), Ht.
           rewrite lookup_app_r by lia. now rewrite Nat.sub_diag.
        -- assert (Hreg : categoryJobs w1 !! String.append "cat_" (Category.id category)
                          = None) by (rewrite Hj; exact Hnone).
           split; [|intros _; congruence]. split; [|congruence].
           intros (h & Hh & _). congruence.
    + inversion Hrun; subst. split; [exact Hothers|discriminate].
Qed.

Lemma scheduleCategory_keeps_site_tasks (category : Category.t) (w w' : World Ext)
    (r : Completion unit) (h : nat) (k : string) :
  scheduleCategory env category w = (r, w') ->
  exactRegistries w ->
  live (isSiteCallbackOf k) (tasks w) h ->
  tasks w' !! h = tasks w !! h.
Proof.
  intros Hrun [_ Hcat] Hl.
  destruct (scheduleCategory_effect category w w' r Hrun)
    as (_ & _ & _ & _ & _ & _ & _ & _ & _ & Hcase).
  set (key := String.append "cat_" (Category.id category)) in *.
  destruct (afterCategoryStop_facts key w Hcat) as (_ & _ & _ & _ & _ & Hlen).
  assert (Hstop : (afterCategoryStop key w).1 !! h = tasks w !! h).
  { unfold afterCategoryStop.
    destruct (categoryJobs w !! key) as [h0|] eqn:Hk; cbn [fst]; [|reflexivity].
    apply list_lookup_alter_ne. intros ->. apply Hcat in Hk.
    destruct (live_same_task _ _ _ _ Hk Hl) as (cb & H1 & H2).
    exact (category_not_site _ _ _ H1 H2). }
  destruct Hcase as [(_ & _ & _ & Ht & _)|(Ht & _)]; rewrite Ht; [|exact Hstop].
  rewrite lookup_app_l; [exact Hstop|]. rewrite Hlen. eapply live_lt; exact Hl.
Qed.

Lemma categoriesEach_keeps_site_tasks :
  forall (l : list Category.t) (w w' : World Ext) (r : Completion unit),
    forOf l (scheduleCategory env) w = (r, w') ->
    exactRegistries w ->
    forall h k, live (isSiteCallbackOf k) (tasks w) h -> tasks w' !! h = tasks w !! h.
Proof.
  induction l as [|c l IH]; intros w w' r Hrun Hinv h k Hl.
  - inversion Hrun; subst. reflexivity.
  - cbn [forOf] in Hrun. unfold bind in Hrun.
    destruct (scheduleCategory env c w) as [r1 w1] eqn:Hcat.
    pose proof (scheduleCategory_exact c w w1 r1 Hcat Hinv) as Hinv1.
    pose proof (scheduleCategory_keeps_site_tasks c w w1 r1 h k Hcat Hinv Hl) as Hsame.
    destruct r1 as [[]|e]; [|inversion Hrun; subst; exact Hsame].
    rewrite (IH w1 w' r Hrun Hinv1 h k); [exact Hsame|].
    destruct Hl as (t & Ht & Hon & Hcb). exists t. rewrite Hsame. auto.
Qed.

(** X18. After [scheduleAll] has completed from exact registries, with
    unique site ids and unique category ids: a stored site has a live job
    exactly when the stored configuration does not override and the site has a
    schedule, a stored category has a live job exactly when it has a schedule,
    each such job is the only one of its site or category and carries its
    expression and time zone, and the global job is left as it was. *)
Theorem scheduleAll_installs_every_schedule (w w' : World Ext) :
  exactRegistries w ->
  NoDup (map Site.id (sites w)) ->
  NoDup (map Category.id (categories w)) ->
  scheduleAll env w = (Normal tt, w') ->
  exactRegistries w' /\ sameTables w w'
  /\ globalScheduleJob w' = globalScheduleJob w
  /\ (forall s, In s (sites w) ->
        ((exists h, liveSiteJob w' (Site.id s) h)
         <-> overrides (head (configs w)) = false
             /\ noSchedule (Site.scheduleCron s) = false)
        /\ (forall h, liveSiteJob w' (Site.id s) h -> tasks w' !! h = Some (siteTask s)))
  /\ (forall c, In c (categories w) ->
        ((exists h, liveCategoryJob w' (String.append "cat_" (Category.id c)) h)
         <-> noSchedule (Category.scheduleCron c) = false)
        /\ (forall h, liveCategoryJob w' (String.append "cat_" (Category.id c)) h ->
                      tasks w' !! h = Some (categoryTask c))).
Proof.
  intros Hinv Hnds Hndc Hrun.
  destruct (scheduleAll_exact w w' _ Hrun Hinv) as [Hinv' Htables].
  revert Hrun. unfold scheduleAll. unfold bind at 1. unfold site_findMany, prisma.
  destruct (dbFault env (dbCalls w)) as [e|]; [discriminate|].
  cbv beta iota. set (w0 := setDbCalls _ w). change (sites w0) with (sites w).
  unfold bind at 1.
  destruct (forOf (sites w) (scheduleSite env) w0) as [r1 w1] eqn:Hsites.
  destruct r1 as [[]|e]; [|discriminate].
  intros Hcats.
  assert (Hinv0 : exactRegistries w0) by exact Hinv.
  destruct (scheduleEach_exact _ _ _ _ Hsites Hinv0) as (Hinv1 & _ & Hc1 & _).
  change (categories w0) with (categories w) in Hc1.
  destruct Hinv0 as [Hreg0 _].
  destruct (scheduleEach_run env _ _ _ _ Hsites Hreg0) as (_ & _ & _ & Hg1 & _).
  revert Hcats. unfold scheduleAllCategories, bind, category_findMany, prisma.
  destruct (dbFault env (dbCalls w1)) as [e|]; [discriminate|].
  set (w2 := setDbCalls _ w1). change (categories w2) with (categories w1).
  rewrite Hc1. intros Hcats.
  assert (Hinv2 : exactRegistries w2) by exact Hinv1.
  destruct (categoriesEach_exact _ _ _ _ Hcats Hinv2) as (_ & _ & Hj' & Hg').
  destruct (categoriesEach_partition _ _ _ _ Hcats Hinv2) as (_ & Hnew).
  pose proof Hinv' as [[Hs' _] Hc'].
  split; [exact Hinv'|]. split; [exact Htables|].
  split; [rewrite Hg'; exact Hg1|]. split.
  - intros s Hin.
    destruct (scheduleEach_partition _ _ _ Hsites Hreg0 Hnds s Hin) as [Hiff Hnone].
    change (jobs w2) with (jobs w1) in Hj'. rewrite <- Hj' in Hiff, Hnone.
    change (wantsJob s w0) with (wantsJob s w) in *. split.
    + rewrite <- wantsJob_spec, <- Hiff. split.
      * intros (h & Hl). apply Hs' in Hl.
        destruct (wantsJob s w) eqn:Hwant.
        -- apply Hiff. reflexivity.
        -- rewrite (Hnone eq_refl) in Hl. discriminate Hl.
      * intros (h & Hh & _). exists h. now apply Hs'.
    + intros h Hl. apply Hs' in Hl.
      destruct (wantsJob s w) eqn:Hwant.
      * destruct (proj2 Hiff eq_refl) as (h' & Hh' & Htask').
        rewrite Hl in Hh'. inversion Hh'; subst h'.
        rewrite (categoriesEach_keeps_site_tasks _ _ _ _ Hcats Hinv2 h (Site.id s));
          [exact Htask'|].
        exists (siteTask s). split; [exact Htask'|]. split; [reflexivity|].
        exists s. split; reflexivity.
      * rewrite (Hnone eq_refl) in Hl. discriminate Hl.
  - intros c Hin. destruct (Hnew eq_refl Hndc c Hin) as [Hiff Hnone]. split.
    + rewrite <- Hiff. split.
      * intros (h & Hl). apply Hc' in Hl.
        destruct (noSchedule (Category.scheduleCron c)) eqn:Hsch.
        -- rewrite (Hnone eq_refl) in Hl. discriminate Hl.
        -- apply Hiff. reflexivity.
      * intros (h & Hh & _). exists h. now apply Hc'.
    + intros h Hl. apply Hc' in Hl.
      destruct (noSchedule (Category.scheduleCron c)) eqn:Hsch.
      * rewrite (Hnone eq_refl) in Hl. discriminate Hl.
      * destruct (proj2 Hiff eq_refl) as (h' & Hh' & Htask').
        rewrite Hl in Hh'. inversion Hh'; subst h'. exact Htask'.
Qed.

(** X19. Belonging to a category does not take a site out of the global
    batch: a stored member that is not pinned and has no schedule of its own is
    checked by a firing of the job of its category and, from the same state,
    by a firing of the global job whose row is enabled. *)
Theorem category_and_global_batches_overlap (category : Category.t)
    (config latest : ScheduleConfig.t) (s : Site.t) (w : World Ext) :
  dbFault env (dbCalls w) = None ->
  dbFault env (S (dbCalls w)) = None ->
  List.find (categoryHasId (Category.id category)) (categories w) <> None ->
  List.find (configHasId (ScheduleConfig.id config)) (configs w) = Some latest ->
  ScheduleConfig.enabled latest = true ->
  In s (sites w) ->
  Site.categoryId s = Some (Category.id category) ->
  Site.pinned s = false ->
  noSchedule (Site.scheduleCron s) = true ->
  exists d1 d2,
    trace (snd (categoryTick env category w)) = trace w ++ d1
    /\ In s (begunSites d1)
    /\ trace (snd (globalTick env config w)) = trace w ++ d2
    /\ In s (begunSites d2).
Proof.
  intros Hf0 Hf1 Hcat Hfind Hen Hin Hmember Hpin Hsch.
  destruct (categoryTick_run category w) as (w1 & Hrun1 & Htr1 & _).
  destruct (globalTick_selects env config latest w Hf0 Hfind Hen Hf1) as [Htr2 _].
  exists (categoryDelta env category w), (runEvents env config latest w).
  rewrite Hrun1. cbn [snd]. split; [exact Htr1|]. split; [|split; [exact Htr2|]].
  - unfold categoryDelta. rewrite Hf0.
    destruct (List.find (categoryHasId (Category.id category)) (categories w));
      [|contradiction].
    rewrite begunSites_pacedTrace. unfold categoryCandidates.
    apply filter_In. split; [apply filter_In; split; [exact Hin|]|].
    + unfold inCategory. rewrite Hmember. apply String.eqb_refl.
    + now rewrite Hpin.
  - rewrite begunSites_runEvents. apply globalCandidates_In. auto.
Qed.

End MoreProperties.

(** ** Properties of the routes that reach further collaborators *)

Section RouteProperties.
Context {Ext : Type} (env : Collaborators Ext).
Context (checkSiteById : string -> CheckOptions -> Ext -> CheckReply * Ext).
Context (schemaOverrideIndividual : bool).

(** The collaborators seen by the manual batch of a category, which reaches
    the checker through [checkSiteById]. *)
Definition byId : Collaborators Ext :=
  mkCollaborators Ext (fun s o x => checkSiteById (Site.id s) o x)
    (sendAggregatedNotification env) (cronError env) (dbFault env) (newId env).

Lemma getScheduleConfigHandler_run (w : World Ext) :
  let reply := fst (getScheduleConfigHandler env schemaOverrideIndividual w) in
  let w' := snd (getScheduleConfigHandler env schemaOverrideIndividual w) in
  sameJobs w w' /\ sites w' = sites w /\ categories w' = categories w
  /\ trace w' = trace w
  /\ ((configs w' = configs w
       /\ (forall c, reply = ReplyOk c -> head (configs w) = Some c))
      \/ (configs w = []
          /\ exists c, reply = ReplyOk c /\ configs w' = [c]
                       /\ ScheduleConfig.enabled c = false
                       /\ ScheduleConfig.hour c = 9 /\ ScheduleConfig.minute c = 0
                       /\ ScheduleConfig.interval c = 30
                       /\ ScheduleConfig.timezone c = Some "Asia/Shanghai"))
  /\ (dbFault env (dbCalls w) = None -> dbFault env (S (dbCalls w)) = None ->
      exists c, reply = ReplyOk c).
Proof.
  unfold getScheduleConfigHandler, bind, scheduleConfig_findFirst,
    scheduleConfig_createDefault, prisma, ret, logLine, modify.
  destruct (dbFault env (dbCalls w)) as [e|] eqn:Hf0.
  { simpl. repeat split. - left. split; [reflexivity|]. discriminate.
    - discriminate. }
  simpl.
  destruct (configs w) as [|c rows] eqn:Hrows; simpl.
  - destruct (dbFault env (S (dbCalls w))) as [e|] eqn:Hf1; simpl; rewrite ?Hrows.
    + repeat split. * left. split; [reflexivity|]. discriminate.
      * discriminate.
    + repeat split.
      * right. split; [reflexivity|]. eexists. repeat split.
      * intros _ _. eexists. reflexivity.
  - simpl. rewrite ?Hrows. repeat split.
    + left. split; [reflexivity|]. intros c' Hc'. inversion Hc'. reflexivity.
    + intros _ _. eexists. reflexivity.
Qed.

(** X9. [getScheduleConfigHandler] touches no job, no site and no
    category. On a table that has a row it writes nothing and answers with the
    first row; on an empty table the only thing it can write is one disabled
    row for 9:00 Asia/Shanghai with a 30 s interval, which is its answer. When
    the store answers, the answer is a configuration, and asking again after a
    configuration was answered writes nothing more. *)
Theorem reading_config_creates_disabled_default (w : World Ext) :
  let get := getScheduleConfigHandler env schemaOverrideIndividual in
  sameJobs w (snd (get w))
  /\ sites (snd (get w)) = sites w /\ categories (snd (get w)) = categories w
  /\ (configs w <> [] ->
      configs (snd (get w)) = configs w
      /\ forall c, fst (get w) = ReplyOk c -> head (configs w) = Some c)
  /\ (configs w = [] ->
      configs (snd (get w)) = []
      \/ exists c, fst (get w) = ReplyOk c /\ configs (snd (get w)) = [c]
                   /\ ScheduleConfig.enabled c = false
                   /\ ScheduleConfig.hour c = 9 /\ ScheduleConfig.minute c = 0
                   /\ ScheduleConfig.interval c = 30
                   /\ ScheduleConfig.timezone c = Some "Asia/Shanghai")
  /\ (dbFault env (dbCalls w) = None -> dbFault env (S (dbCalls w)) = None ->
      exists c, fst (get w) = ReplyOk c)
  /\ (forall c, fst (get w) = ReplyOk c ->
                configs (snd (get (snd (get w)))) = configs (snd (get w))).
Proof.
  cbv zeta.
  destruct (getScheduleConfigHandler_run w) as (Hj & Hs & Hc & _ & Hcase & Hok).
  split; [exact Hj|]. split; [exact Hs|]. split; [exact Hc|].
  split; [|split; [|split; [exact Hok|]]].
  - intros Hne. destruct Hcase as [[Hcf Hhead]|(Hnil & _)]; [auto|contradiction].
  - intros Hnil. destruct Hcase as [[Hcf _]|(_ & c & Hr & Hcf & Hrest)].
    + left. congruence.
    + right. exists c. auto.
  - intros c Hr.
    destruct (getScheduleConfigHandler_run
                (snd (getScheduleConfigHandler env schemaOverrideIndividual w)))
      as (_ & _ & _ & _ & Hcase2 & _).
    destruct Hcase2 as [[Hcf2 _]|(Hnil2 & _)]; [exact Hcf2|].
    exfalso. destruct Hcase as [[Hcf Hhead]|(_ & c' & _ & Hcf & _)].
    + specialize (Hhead c Hr). rewrite Hcf in Hnil2. rewrite Hnil2 in Hhead.
      discriminate Hhead.
    + rewrite Hcf in Hnil2. discriminate Hnil2.
Qed.

(** *** The manual batch of a category *)

Lemma manualChanges_cons (sr : Site.t * CheckReply) (l : list (Site.t * CheckReply)) :
  manualChanges (sr :: l) = manualChanges [sr] ++ manualChanges l.
Proof.
  unfold manualChanges. simpl.
  destruct (snd sr) as [r|e]; [|reflexivity].
  destruct (if hasChanges r then diff r else None); reflexivity.
Qed.

Lemma manualFailures_cons (sr : Site.t * CheckReply) (l : list (Site.t * CheckReply)) :
  manualFailures (sr :: l) = manualFailures [sr] ++ manualFailures l.
Proof. unfold manualFailures. simpl. destruct (snd sr); reflexivity. Qed.

Lemma manualCheck_run (skip : bool) (site : Site.t) (results : BatchResults)
    (w : World Ext) :
  exists w',
    manualCheck checkSiteById skip site results w
    = (Normal
         (mkResults
            (changes results
             ++ manualChanges
                  [(site, fst (checkSiteById (Site.id site) (manualOptions skip) (ext w)))])
            (failures results
             ++ manualFailures
                  [(site, fst (checkSiteById (Site.id site) (manualOptions skip) (ext w)))])
            (totalSites results)), w')
    /\ trace w' = trace w ++
         [CheckBegin site (manualOptions skip);
          CheckEnd site (fst (checkSiteById (Site.id site) (manualOptions skip) (ext w)))]
    /\ ext w' = snd (checkSiteById (Site.id site) (manualOptions skip) (ext w))
    /\ log w' = log w
    /\ sameTablesAndJobs w w'.
Proof.
  unfold manualCheck, bind, tryCatch, callCheckSiteById, ret.
  unfold manualChanges, manualFailures, manualOptions. simpl.
  destruct results as [cs fs n]. simpl.
  destruct (checkSiteById (Site.id site) _ (ext w)) as [[r|e] x]; simpl.
  - destruct (if hasChanges r then diff r else None); simpl;
      rewrite ?app_nil_r; eexists; (split; [reflexivity|]); simpl;
      rewrite <- ?app_assoc; repeat split.
  - rewrite ?app_nil_r; eexists; (split; [reflexivity|]); simpl;
      rewrite <- ?app_assoc; repeat split.
Qed.

Lemma manualLoop_run (skip : bool) (sites : list Site.t) :
  forall (rest : list Site.t) (i : nat) (results : BatchResults) (w : World Ext),
    (i + length rest = length sites)%nat ->
    exists w',
      manualLoop checkSiteById skip sites i rest results w
      = (Normal
           (mkResults
              (changes results
               ++ manualChanges (checkReplies byId (manualOptions skip) rest (ext w)))
              (failures results
               ++ manualFailures (checkReplies byId (manualOptions skip) rest (ext w)))
              (totalSites results)), w')
      /\ trace w' = trace w ++ pacedTrace byId 5000 (manualOptions skip) rest (ext w)
      /\ ext w' = extAfterChecks byId (manualOptions skip) rest (ext w)
      /\ log w' = log w
      /\ sameTablesAndJobs w w'.
Proof.
  induction rest as [|site rest IH]; intros i results w Hlen.
  - exists w. destruct results as [cs fs n]. simpl. rewrite !app_nil_r.
    split; [reflexivity|]. split; [reflexivity|]. split; [reflexivity|].
    split; [reflexivity|]. apply sameTablesAndJobs_refl.
  - cbn [manualLoop]. rewrite (pacing_test i site rest sites Hlen).
    assert (Hnext : (S i + length rest = length sites)%nat) by (simpl in Hlen; lia).
    destruct (manualCheck_run skip site results w)
      as (w1 & Hbody & Htr1 & Hext1 & Hlog1 & Hsame1).
    unfold bind at 1. rewrite Hbody.
    cbn [checkReplies pacedTrace extAfterChecks].
    change (checkSite byId site (manualOptions skip) (ext w))
      with (checkSiteById (Site.id site) (manualOptions skip) (ext w)) in *.
    destruct (checkSiteById (Site.id site) (manualOptions skip) (ext w))
      as [reply x] eqn:Hcheck.
    cbn [fst snd] in *.
    rewrite (manualChanges_cons (site, reply)
               (checkReplies byId (manualOptions skip) rest x)),
      (manualFailures_cons (site, reply)
         (checkReplies byId (manualOptions skip) rest x)), !app_assoc.
    destruct rest as [|site' rest'].
    + exists w1. cbn [manualLoop checkReplies manualChanges manualFailures omap].
      unfold bind, ret. cbn [changes failures totalSites].
      rewrite !app_nil_r. subst x.
      split; [reflexivity|]. split; [exact Htr1|]. split; [reflexivity|].
      split; [exact Hlog1|exact Hsame1].
    + set (w2 := snd (sleep (Ext:=Ext) 5000 w1)).
      destruct (IH (S i)
                  (mkResults
                     (changes results ++ manualChanges [(site, reply)])
                     (failures results ++ manualFailures [(site, reply)])
                     (totalSites results)) w2 Hnext)
        as (w' & Hloop & Htr & Hext & Hlog & Hsame).
      exists w'. unfold bind at 1.
      change (sleep 5000 w1) with (Normal tt, w2).
      cbv beta iota. rewrite Hloop.
      assert (Hext2 : ext w2 = x) by (subst w2; simpl; exact Hext1).
      assert (Htr2 : trace w2 = trace w1 ++ [Sleep 5000]) by reflexivity.
      assert (Hlog2 : log w2 = log w1) by reflexivity.
      rewrite Hext2 in *. cbn [changes failures totalSites].
      split; [reflexivity|].
      split; [rewrite Htr, Htr2, Htr1, <- !app_assoc; reflexivity|].
      split; [exact Hext|]. split; [congruence|].
      apply (sameTablesAndJobs_trans _ w1); [exact Hsame1|].
      apply (sameTablesAndJobs_trans _ w2); [repeat split | exact Hsame].
Qed.

Lemma checkCategoryRoute_run (id : string) (skip : bool) (w : World Ext) :
  let cands := List.filter (manualMember id) (sites w) in
  let replies := checkReplies byId (manualOptions skip) cands (ext w) in
  exists w',
    checkCategoryRoute env checkSiteById id skip w
    = (match dbFault env (dbCalls w) with
       | Some e => Thrown e
       | None =>
           Normal
             (match cands with
              | [] => CheckError 400 "该分类下没有可检测的站点"
              | _ :: _ =>
                  CheckOk (mkResults (manualChanges replies) (manualFailures replies)
                             (length cands))
              end)
       end, w')
    /\ trace w' = trace w ++
         match dbFault env (dbCalls w) with
         | Some _ => []
         | None => pacedTrace byId 5000 (manualOptions skip) cands (ext w)
         end
    /\ log w' = log w
    /\ sameJobs w w' /\ sameTables w w'.
Proof.
  cbv zeta. unfold checkCategoryRoute. unfold bind at 1. unfold prisma.
  destruct (dbFault env (dbCalls w)) as [e|].
  { eexists. split; [reflexivity|]. simpl. rewrite app_nil_r. repeat split. }
  cbv beta iota. set (w1 := setDbCalls _ w). change (sites w1) with (sites w).
  set (cands := List.filter (manualMember id) (sites w)).
  destruct cands as [|s cands'] eqn:Hc.
  { exists w1. split; [reflexivity|]. simpl. rewrite app_nil_r. repeat split. }
  rewrite <- Hc. replace (length cands =? 0)%nat with false
    by (rewrite Hc; reflexivity).
  destruct (manualLoop_run skip cands cands 0 (mkResults [] [] (length cands)) w1 eq_refl)
    as (w2 & Hrun & Htr & _ & Hlog & Hsame).
  unfold bind at 1. rewrite Hrun. unfold ret. cbn [changes failures totalSites app].
  exists w2. change (ext w1) with (ext w) in *.
  split; [rewrite Hc; reflexivity|]. split; [exact Htr|]. split; [exact Hlog|].
  destruct Hsame as (Hs & Hcat & Hcf & _ & Ht & Hj & Hcj & Hg).
  split; repeat split; assumption.
Qed.

Lemma manualMember_filter (id : string) (l : list Site.t) :
  List.filter (manualMember id) l
  = List.filter (fun s => negb (Site.excludeFromBatch s))
      (List.filter (fun s => negb (Site.pinned s)) (List.filter (inCategory id) l)).
Proof.
  unfold manualMember. induction l as [|s l IH]; [reflexivity|].
  simpl. destruct (inCategory id s); simpl; [|exact IH].
  destruct (Site.pinned s); simpl; [exact IH|].
  destruct (Site.excludeFromBatch s); simpl; [exact IH|]. now rewrite IH.
Qed.

(** X12. [POST /api/categories/:id/check], once the store has answered
    its one query: the batch is made of the members of the category that are
    neither pinned nor excluded from batches, that is the sites the scheduled
    job of the category would check minus the excluded ones. With no such site
    the reply is 400 and nothing is checked. Otherwise the sites are checked
    one at a time in store order, as manual checks, with a pause of 5 s after
    each but the last; a rejected check does not fail the request: the reply
    counts the batch, lists one failure per rejected check and one change per
    resolved check that has changes and a diff. No job is touched. *)
Theorem manual_category_batch (id : string) (skip : bool) (w : World Ext) :
  dbFault env (dbCalls w) = None ->
  let batch := List.filter (manualMember id) (sites w) in
  let replies := checkReplies byId (manualOptions skip) batch (ext w) in
  exists w' delta,
    checkCategoryRoute env checkSiteById id skip w
    = (Normal
         (match batch with
          | [] => CheckError 400 "该分类下没有可检测的站点"
          | _ :: _ =>
              CheckOk (mkResults (manualChanges replies) (manualFailures replies)
                         (length batch))
          end), w')
    /\ trace w' = trace w ++ delta
    /\ delta = pacedTrace byId 5000 (manualOptions skip) batch (ext w)
    /\ begunSites delta = batch
    /\ checkEnds delta = replies
    /\ serial false delta = true
    /\ sleeps delta = replicate (length batch - 1) 5000
    /\ (forall s e, In (s, Rejected e) replies ->
          In (mkFailed (Site.name s) (manualFailedText e)) (manualFailures replies))
    /\ (forall category, Category.id category = id ->
          batch = List.filter (fun s => negb (Site.excludeFromBatch s))
                    (categoryCandidates category w))
    /\ sameJobs w w' /\ sameTables w w'.
Proof.
  intros Hf. cbv zeta.
  destruct (checkCategoryRoute_run id skip w) as (w' & Hrun & Htr & _ & Hj & Ht).
  rewrite Hf in Hrun, Htr.
  exists w'. eexists. split; [exact Hrun|]. split; [exact Htr|].
  split; [reflexivity|].
  split; [apply begunSites_pacedTrace|].
  split; [apply checkEnds_pacedTrace|].
  split; [apply serial_pacedTrace|].
  split; [apply sleeps_pacedTrace|].
  split; [|split; [|split; assumption]].
  - intros s e. generalize (checkReplies byId (manualOptions skip)
                              (List.filter (manualMember id) (sites w)) (ext w)).
    intros l Hin. unfold manualFailures.
    apply list_elem_of_In, list_elem_of_omap. exists (s, Rejected e).
    split; [now apply list_elem_of_In|reflexivity].
  - intros category <-. apply manualMember_filter.
Qed.

(** *** Every operation on a well-formed state *)

Lemma step_wellFormed (op : Op) (w : World Ext) :
  wellFormed w ->
  wellFormed (step env checkSiteById schemaOverrideIndividual op w).
Proof.
  intros [Hinv Hlen]. unfold wellFormed.
  destruct op as [ |site|category| |config| |body| |id|id|id skip|rows|rows|job];
    cbn [step].
  - destruct (scheduleAll env w) as [r w'] eqn:Hrun.
    destruct (scheduleAll_exact env w w' r Hrun Hinv) as (Hinv' & _ & _ & Hcf).
    cbn [snd]. split; [exact Hinv'|congruence].
  - destruct (onSiteUpdated_exact env site w Hinv) as (Hinv' & _ & _ & Hcf).
    split; [exact Hinv'|congruence].
  - destruct (scheduleCategory env category w) as [r w'] eqn:Hrun.
    pose proof (scheduleCategory_exact env category w w' r Hrun Hinv) as Hinv'.
    destruct (scheduleCategory_effect env category w w' r Hrun) as (_ & _ & Hcf & _).
    cbn [snd]. split; [exact Hinv'|congruence].
  - destruct (scheduleAllCategories env w) as [r w'] eqn:Hrun.
    destruct (scheduleAllCategories_exact env w w' r Hrun Hinv)
      as (Hinv' & (_ & _ & Hcf) & _).
    cbn [snd]. split; [exact Hinv'|congruence].
  - destruct (scheduleGlobalTask env config w) as [r w'] eqn:Hrun.
    destruct (scheduleGlobalTask_exact env config w w' r Hrun Hinv)
      as (Hinv' & (_ & _ & Hcf) & _).
    cbn [snd]. split; [exact Hinv'|congruence].
  - destruct (startScheduling env w) as [r w'] eqn:Hrun.
    destruct (startScheduling_run env w w' r Hrun Hinv) as (Hinv' & (_ & _ & Hcf) & _).
    cbn [snd]. split; [exact Hinv'|congruence].
  - rewrite updateScheduleConfigHandler_unfold.
    destruct ((body_hour body <? 0) || (23 <? body_hour body)
              || (body_minute body <? 0) || (59 <? body_minute body)
              || (body_interval body <? 5) || (300 <? body_interval body));
      [split; assumption|].
    destruct (upsertConfig env body w) as [r1 w1] eqn:Hup.
    destruct (upsertConfig_run env body w w1 r1 Hup) as (Hj1 & _ & _ & _ & _ & Hcase).
    pose proof (sameJobs_exact w w1 Hj1 Hinv) as Hinv1.
    destruct r1 as [config|e].
    + destruct Hcase as (_ & _ & Hlen1 & _).
      assert (Hle : (length (configs w1) <= 1)%nat) by lia.
      destruct (scheduleGlobalTask env (Some config) w1) as [r2 w2] eqn:Hrun.
      destruct (scheduleGlobalTask_exact env (Some config) w1 w2 r2 Hrun Hinv1)
        as (Hinv2 & (_ & _ & Hcf) & _).
      destruct r2 as [[]|e]; cbn [snd logLine modify]; (split; [exact Hinv2|]);
        simpl; congruence.
    + destruct Hcase as [Hcf _]. cbn [snd]. split; [exact Hinv1|].
      simpl. congruence.
  - destruct (getScheduleConfigHandler_run w) as (Hj & _ & _ & _ & Hcase & _).
    split; [exact (sameJobs_exact w _ Hj Hinv)|].
    destruct Hcase as [[Hcf _]|(_ & c & _ & Hcf & _)]; rewrite Hcf; [exact Hlen|].
    simpl. lia.
  - destruct (deleteCategoryRoute env id w) as [r w'] eqn:Hrun.
    destruct (deleteCategoryRoute_run env id w w' r Hrun) as (Hj & Hcf & _).
    cbn [snd]. split; [exact (sameJobs_exact w w' Hj Hinv)|congruence].
  - destruct (deleteSiteRoute env id w) as [r w'] eqn:Hrun.
    destruct (deleteSiteRoute_run env id w w' r Hrun) as (Hj & Hcf & _).
    cbn [snd]. split; [exact (sameJobs_exact w w' Hj Hinv)|congruence].
  - destruct (checkCategoryRoute_run id skip w)
      as (w' & Hrun & _ & _ & Hj & _ & _ & Hcf).
    rewrite Hrun. cbn [snd]. split; [exact (sameJobs_exact w w' Hj Hinv)|congruence].
  - split; assumption.
  - split; assumption.
  - destruct (fire_frame env job w) as (Hj & _ & _ & Hcf & _).
    split; [exact (sameJobs_exact w _ Hj Hinv)|].
    apply Forall2_length in Hcf. lia.
Qed.

Lemma run_wellFormed :
  forall (ops : list Op) (w : World Ext),
    wellFormed w ->
    wellFormed (run env checkSiteById schemaOverrideIndividual ops w).
Proof.
  induction ops as [|op ops IH]; intros w Hw; [exact Hw|].
  cbn [run fold_left]. apply IH. now apply step_wellFormed.
Qed.

(** X5. In a process where the operations of the scheduler (the exported
    functions, the routes that call them, the writes of the site and category
    tables, and the firings of the tasks) run one after the other from the
    moment the module is loaded, the three registries always hold exactly the
    live jobs: a site, a category and the global tier never have two live
    jobs, every started task is registered under the key of its callback and
    so can still be stopped, and the configuration table never grows past one
    row. *)
Theorem registries_stay_exact (ops : list Op) (w : World Ext) :
  justLoaded w ->
  (length (configs w) <= 1)%nat ->
  let w' := run env checkSiteById schemaOverrideIndividual ops w in
  (forall k h, jobs w' !! k = Some h <-> liveSiteJob w' k h)
  /\ (forall k h, categoryJobs w' !! k = Some h <-> liveCategoryJob w' k h)
  /\ (forall h, globalScheduleJob w' = Some h <-> liveGlobalJob w' h)
  /\ (forall k h1 h2, liveSiteJob w' k h1 -> liveSiteJob w' k h2 -> h1 = h2)
  /\ (forall k h1 h2, liveCategoryJob w' k h1 -> liveCategoryJob w' k h2 -> h1 = h2)
  /\ (forall h1 h2, liveGlobalJob w' h1 -> liveGlobalJob w' h2 -> h1 = h2)
  /\ (forall h t,
        tasks w' !! h = Some t -> task_running t = true ->
        match task_callback t with
        | SiteCallback s => jobs w' !! Site.id s = Some h
        | CategoryCallback c =>
            categoryJobs w' !! String.append "cat_" (Category.id c) = Some h
        | GlobalCallback _ => globalScheduleJob w' = Some h
        end)
  /\ (length (configs w') <= 1)%nat.
Proof.
  intros (Ht & Hj & Hc & Hg) Hlen w'.
  assert (Hw : wellFormed w).
  { split; [now apply exactRegistries_fresh|exact Hlen]. }
  destruct (run_wellFormed ops w Hw) as [Hinv' Hlen']. fold w' in Hinv', Hlen'.
  pose proof Hinv' as [[Hs' Hg'] Hc'].
  split; [exact Hs'|]. split; [exact Hc'|]. split; [exact Hg'|].
  split; [intros k h1 h2 H1 H2; apply Hs' in H1, H2; congruence|].
  split; [intros k h1 h2 H1 H2; apply Hc' in H1, H2; congruence|].
  split; [intros h1 h2 H1 H2; apply Hg' in H1, H2; congruence|].
  split; [|exact Hlen'].
  intros h t. now apply running_task_registered.
Qed.

End RouteProperties.

(** * auth.js *)

Module Auth.

(** ** The user table, the replies and the state *)

Record User := mkUser {
  user_id : string;
  user_email : string;
  passwordHash : string;
  isAdmin : bool
}.

(** The payload signed into a token. *)
Record Claims := mkClaims {
  sub : string;
  claim_email : string;
  claim_isAdmin : bool
}.

(** The body of a login request: each of the two properties is a string or
    absent. *)
Record LoginBody := mkLoginBody {
  body_email : option string;
  body_password : option string
}.

(** The replies of the login route: [{ token }], an error sent by the
    handler, and the 400 the framework sends for a body that fails the schema
    of the route. *)
Inductive LoginReply :=
| Token (token : string)
| LoginError (status : Z) (error : string)
| BadRequest.

Record AuthWorld := mkAuthWorld {
  users : list User;          (* prisma.user *)
  calls : nat;                (* prisma calls made so far *)
  hashed : nat;               (* bcrypt.hash calls made so far *)
  authLog : list LogLine
}.

Definition Auth (A : Type) : Type := AuthWorld -> Completion A * AuthWorld.

Definition aret {A} (a : A) : Auth A := fun s => (Normal a, s).

Definition abind {A B} (m : Auth A) (k : A -> Auth B) : Auth B :=
  fun s =>
    match m s with
    | (Normal a, s1) => k a s1
    | (Thrown e, s1) => (Thrown e, s1)
    end.

Declare Scope auth_scope.
Delimit Scope auth_scope with auth.
Notation "'let*' x ':=' m 'in' k" := (abind m (fun x => k))
  (at level 10, x name, m at level 100, k at level 200) : auth_scope.
Notation "'do' m 'then' k" := (abind m (fun _ => k))
  (at level 10, m at level 100, k at level 200) : auth_scope.

(** [!CONFIG.X] is false exactly for a non-empty string. *)
Definition isSet (o : option string) : bool :=
  match o with
  | Some (String _ _) => true
  | _ => false
  end.

(** What [create] rejects with when the email is taken. *)
Definition uniqueViolation : JsError :=
  mkError "Unique constraint failed on the fields: (`email`)"
    "PrismaClientKnownRequestError".

Definition hasEmail (e : string) (u : User) : bool := String.eqb (user_email u) e.

Section Auth.

(** What lives outside auth.js: the two variables of [CONFIG], bcrypt (the
    hash of a password depends on the salt drawn for the call), the signing
    of a token, the failures of the store, the ids it generates, and the
    [email] format of the validator that the framework runs on a request
    body. *)
Context (ADMIN_EMAIL ADMIN_PASSWORD : option string).
Context (bcrypt_hash : string -> nat -> string).
Context (bcrypt_compare : string -> string -> bool).
Context (jwt_sign : Claims -> string).
Context (storeFault : nat -> option JsError).
Context (newUserId : nat -> string).
Context (isEmail : string -> bool).
Local Open Scope auth_scope.

Definition authLogLine (l : Level) (msg : string) : Auth unit :=
  fun s =>
    (Normal tt, mkAuthWorld (users s) (calls s) (hashed s) (authLog s ++ [mkLog l msg])).

Definition userStore {A} (query : AuthWorld -> Completion A * AuthWorld) : Auth A :=
  fun s =>
    let s1 := mkAuthWorld (users s) (S (calls s)) (hashed s) (authLog s) in
    match storeFault (calls s) with
    | Some e => (Thrown e, s1)
    | None => query s1
    end.

(** [prisma.user.count()] *)
Definition user_count : Auth nat :=
  userStore (fun s => (Normal (length (users s)), s)).

(** [prisma.user.create({ data: { email, passwordHash, isAdmin } })] *)
Definition user_create (email hash : string) (admin : bool) : Auth User :=
  fun s0 =>
    userStore (fun s =>
      if existsb (hasEmail email) (users s) then (Thrown uniqueViolation, s)
      else
        let u := mkUser (newUserId (calls s0)) email hash admin in
        (Normal u, mkAuthWorld (users s ++ [u]) (calls s) (hashed s) (authLog s))) s0.

(** [prisma.user.findUnique({ where: { email } })] *)
Definition user_findUnique (email : string) : Auth (option User) :=
  userStore (fun s => (Normal (List.find (hasEmail email) (users s)), s)).

(** [await bcrypt.hash(password, 10)] *)
Definition bcryptHash (password : string) : Auth string :=
  fun s =>
    (Normal (bcrypt_hash password (hashed s)),
     mkAuthWorld (users s) (calls s) (S (hashed s)) (authLog s)).

Definition bootstrapAdmin : Auth unit :=
  let* count := user_count in
  if (0 <? count)%nat then aret tt
  else if negb (isSet ADMIN_EMAIL) || negb (isSet ADMIN_PASSWORD) then
    authLogLine Warn
      "没有用户且未设置 ADMIN_EMAIL/ADMIN_PASSWORD 环境变量，无法创建管理员账户"
  else
    let* passwordHash := bcryptHash (default "" ADMIN_PASSWORD) in
    let* _created := user_create (default "" ADMIN_EMAIL) passwordHash true in
    authLogLine Info "已从环境变量创建管理员账户".

Definition initAuth : Auth unit := bootstrapAdmin.

(** The two calls of [initAuth] in [buildServer]. *)
Definition initAuthTwice : Auth unit :=
  do initAuth then initAuth.

(** The [schema.body] of the login route: both properties are required,
    [email] is a string in the [email] format and [password] a string of at
    least one character. A body that passes gives the handler its two
    strings. *)
Definition loginSchema (body : LoginBody) : option (string * string) :=
  match body_email body, body_password body with
  | Some email, Some password =>
      if isEmail email && negb (String.eqb password "")
      then Some (email, password)
      else None
  | _, _ => None
  end.

(** The handler of [POST /api/auth/login]. *)
Definition login (email password : string) : Auth LoginReply :=
  let* user := user_findUnique email in
  match user with
  | None => aret (LoginError 401 "邮箱或密码错误")
  | Some user =>
      if negb (bcrypt_compare password (passwordHash user)) then
        aret (LoginError 401 "邮箱或密码错误")
      else
        aret (Token (jwt_sign
                       (mkClaims (user_id user) (user_email user) (isAdmin user))))
  end.

(** [POST /api/auth/login]: the framework validates the body against the
    schema first, and a body that fails is answered with 400 without the
    handler being run. *)
Definition loginRoute (body : LoginBody) : Auth LoginReply :=
  match loginSchema body with
  | Some (email, password) => login email password
  | None => aret BadRequest
  end.

(** ** Properties *)

Lemma bootstrapAdmin_run (s : AuthWorld) :
  let r := fst (bootstrapAdmin s) in
  let s1 := snd (bootstrapAdmin s) in
  (users s1 = users s
   /\ (r = Normal tt ->
       users s <> [] \/ isSet ADMIN_EMAIL = false \/ isSet ADMIN_PASSWORD = false))
  \/ (users s = [] /\ r = Normal tt
      /\ isSet ADMIN_EMAIL = true /\ isSet ADMIN_PASSWORD = true
      /\ users s1
         = [mkUser (newUserId (S (calls s))) (default "" ADMIN_EMAIL)
              (bcrypt_hash (default "" ADMIN_PASSWORD) (hashed s)) true]).
Proof.
  cbv zeta. unfold bootstrapAdmin, abind, user_count, userStore, aret.
  destruct (storeFault (calls s)) as [e|] eqn:Hf0.
  { left. simpl. split; [reflexivity|discriminate]. }
  simpl. destruct (users s) as [|u us] eqn:Hu; simpl.
  - destruct (isSet ADMIN_EMAIL) eqn:He; simpl.
    + destruct (isSet ADMIN_PASSWORD) eqn:Hp; simpl.
      * unfold bcryptHash, user_create, userStore, authLogLine. simpl.
        destruct (storeFault (S (calls s))) as [e|] eqn:Hf1; simpl.
        -- left. rewrite ?Hu. split; [reflexivity|discriminate].
        -- rewrite ?Hu. simpl. right. repeat split.
      * left. rewrite ?Hu. split; [reflexivity|]. intros _. right. now right.
    + left. rewrite ?Hu. split; [reflexivity|]. intros _. right. now left.
  - left. rewrite ?Hu. split; [reflexivity|]. intros _. left. discriminate.
Qed.

Lemma bootstrapAdmin_skips (s : AuthWorld) :
  users s <> [] \/ isSet ADMIN_EMAIL = false \/ isSet ADMIN_PASSWORD = false ->
  users (snd (bootstrapAdmin s)) = users s.
Proof.
  intros H. destruct (bootstrapAdmin_run s) as [[Hu _]|(Hnil & _ & He & Hp & _)];
    [exact Hu|].
  destruct H as [H|[H|H]]; congruence.
Qed.

Lemma bootstrapAdmin_completes (s : AuthWorld) :
  storeFault (calls s) = None -> storeFault (S (calls s)) = None ->
  fst (bootstrapAdmin s) = Normal tt.
Proof.
  intros Hf0 Hf1.
  unfold bootstrapAdmin, abind, user_count, userStore, aret. rewrite Hf0. simpl.
  destruct (users s) as [|u us]; simpl; [|reflexivity].
  destruct (isSet ADMIN_EMAIL); simpl; [|reflexivity].
  destruct (isSet ADMIN_PASSWORD); simpl; [|reflexivity].
  unfold bcryptHash, user_create, userStore, authLogLine. simpl.
  rewrite Hf1. reflexivity.
Qed.

(** X15. [bootstrapAdmin] writes at most one row, and only into an
    empty user table with both variables set: the administrator with the
    configured email and the hash of the configured password. In every other
    case the table is left as it is. The second of the two calls that
    [buildServer] makes therefore never changes the table. *)
Theorem bootstrap_admin_once (s : AuthWorld) :
  (users (snd (bootstrapAdmin s)) = users s
   \/ (users s = []
       /\ isSet ADMIN_EMAIL = true /\ isSet ADMIN_PASSWORD = true
       /\ exists u,
            users (snd (bootstrapAdmin s)) = [u]
            /\ user_email u = default "" ADMIN_EMAIL
            /\ passwordHash u = bcrypt_hash (default "" ADMIN_PASSWORD) (hashed s)
            /\ isAdmin u = true))
  /\ (users s <> [] -> users (snd (bootstrapAdmin s)) = users s)
  /\ users (snd (initAuthTwice s)) = users (snd (initAuth s))
  /\ (storeFault (calls s) = None -> storeFault (S (calls s)) = None ->
      fst (bootstrapAdmin s) = Normal tt).
Proof.
  split; [|split; [|split]].
  - destruct (bootstrapAdmin_run s) as [[Hu _]|(Hnil & _ & He & Hp & Hu)];
      [now left|].
    right. repeat split; try assumption. eexists. split; [exact Hu|]. repeat split.
  - intros Hne. apply bootstrapAdmin_skips. now left.
  - unfold initAuthTwice, initAuth, abind.
    destruct (bootstrapAdmin_run s) as [[Hu Hr]|(Hnil & Hr & He & Hp & Hu)].
    + destruct (bootstrapAdmin s) as [[[]|e] s1]; [|reflexivity].
      cbn [fst snd] in *. apply bootstrapAdmin_skips.
      destruct (Hr eq_refl) as [H|H]; [left; congruence|now right].
    + destruct (bootstrapAdmin s) as [[[]|e] s1]; [|reflexivity].
      cbn [fst snd] in *. apply bootstrapAdmin_skips. left. rewrite Hu. discriminate.
  - apply bootstrapAdmin_completes.
Qed.

(** X16. With a store that answers and a bcrypt whose [compare] accepts
    a password against its own hash: after [bootstrapAdmin] on an empty table
    with both variables set, a login request with the configured email and
    password yields the token signed for the created administrator when the
    configured email is in the [email] format, and 400 when it is not, so
    that an administrator created from such a value cannot log in. A request
    that passes the schema with a password that [compare] refuses, or with an
    email that no user has, gets 401 with one and the same message. A request
    that fails the schema (a property missing, an empty password, an email
    not in the format) gets 400 and the store is not consulted. No login
    request writes the table. *)
Theorem bootstrap_then_login (s : AuthWorld) (email password : string) :
  (forall p n, bcrypt_compare p (bcrypt_hash p n) = true) ->
  (forall n, storeFault n = None) ->
  users s = [] ->
  ADMIN_EMAIL = Some email -> ADMIN_PASSWORD = Some password ->
  email <> "" -> password <> "" ->
  let s1 := snd (bootstrapAdmin s) in
  let request e p := mkLoginBody (Some e) (Some p) in
  exists u,
    users s1 = [u] /\ user_email u = email /\ isAdmin u = true
    /\ fst (loginRoute (request email password) s1)
       = Normal (if isEmail email
                 then Token (jwt_sign (mkClaims (user_id u) email true))
                 else BadRequest)
    /\ (forall p, isEmail email = true -> p <> "" ->
                  bcrypt_compare p (passwordHash u) = false ->
                  fst (loginRoute (request email p) s1)
                  = Normal (LoginError 401 "邮箱或密码错误"))
    /\ (forall e p, isEmail e = true -> p <> "" -> e <> email ->
                    fst (loginRoute (request e p) s1)
                    = Normal (LoginError 401 "邮箱或密码错误"))
    /\ (forall body,
          body_email body = None \/ body_password body = None
          \/ body_password body = Some ""
          \/ (exists e, body_email body = Some e /\ isEmail e = false) ->
          loginRoute body s1 = (Normal BadRequest, s1))
    /\ (forall body, users (snd (loginRoute body s1)) = users s1).
Proof.
  intros Hbcrypt Hf Hnil He Hp Hne Hnp. cbv zeta.
  assert (HsetE : isSet ADMIN_EMAIL = true)
    by (rewrite He; destruct email; [contradiction|reflexivity]).
  assert (HsetP : isSet ADMIN_PASSWORD = true)
    by (rewrite Hp; destruct password; [contradiction|reflexivity]).
  destruct (bootstrapAdmin_run s) as [[Hu Hr]|(_ & _ & _ & _ & Hu)].
  { exfalso.
    assert (Hok : fst (bootstrapAdmin s) = Normal tt)
      by (apply bootstrapAdmin_completes; apply Hf).
    destruct (Hr Hok) as [H|[H|H]]; congruence. }
  rewrite He, Hp in Hu. cbn [default] in Hu.
  change (id email) with email in Hu. change (id password) with password in Hu.
  eexists. split; [exact Hu|]. split; [reflexivity|]. split; [reflexivity|].
  assert (Hfind : forall e,
            List.find (hasEmail e) (users (snd (bootstrapAdmin s)))
            = if String.eqb email e
              then Some (mkUser (newUserId (S (calls s))) email
                           (bcrypt_hash password (hashed s)) true)
              else None).
  { intros e. rewrite Hu. reflexivity. }
  assert (Hpass : forall e p, isEmail e = true -> p <> "" ->
            loginSchema (mkLoginBody (Some e) (Some p)) = Some (e, p)).
  { intros e p Hfmt Hp'. unfold loginSchema. cbn [body_email body_password].
    rewrite Hfmt. destruct (String.eqb p "") eqn:Hempty; [|reflexivity].
    apply String.eqb_eq in Hempty. contradiction. }
  split; [|split; [|split; [|split]]].
  - destruct (isEmail email) eqn:Hfmt.
    + unfold loginRoute. rewrite (Hpass email password Hfmt Hnp).
      unfold login, abind, user_findUnique, userStore, aret. rewrite Hf. cbn [users].
      rewrite Hfind, String.eqb_refl. cbn [passwordHash]. rewrite Hbcrypt. reflexivity.
    + unfold loginRoute, loginSchema. cbn [body_email body_password].
      rewrite Hfmt. reflexivity.
  - intros p Hfmt Hp' Hbad. unfold loginRoute. rewrite (Hpass email p Hfmt Hp').
    unfold login, abind, user_findUnique, userStore, aret.
    rewrite Hf. cbn [users]. rewrite Hfind, String.eqb_refl. cbn [passwordHash] in *.
    rewrite Hbad. reflexivity.
  - intros e p Hfmt Hp' Hother. unfold loginRoute. rewrite (Hpass e p Hfmt Hp').
    unfold login, abind, user_findUnique, userStore, aret.
    rewrite Hf. cbn [users]. rewrite Hfind.
    destruct (String.eqb email e) eqn:Heq; [|reflexivity].
    apply String.eqb_eq in Heq. congruence.
  - intros body Hbad. unfold loginRoute, loginSchema.
    destruct (body_email body) as [e|]; [|reflexivity].
    destruct (body_password body) as [p|]; [|reflexivity].
    destruct Hbad as [H|[H|[H|(e' & H & Hfmt)]]]; try discriminate H.
    + inversion H; subst. rewrite andb_false_r. reflexivity.
    + inversion H; subst. rewrite Hfmt. reflexivity.
  - intros body. unfold loginRoute.
    destruct (loginSchema body) as [[e p]|]; [|reflexivity].
    unfold login, abind, user_findUnique, userStore, aret.
    rewrite Hf. cbn [users].
    destruct (List.find _ _) as [u|]; [|reflexivity].
    destruct (bcrypt_compare p (passwordHash u)); reflexivity.
Qed.

End Auth.

End Auth.

(** * The time of day in the site list (web/src/pages/Sites.jsx) *)

Module Frontend.

(** [s.split(/\s+/)]: the pieces between the maximal runs of white space;
    [cur] is the piece being read, in reverse, and [gap] tells whether the
    last unit read was white space. *)
Fixpoint splitWhiteSpace (s cur : JsString) (gap : bool) : list JsString :=
  match s with
  | [] => [rev cur]
  | c :: s' =>
      if isWhiteSpace c then
        if gap then splitWhiteSpace s' [] true
        else rev cur :: splitWhiteSpace s' [] true
      else splitWhiteSpace s' (c :: cur) false
  end.

(** [String(n).padStart(2, '0')] *)
Definition pad (n : JsString) : JsString :=
  match n with
  | [] => [48; 48]%N
  | [c] => [48%N; c]
  | _ => n
  end.

Definition cronToHm (cron : JsString) : JsString :=
  let parts := splitWhiteSpace (trim cron) [] false in
  match parts with
  | m :: h :: _ => pad h ++ [58%N] ++ pad m
  | _ => cron
  end.

(** [hmToCron] on integer-valued numbers. *)
Definition hmToCron (h m : Z) : JsString :=
  let hh := Z.max 0 (Z.min 23 h) in
  let mm := Z.max 0 (Z.min 59 m) in
  lit (String.append (numToString mm)
         (String.append " " (String.append (numToString hh) " * * *"))).

(** The two-digit rendering of an hour or a minute. *)
Definition twoDigits (z : Z) : string :=
  if z <? 10 then String.append "0" (numToString z) else numToString z.

(** What a clock shows for an hour and a minute. *)
Definition clockFace (h m : Z) : JsString :=
  lit (String.append (twoDigits h) (String.append ":" (twoDigits m))).

Definition roundTrip (h m : Z) : bool :=
  bool_decide (cronToHm (hmToCron h m) = clockFace h m)
  && negb (noSchedule (Some (hmToCron h m))).

Lemma roundTrip_day :
  forallb (fun h => forallb (fun m => roundTrip (Z.of_nat h) (Z.of_nat m)) (seq 0 60))
    (seq 0 24) = true.
Proof. vm_compute. reflexivity. Qed.

Lemma roundTrip_in_range (h m : Z) :
  0 <= h <= 23 -> 0 <= m <= 59 -> roundTrip h m = true.
Proof.
  intros Hh Hm. pose proof roundTrip_day as H.
  rewrite forallb_forall in H.
  assert (Hin : In (Z.to_nat h) (seq 0 24)) by (apply in_seq; lia).
  specialize (H (Z.to_nat h) Hin). rewrite forallb_forall in H.
  assert (Hin' : In (Z.to_nat m) (seq 0 60)) by (apply in_seq; lia).
  specialize (H (Z.to_nat m) Hin'). now rewrite !Z2Nat.id in H by lia.
Qed.

Lemma hmToCron_clamped (h m : Z) :
  hmToCron h m = hmToCron (Z.max 0 (Z.min 23 h)) (Z.max 0 (Z.min 59 m)).
Proof.
  unfold hmToCron. cbv zeta.
  replace (Z.max 0 (Z.min 23 (Z.max 0 (Z.min 23 h)))) with (Z.max 0 (Z.min 23 h)) by lia.
  replace (Z.max 0 (Z.min 59 (Z.max 0 (Z.min 59 m)))) with (Z.max 0 (Z.min 59 m)) by lia.
  reflexivity.
Qed.

(** X17. [hmToCron] clamps the hour to 0..23 and the minute to 0..59 and
    builds the expression [minute hour * * *], the same that the scheduler
    builds for the daily global job; the expression is never blank, so the
    site it is saved on gets a job of its own; and [cronToHm] reads it back as
    the clamped time, [HH:MM] with two digits each. *)
Theorem time_of_day_round_trip (h m : Z) :
  let hh := Z.max 0 (Z.min 23 h) in
  let mm := Z.max 0 (Z.min 59 m) in
  cronToHm (hmToCron h m) = clockFace hh mm
  /\ hmToCron h m = dailyCron mm hh
  /\ noSchedule (Some (hmToCron h m)) = false
  /\ (0 <= h <= 23 -> 0 <= m <= 59 -> cronToHm (hmToCron h m) = clockFace h m).
Proof.
  cbv zeta.
  assert (Hok : roundTrip (Z.max 0 (Z.min 23 h)) (Z.max 0 (Z.min 59 m)) = true)
    by (apply roundTrip_in_range; lia).
  unfold roundTrip in Hok. apply andb_true_iff in Hok. destruct Hok as [Hface Hsch].
  apply bool_decide_eq_true in Hface. apply negb_true_iff in Hsch.
  rewrite <- hmToCron_clamped in Hface, Hsch.
  split; [exact Hface|]. split; [reflexivity|]. split; [exact Hsch|].
  intros Hh Hm. rewrite Hface. f_equal; lia.
Qed.

End Frontend.

(** * More worked examples *)

Module MoreExamples.
Import Examples.

(** ** Rows, collaborators and stores *)

(** A category checked at three at night, and the same category after its
    schedule was edited. *)
Definition nightly : Category.t :=
  Category.mk "c1" "nightly" (Some (lit "0 3 * * *")) (Some "UTC").

Definition nightlyMoved : Category.t :=
  Category.mk "c1" "nightly" (Some (lit "0 4 * * *")) (Some "UTC").

(** Four members of the category: a plain one, one that fails its check, a
    pinned one and one excluded from batches. *)
Definition member : Site.t :=
  Site.mk "m1" "member" None (Some "UTC") false false (Some "c1").

Definition memberDown : Site.t :=
  Site.mk "m2" "down" None (Some "UTC") false false (Some "c1").

Definition memberPinned : Site.t :=
  Site.mk "m3" "kept" None (Some "UTC") true false (Some "c1").

Definition memberExcluded : Site.t :=
  Site.mk "m4" "left out" None (Some "UTC") false true (Some "c1").

(** A [checkSiteById] that rejects for m2, reports a model diff for m1 and
    nothing for any other id; it counts its calls. *)
Definition demoCheckById (i : string) (o : CheckOptions) (n : nat) : CheckReply * nat :=
  if String.eqb i "m2" then
    (Rejected (mkError "connect ECONNREFUSED" "Error: connect ECONNREFUSED"), S n)
  else if String.eqb i "m1" then
    (Resolved (mkResult true (Some "+gpt-x") None "member" false), S n)
  else
    (Resolved (mkResult false None None i false), S n).

(** A store with the category and one member; the category scheduled; its
    schedule edited; the category deleted. *)
Definition club : World nat := emptyWorld [cfgOff] [member] [nightly].

Definition clubScheduled : World nat := snd (scheduleCategory demoEnv nightly club).

Definition clubMoved : World nat :=
  snd (scheduleCategory demoEnv nightlyMoved clubScheduled).

Definition clubDeleted : World nat := snd (deleteCategoryRoute demoEnv "c1" clubScheduled).

(** A store with two sites and the category, what [scheduleAll] makes of it,
    and the store of [club] under the enabled row. *)
Definition town : World nat := emptyWorld [cfg30] [own; alpha] [nightly].

Definition clubOn : World nat := emptyWorld [cfg30] [member] [nightly].

Definition townScheduled : World nat := snd (scheduleAll demoEnv town).

(** A store with all the members and a site outside the category. *)
Definition clubFull : World nat :=
  emptyWorld [cfgOff] [member; memberPinned; memberExcluded; memberDown; alpha] [nightly].

(** A process with a site job, a category job and the global job. *)
Definition busy : World nat :=
  run demoEnv demoCheckById false [CallScheduleAll; CallScheduleGlobalTask (Some cfg30)]
    town.


(** A day in the life of a process. *)
Definition boot : World nat := emptyWorld [] [own; alpha; member] [nightly].

Definition day : list Op :=
  [CallStartScheduling; GetScheduleConfig;
   PostScheduleConfig (mkBody true 9 0 30 None);
   CallOnSiteUpdated ownMoved; DeleteCategory "c1"; Fire 1;
   PostCategoryCheck "c1" false; DeleteSite "s1"; WriteSites [alpha; typo];
   PostScheduleConfig (mkBody false 9 0 30 None)].

(** A new time of day posted to the configuration route. *)
Definition halfPastTen : ScheduleConfigBody := mkBody true 10 30 60 (Some false).

Definition cfgTen30 : ScheduleConfig.t :=
  ScheduleConfig.mk "cfg" true 10 30 (Some "Asia/Shanghai") 60 false None.


(** The global job is live; a site with a malformed expression has since
    been imported; the configuration is posted again. *)
Definition imported : World nat :=
  run demoEnv demoCheckById false
    [CallScheduleGlobalTask (Some cfg30); WriteSites [alpha; typo]]
    (emptyWorld [cfg30] [alpha] []).

Definition afterFailure : World nat :=
  snd (updateScheduleConfigHandler demoEnv halfPastTen imported).

(** The site with a job is deleted. *)
Definition ownDeleted : World nat := snd (deleteSiteRoute demoEnv "s1" scheduled).

(** A bcrypt whose hash is the password followed by the salt, a signer that
    shows the subject, and an empty user table. *)
Definition toyHash (p : string) (n : nat) : string :=
  String.append p (String.append "#" (numToString (Z.of_nat n))).

Definition toyCompare (p h : string) : bool := String.prefix (String.append p "#") h.

Definition toySign (c : Auth.Claims) : string := String.append "jwt:" (Auth.sub c).

Definition toyId (n : nat) : string := String.append "u" (numToString (Z.of_nat n)).

Definition noUsers : Auth.AuthWorld := Auth.mkAuthWorld [] 0 0 [].

Definition bootstrapped : Auth.AuthWorld :=
  snd (Auth.bootstrapAdmin (Some "root@example.org") (Some "s3cret") toyHash
         (fun _ => None) toyId noUsers).

(** A stand-in for the [email] format: an at sign with something on each
    side of it. *)
Fixpoint hasAtSign (s : string) : bool :=
  match s with
  | EmptyString => false
  | String c s' =>
      (Ascii.eqb c "@" && negb (String.eqb s' "")) || hasAtSign s'
  end.

Definition toyIsEmail (s : string) : bool :=
  match s with
  | EmptyString => false
  | String c s' => negb (Ascii.eqb c "@") && hasAtSign s'
  end.

(** The administrator configured with a plain name instead of an address. *)
Definition bootstrappedPlain : Auth.AuthWorld :=
  snd (Auth.bootstrapAdmin (Some "admin") (Some "s3cret") toyHash
         (fun _ => None) toyId noUsers).

(** ** The examples *)

Lemma clubScheduled_exact : exactRegistries clubScheduled.
Proof.
  apply (scheduleCategory_exact demoEnv nightly club clubScheduled (Normal tt)).
  - vm_compute. reflexivity.
  - apply exactRegistries_fresh; reflexivity.
Qed.

Lemma scheduled_exact : exactRegistries scheduled.
Proof.
  apply (scheduleSite_exact demoEnv own
           (emptyWorld [cfgOff] [own; alpha] []) scheduled (Normal tt)).
  - vm_compute. reflexivity.
  - apply exactRegistries_fresh; reflexivity.
Qed.

Lemma busy_exact : exactRegistries busy.
Proof.
  apply (run_wellFormed demoEnv demoCheckById false). split.
  - apply exactRegistries_fresh; reflexivity.
  - simpl. lia.
Qed.

Lemma imported_exact : exactRegistries imported.
Proof.
  apply (run_wellFormed demoEnv demoCheckById false). split.
  - apply exactRegistries_fresh; reflexivity.
  - simpl. lia.
Qed.

Lemma toyCompare_toyHash (p : string) (n : nat) : toyCompare p (toyHash p n) = true.
Proof.
  unfold toyCompare, toyHash. induction p as [|c p IH]; simpl.
  - destruct (numToString (Z.of_nat n)); reflexivity.
  - destruct (Ascii.ascii_dec c c) as [_|Hne]; [exact IH|contradiction].
Qed.

(** The schedule of a category with a live job is edited: the old job
    (handle 0) is stopped, one job is live, and it carries the new
    expression. *)
Lemma upsert_category_job_witness :
  exactRegistries clubScheduled
  /\ scheduleCategory demoEnv nightlyMoved clubScheduled = (Normal tt, clubMoved)
  /\ categoryJobs clubScheduled !! "cat_c1" = Some 0%nat
  /\ ~ liveCategoryJob clubMoved "cat_c1" 0
  /\ (exists h, liveCategoryJob clubMoved "cat_c1" h)
  /\ (forall h, liveCategoryJob clubMoved "cat_c1" h ->
                tasks clubMoved !! h = Some (categoryTask nightlyMoved)).
Proof.
  assert (Hrun : scheduleCategory demoEnv nightlyMoved clubScheduled
                 = (Normal tt, clubMoved)) by (vm_compute; reflexivity).
  assert (Hold : categoryJobs clubScheduled
                   !! String.append "cat_" (Category.id nightlyMoved) = Some 0%nat)
    by (vm_compute; reflexivity).
  destruct (upsert_category_job demoEnv nightlyMoved clubScheduled clubMoved (Normal tt)
              clubScheduled_exact Hrun)
    as (_ & _ & Hstop & Hiff & Htask & _).
  split; [exact clubScheduled_exact|]. split; [exact Hrun|].
  split; [exact Hold|]. split; [apply (Hstop 0%nat Hold)|].
  split; [|exact Htask].
  apply Hiff. split; vm_compute; reflexivity.
Defined.

(** One site job, one category job and the global job are live; after
    [stopAllIndividualJobs], which answers 1, the last two still are. *)
Lemma stopAllIndividualJobs_only_site_jobs_witness :
  exactRegistries busy
  /\ exists w',
       stopAllIndividualJobs busy = (Normal 1%nat, w')
       /\ jobs w' = ∅
       /\ (forall k h, ~ liveSiteJob w' k h)
       /\ liveCategoryJob w' "cat_c1" 1
       /\ liveGlobalJob w' 3.
Proof.
  split; [exact busy_exact|].
  destruct (stopAllIndividualJobs_only_site_jobs busy busy_exact)
    as (w' & Hrun & Hj & Hs & Hc & Hg & _).
  assert (Hsize : size (jobs busy) = 1%nat) by (vm_compute; reflexivity).
  rewrite Hsize in Hrun.
  exists w'. split; [exact Hrun|]. split; [exact Hj|]. split; [exact Hs|].
  destruct busy_exact as [[_ Hglobal] Hcat]. split.
  - apply Hc, Hcat. vm_compute. reflexivity.
  - apply Hg, Hglobal. vm_compute. reflexivity.
Defined.



(** The configuration is posted while a site with a malformed expression
    is in the store: the answer is 500, the new row is saved all the same, and
    the global job that was live is gone. *)
Lemma failed_reconfiguration_leaves_no_global_job_witness :
  exactRegistries imported
  /\ updateScheduleConfigHandler demoEnv halfPastTen imported
     = (ReplyError 500 "更新定时配置失败", afterFailure)
  /\ liveGlobalJob imported 0
  /\ head (configs afterFailure) = Some cfgTen30
  /\ globalScheduleJob afterFailure = None
  /\ (forall h, ~ liveGlobalJob afterFailure h).
Proof.
  assert (Hrun : updateScheduleConfigHandler demoEnv halfPastTen imported
                 = (ReplyError 500 "更新定时配置失败", afterFailure))
    by (vm_compute; reflexivity).
  destruct (failed_reconfiguration_leaves_no_global_job demoEnv halfPastTen imported
              afterFailure _ imported_exact eq_refl eq_refl Hrun)
    as (Hhead & Hnone & Hnolive & _).
  split; [exact imported_exact|]. split; [exact Hrun|]. split.
  - destruct imported_exact as [[_ Hglobal] _]. apply Hglobal. vm_compute. reflexivity.
  - split; [exact Hhead|]. split; [exact Hnone|exact Hnolive].
Defined.

(** The category with a live job is deleted: the row is gone, the job
    (handle 0) is still live, and its firing adds nothing to the trace. *)
Lemma deleted_category_job_survives_witness :
  deleteCategoryRoute demoEnv "c1" clubScheduled = (Normal Deleted, clubDeleted)
  /\ liveCategoryJob clubScheduled "cat_c1" 0
  /\ categories clubDeleted = []
  /\ liveCategoryJob clubDeleted "cat_c1" 0
  /\ trace (fire demoEnv 0 clubDeleted) = trace clubDeleted.
Proof.
  assert (Hrun : deleteCategoryRoute demoEnv "c1" clubScheduled
                 = (Normal Deleted, clubDeleted)) by (vm_compute; reflexivity).
  assert (Hlive : liveCategoryJob clubScheduled "cat_c1" 0).
  { destruct clubScheduled_exact as [_ Hcat]. apply Hcat. vm_compute. reflexivity. }
  destruct (deleted_category_job_survives demoEnv "c1" clubScheduled clubDeleted
              (Normal Deleted) Hrun)
    as (_ & Hkeep & Hdeleted & _).
  destruct (Hkeep 0%nat Hlive) as [Hlive' _].
  destruct (Hdeleted eq_refl) as (_ & _ & Hfire).
  split; [exact Hrun|]. split; [exact Hlive|]. split; [vm_compute; reflexivity|].
  split; [exact Hlive'|]. exact (Hfire 0%nat Hlive').
Defined.

(** The site with a live job is deleted: the row is gone, the job (handle
    0) is still live, and its firing adds nothing to the trace. *)
Lemma deleted_site_job_survives_witness :
  deleteSiteRoute demoEnv "s1" scheduled = (Normal tt, ownDeleted)
  /\ liveSiteJob scheduled "s1" 0
  /\ sites ownDeleted = [alpha]
  /\ liveSiteJob ownDeleted "s1" 0
  /\ trace (fire demoEnv 0 ownDeleted) = trace ownDeleted.
Proof.
  assert (Hrun : deleteSiteRoute demoEnv "s1" scheduled = (Normal tt, ownDeleted))
    by (vm_compute; reflexivity).
  assert (Hlive : liveSiteJob scheduled "s1" 0).
  { destruct scheduled_exact as [[Hsite _] _]. apply Hsite. vm_compute. reflexivity. }
  destruct (deleted_site_job_survives demoEnv "s1" scheduled ownDeleted (Normal tt) Hrun)
    as (_ & Hkeep & Hdeleted & _).
  destruct (Hkeep 0%nat Hlive) as [Hlive' _].
  destruct (Hdeleted eq_refl) as (_ & _ & Hfire).
  split; [exact Hrun|]. split; [exact Hlive|]. split; [vm_compute; reflexivity|].
  split; [exact Hlive'|]. exact (Hfire 0%nat Hlive').
Defined.

(** The manual batch of a category with four members: the pinned and the
    excluded one are left out, the other two are checked with one pause
    between them, and the reply lists one change and one failure. *)
Lemma manual_category_batch_witness :
  dbFault demoEnv (dbCalls clubFull) = None
  /\ exists w' delta,
       checkCategoryRoute demoEnv demoCheckById "c1" false clubFull
       = (Normal
            (CheckOk
               (mkResults [("member", "+gpt-x")]
                  [mkFailed "down" "connect ECONNREFUSED"] 2)), w')
       /\ trace w' = trace clubFull ++ delta
       /\ begunSites delta = [member; memberDown]
       /\ sleeps delta = [5000].
Proof.
  split; [reflexivity|].
  destruct (manual_category_batch demoEnv demoCheckById "c1" false clubFull eq_refl)
    as (w' & delta & Hrun & Htr & _ & Hbegun & _ & _ & Hsleeps & _).
  exists w', delta. split.
  { rewrite Hrun. f_equal. }
  split; [exact Htr|]. split.
  - rewrite Hbegun. vm_compute. reflexivity.
  - rewrite Hsleeps. vm_compute. reflexivity.
Defined.

(** A day of operations from start-up on: the registries are exact at the
    end of it. *)
Lemma registries_stay_exact_witness :
  justLoaded boot
  /\ (length (configs boot) <= 1)%nat
  /\ (forall k h1 h2,
        liveSiteJob (run demoEnv demoCheckById false day boot) k h1 ->
        liveSiteJob (run demoEnv demoCheckById false day boot) k h2 -> h1 = h2)
  /\ (forall h,
        globalScheduleJob (run demoEnv demoCheckById false day boot) = Some h
        <-> liveGlobalJob (run demoEnv demoCheckById false day boot) h)
  /\ (length (configs (run demoEnv demoCheckById false day boot)) <= 1)%nat.
Proof.
  assert (Hloaded : justLoaded boot) by (repeat split).
  assert (Hlen : (length (configs boot) <= 1)%nat) by (simpl; lia).
  destruct (registries_stay_exact demoEnv demoCheckById false day boot Hloaded Hlen)
    as (_ & _ & Hglobal & Hsite & _ & _ & _ & Hrows).
  split; [exact Hloaded|]. split; [exact Hlen|]. split; [exact Hsite|].
  split; [exact Hglobal|exact Hrows].
Defined.

(** The administrator is created from the two variables and logs in; with
    a configured email that is not in the format, the administrator is
    created all the same and the login request is answered with 400. *)
Lemma bootstrap_then_login_witness :
  (forall p n, toyCompare p (toyHash p n) = true)
  /\ Auth.users noUsers = []
  /\ (exists u,
        Auth.users bootstrapped = [u]
        /\ Auth.isAdmin u = true
        /\ fst (Auth.loginRoute toyCompare toySign (fun _ => None) toyIsEmail
                  (Auth.mkLoginBody (Some "root@example.org") (Some "s3cret"))
                  bootstrapped)
           = Normal (Auth.Token (toySign (Auth.mkClaims (Auth.user_id u)
                                            "root@example.org" true))))
  /\ (exists u,
        Auth.users bootstrappedPlain = [u]
        /\ Auth.user_email u = "admin"
        /\ fst (Auth.loginRoute toyCompare toySign (fun _ => None) toyIsEmail
                  (Auth.mkLoginBody (Some "admin") (Some "s3cret"))
                  bootstrappedPlain)
           = Normal Auth.BadRequest).
Proof.
  split; [exact toyCompare_toyHash|]. split; [reflexivity|]. split.
  - destruct (Auth.bootstrap_then_login (Some "root@example.org") (Some "s3cret")
                toyHash toyCompare toySign (fun _ => None) toyId toyIsEmail noUsers
                "root@example.org" "s3cret" toyCompare_toyHash (fun _ => eq_refl)
                eq_refl eq_refl eq_refl ltac:(discriminate) ltac:(discriminate))
      as (u & Hu & _ & Hadmin & Hlogin & _).
    exists u. split; [exact Hu|]. split; [exact Hadmin|exact Hlogin].
  - destruct (Auth.bootstrap_then_login (Some "admin") (Some "s3cret")
                toyHash toyCompare toySign (fun _ => None) toyId toyIsEmail noUsers
                "admin" "s3cret" toyCompare_toyHash (fun _ => eq_refl)
                eq_refl eq_refl eq_refl ltac:(discriminate) ltac:(discriminate))
      as (u & Hu & Hmail & _ & Hlogin & _).
    exists u. split; [exact Hu|]. split; [exact Hmail|exact Hlogin].
Defined.

(** [scheduleAll] on a store with a scheduled site, an unscheduled one and
    a scheduled category. *)
Lemma scheduleAll_installs_every_schedule_witness :
  exactRegistries town
  /\ NoDup (map Site.id (sites town))
  /\ NoDup (map Category.id (categories town))
  /\ scheduleAll demoEnv town = (Normal tt, townScheduled)
  /\ (exists h, liveSiteJob townScheduled "s1" h)
  /\ ~ (exists h, liveSiteJob townScheduled "a" h)
  /\ (exists h, liveCategoryJob townScheduled "cat_c1" h).
Proof.
  assert (Hinv : exactRegistries town) by (apply exactRegistries_fresh; reflexivity).
  assert (Hnds : NoDup (map Site.id (sites town)))
    by (apply (bool_decide_unpack _); vm_compute; exact I).
  assert (Hndc : NoDup (map Category.id (categories town)))
    by (apply (bool_decide_unpack _); vm_compute; exact I).
  assert (Hrun : scheduleAll demoEnv town = (Normal tt, townScheduled))
    by (vm_compute; reflexivity).
  destruct (scheduleAll_installs_every_schedule demoEnv town townScheduled
              Hinv Hnds Hndc Hrun)
    as (_ & _ & _ & Hsites & Hcats).
  do 3 (split; [assumption|]). split; [exact Hrun|]. split; [|split].
  - apply (proj1 (Hsites own ltac:(left; reflexivity))). split; reflexivity.
  - intros Hl. apply (proj1 (Hsites alpha ltac:(right; left; reflexivity))) in Hl.
    destruct Hl as [_ Hl]. discriminate Hl.
  - apply (proj1 (Hcats nightly ltac:(left; reflexivity))). reflexivity.
Defined.

(** A member without a schedule, not pinned: checked by the job of its
    category and by the global job. *)
Lemma category_and_global_batches_overlap_witness :
  In member (sites clubOn)
  /\ exists d1 d2,
       trace (snd (categoryTick demoEnv nightly clubOn)) = trace clubOn ++ d1
       /\ In member (begunSites d1)
       /\ trace (snd (globalTick demoEnv cfg30 clubOn)) = trace clubOn ++ d2
       /\ In member (begunSites d2).
Proof.
  assert (Hin : In member (sites clubOn)) by (left; reflexivity).
  split; [exact Hin|].
  apply (category_and_global_batches_overlap demoEnv nightly cfg30 cfg30 member clubOn);
    try reflexivity; [discriminate|exact Hin].
Defined.

End MoreExamples.
